(** * Suspended Reality: gesture classifier, hand physics and smear field

    A shallow embedding of the gesture-driven core of the application:
    - [Classifier]: the per-frame loop body of [detect] in
      [components/WebcamHandler.tsx];
    - [Physics]: the class [HandPhysics] of the fluid scene;
    - [Smear]: the fragment program [smearFragmentShader];
    - [Scene]: the ping-pong render pass of the [useFrame] callback.

    Numbers.  A JavaScript [number] and a GLSL [float] are both read as a
    real number ([R]): additions, products, quotients, square roots and
    comparisons are the exact ones, rounding is not part of the model.
    Comparisons that the code branches on are booleans obtained from the
    decidable order of [R].

    Errors.  Reading a property of [undefined] throws a [TypeError] in
    JavaScript; such code lives in [option], [None] being the throw.  GLSL
    leaves [normalize] of a zero-length vector undefined; a vector that may
    be undefined is an [option Vec2]. *)

From Stdlib Require Import Reals Lra Lia Psatz List String Bool Arith.
Import ListNotations.

Open Scope R_scope.

(** ** Numbers and vectors *)

Definition Rltb (x y : R) : bool := if Rlt_dec x y then true else false.
Definition Rgtb (x y : R) : bool := Rltb y x.

(** [Math.hypot(a, b)]. *)
Definition hypot (a b : R) : R := sqrt (a * a + b * b).

(** [Math.max(lo, Math.min(hi, x))] and GLSL [clamp(x, lo, hi)]. *)
Definition clamp (x lo hi : R) : R := Rmax lo (Rmin hi x).

Record Vec2 : Type := mkVec2 { vx : R; vy : R }.

Definition vzero : Vec2 := mkVec2 0 0.
Definition vadd (a b : Vec2) : Vec2 := mkVec2 (vx a + vx b) (vy a + vy b).
Definition vsub (a b : Vec2) : Vec2 := mkVec2 (vx a - vx b) (vy a - vy b).
Definition vscale (a : Vec2) (k : R) : Vec2 := mkVec2 (vx a * k) (vy a * k).
Definition lengthSq (a : Vec2) : R := vx a * vx a + vy a * vy a.
Definition vlength (a : Vec2) : R := sqrt (lengthSq a).

(** The option monad of the throwing code. *)
Definition bind {A B : Type} (m : option A) (k : A -> option B) : option B :=
  match m with
  | Some a => k a
  | None => None
  end.

Notation "x <- m ;; k" := (bind m (fun x => k))
  (at level 61, m at next level, right associativity).

Inductive GestureType : Type := NONE | PALM | PINCH.

Definition GestureType_eqb (a b : GestureType) : bool :=
  match a, b with
  | NONE, NONE | PALM, PALM | PINCH, PINCH => true
  | _, _ => false
  end.

(** ** The gesture classifier ([detect] in WebcamHandler.tsx) *)

Module Classifier.

(** A normalized landmark of the hand model. *)
Record Landmark : Type := mkLandmark { x : R; y : R; z : R }.

(** The detector's answer for one video frame: [results.landmarks] (which
    may be missing) and [results.handedness], whose entry [i] is a list of
    categories of which the code reads the first one's [categoryName]. *)
Record Results : Type := mkResults {
  landmarks : option (list (list Landmark));
  handedness : list (list string)
}.

Record IndexTip : Type := mkIndexTip {
  tip_x : R; tip_y : R; tip_vx : R; tip_vy : R
}.

(** An entry of [handsStateRef.current]. *)
Record SlotState : Type := mkSlotState {
  gesture : GestureType;
  smoothedPos : Vec2;
  smoothedZ : R;
  indexTipState : IndexTip
}.

(** [HandPoint] of types.ts. *)
Record HandPoint : Type := mkHandPoint {
  hp_gesture : GestureType;
  hp_x : R; hp_y : R; hp_z : R;
  hp_indexTip : IndexTip
}.

Definition HandsState : Type := (SlotState * SlotState)%type.
Definition HandData : Type := (HandPoint * HandPoint)%type.

Definition PINCH_THRESHOLD : R := 0.05.
Definition PALM_OPEN_FINGER_COUNT : nat := 5.
Definition SMOOTHING_FACTOR : R := 0.25.
Definition VELOCITY_SMOOTHING : R := 0.3.

Definition initialSlot : SlotState :=
  mkSlotState NONE (mkVec2 0.5 0.5) 0 (mkIndexTip 0.5 0.5 0 0).

Definition initialHands : HandsState := (initialSlot, initialSlot).

Definition lerp (start end_ amt : R) : R := (1 - amt) * start + amt * end_.

(** [{tip, pip}] pairs of the five fingers. *)
Definition fingersIndices : list (nat * nat) :=
  [(4, 2); (8, 6); (12, 10); (16, 14); (20, 18)]%nat.

(** The loop over [fingersIndices]: [landmarks[f.tip]] or [landmarks[f.pip]]
    out of range is [undefined] and reading its [x] throws. *)
Fixpoint countExtended (lm : list Landmark) (wrist : Landmark)
    (fs : list (nat * nat)) (count : nat) : option nat :=
  match fs with
  | [] => Some count
  | (t, p) :: fs' =>
      tip <- nth_error lm t ;;
      pip <- nth_error lm p ;;
      countExtended lm wrist fs'
        (if Rgtb (hypot (x tip - x wrist) (y tip - y wrist))
                 (hypot (x pip - x wrist) (y pip - y wrist) * 1.1)
         then S count else count)
  end.

Definition exportSlot (st : SlotState) : HandPoint :=
  mkHandPoint (gesture st) (vx (smoothedPos st)) (vy (smoothedPos st))
    (smoothedZ st)
    (mkIndexTip (tip_x (indexTipState st)) (tip_y (indexTipState st))
       (tip_vx (indexTipState st)) (tip_vy (indexTipState st))).

(** The branch [i < foundHandsCount] of the slot loop. *)
Definition trackHand (state : SlotState) (lm : list Landmark)
    (handed : string) : option (SlotState * HandPoint) :=
  wrist <- nth_error lm 0 ;;
  thumbTip <- nth_error lm 4 ;;
  indexTip <- nth_error lm 8 ;;
  middleMcp <- nth_error lm 9 ;;
  indexMcp <- nth_error lm 5 ;;
  pinkyMcp <- nth_error lm 17 ;;
  let handSize :=
    sqrt ((x wrist - x middleMcp) ^ 2 + (y wrist - y middleMcp) ^ 2) in
  let rawZ := (handSize - 0.05) / 0.2 in
  let targetZ := Rmax 0 (Rmin 1 rawZ) in
  let pinchDist :=
    hypot (x thumbTip - x indexTip) (y thumbTip - y indexTip) in
  let isPinching := Rltb pinchDist PINCH_THRESHOLD in
  extendedFingersCount <- countExtended lm wrist fingersIndices 0 ;;
  let ax := x indexMcp - x wrist in
  let ay := y indexMcp - y wrist in
  let bx := x pinkyMcp - x wrist in
  let by_ := y pinkyMcp - y wrist in
  let crossZ := ax * by_ - ay * bx in
  let isBackFacingCamera :=
    if String.eqb handed "Left" then Rltb crossZ (-0.002)
    else Rgtb crossZ 0.002 in
  let isPalmOpen :=
    (PALM_OPEN_FINGER_COUNT <=? extendedFingersCount)%nat
    && isBackFacingCamera in
  let '(detectedGesture, targetX, targetY) :=
    if isPinching then
      (PINCH, (x thumbTip + x indexTip) / 2, (y thumbTip + y indexTip) / 2)
    else if isPalmOpen then (PALM, x middleMcp, y middleMcp)
    else (NONE, x middleMcp, y middleMcp) in
  let rawVx := x indexTip - tip_x (indexTipState state) in
  let rawVy := y indexTip - tip_y (indexTipState state) in
  let state' :=
    mkSlotState detectedGesture
      (mkVec2 (lerp (vx (smoothedPos state)) targetX SMOOTHING_FACTOR)
              (lerp (vy (smoothedPos state)) targetY SMOOTHING_FACTOR))
      (lerp (smoothedZ state) targetZ 0.1)
      (mkIndexTip (x indexTip) (y indexTip)
         (lerp (tip_vx (indexTipState state)) (rawVx * 50.0)
            VELOCITY_SMOOTHING)
         (lerp (tip_vy (indexTipState state)) (rawVy * 50.0)
            VELOCITY_SMOOTHING)) in
  Some (state', exportSlot state').

(** The branch "Lost hand" of the slot loop. *)
Definition lostHand (state : SlotState) : SlotState * HandPoint :=
  let state' :=
    mkSlotState NONE (smoothedPos state) (lerp (smoothedZ state) 0 0.1)
      (mkIndexTip (tip_x (indexTipState state)) (tip_y (indexTipState state))
         0 0) in
  (state',
   mkHandPoint NONE (vx (smoothedPos state')) (vy (smoothedPos state'))
     (smoothedZ state')
     (mkIndexTip (tip_x (indexTipState state')) (tip_y (indexTipState state'))
        0 0)).

Definition foundHandsCount (results : Results) : nat :=
  match landmarks results with
  | Some l => List.length l
  | None => 0%nat
  end.

(** One iteration of [for (let i = 0; i < 2; i++)]. *)
Definition slotStep (results : Results) (i : nat) (state : SlotState)
    : option (SlotState * HandPoint) :=
  if (i <? foundHandsCount results)%nat then
    all <- landmarks results ;;
    lm <- nth_error all i ;;
    cats <- nth_error (handedness results) i ;;
    handed <- nth_error cats 0 ;;
    trackHand state lm handed
  else Some (lostHand state).

(** The body of [detect] for a new video frame: both slots in order, then
    [onHandUpdate(currentFrameData)].  A throw in either slot leaves the
    callback before the next frame is requested.  The guards around this
    block are those of [Loop.detect]. *)
Definition detect (results : Results) (st : HandsState)
    : option (HandsState * HandData) :=
  r0 <- slotStep results 0 (fst st) ;;
  r1 <- slotStep results 1 (snd st) ;;
  Some ((fst r0, fst r1), (snd r0, snd r1)).

(** The frames of a session, from the initial state: the state and the last
    exported pair after all of them. *)
Fixpoint run (frames : list Results) (st : HandsState) (out : HandData)
    : option (HandsState * HandData) :=
  match frames with
  | [] => Some (st, out)
  | r :: frames' =>
      so <- detect r st ;;
      run frames' (fst so) (snd so)
  end.

Definition initialData : HandData :=
  (mkHandPoint NONE 0.5 0.5 0 (mkIndexTip 0.5 0.5 0 0),
   mkHandPoint NONE 0.5 0.5 0 (mkIndexTip 0.5 0.5 0 0)).

End Classifier.

(** ** The pinch-drag spring ([HandPhysics] in the fluid scene) *)

Module Physics.

(** [FluidParams] of types.ts. *)
Record FluidParams : Type := mkFluidParams {
  reflectionIntensity : R;
  refractionIndex : R;
  distortionStrength : R;
  waveHeight : R;
  rippleEffectStrength : R;
  dynamicSpeed : R;
  grabRadius : R;
  stretchStiffness : R;
  reboundElasticity : R;
  blendSoftness : R;
  smearIntensity : R;
  smearDecayTime : R;
  smearRadius : R;
  colorBleeding : R
}.

Definition DEFAULT_PARAMS : FluidParams :=
  mkFluidParams 1.0 0.2 0.8 0.5 2.0 1.5 0.35 0.6 0.9 0.4 0.8 0.05 0.15 0.6.

Record HandPhysics : Type := mkHandPhysics {
  anchorPoint : Vec2;
  currentStretch : Vec2;
  velocity : Vec2;
  isDragging : bool
}.

Definition initial : HandPhysics :=
  mkHandPhysics (mkVec2 0.5 0.5) (mkVec2 0 0) (mkVec2 0 0) false.

(** [update(handPos, gesture, params, dt)], the receiver first. *)
Definition update (this : HandPhysics) (handPos : Vec2)
    (gesture : GestureType) (params : FluidParams) (dt : R) : HandPhysics :=
  let targetPos := mkVec2 (vx handPos) (1.0 - vy handPos) in
  if GestureType_eqb gesture PINCH then
    if negb (isDragging this) then
      mkHandPhysics targetPos (mkVec2 0 0) (mkVec2 0 0) true
    else
      mkHandPhysics (anchorPoint this) (vsub targetPos (anchorPoint this))
        (velocity this) (isDragging this)
  else
    let springK := 10.0 in
    let damping := 5.0 * (1.05 - reboundElasticity params) in
    let force := vscale (currentStretch this) (- springK) in
    let dampingForce := vscale (velocity this) (- damping) in
    let acceleration := vadd force dampingForce in
    let velocity' := vadd (velocity this) (vscale acceleration dt) in
    let currentStretch' :=
      vadd (currentStretch this) (vscale velocity' dt) in
    if Rltb (lengthSq currentStretch') 0.00001
       && Rltb (lengthSq velocity') 0.0001
    then mkHandPhysics (anchorPoint this) (mkVec2 0 0) (mkVec2 0 0) false
    else mkHandPhysics (anchorPoint this) currentStretch' velocity' false.

(** One call per animation frame: the hand position, the gesture and the
    frame's [dt] of each tick, oldest first. *)
Fixpoint run (ticks : list (Vec2 * GestureType * R)) (params : FluidParams)
    (p : HandPhysics) : HandPhysics :=
  match ticks with
  | [] => p
  | (handPos, gesture, dt) :: ticks' =>
      run ticks' params (update p handPos gesture params dt)
  end.

End Physics.

(** ** The accumulation field ([smearFragmentShader]) *)

Module Smear.

(** A texel of the float render target: R and G hold the encoded stroke
    direction, B the encoded speed, A the intensity.  The direction is
    [None] once an undefined [normalize] has been written into it. *)
Record Texel : Type := mkTexel {
  rg : option Vec2;
  b : R;
  a : R
}.

(** The contents of a render target, read at the fragment's own [vUv]. *)
Definition Field : Type := Vec2 -> Texel.

(** A freshly allocated render target reads as zero. *)
Definition blank : Field := fun _ => mkTexel (Some (mkVec2 0 0)) 0 0.

Record Uniforms : Type := mkUniforms {
  uIndexPos : Vec2 * Vec2;
  uIndexVel : Vec2 * Vec2;
  uDecay : R;
  uRadius : R;
  uIntensity : R
}.

(** GLSL [smoothstep] by its reference formula; the brush calls it with
    [edge0 > edge1], where the formula falls from 1 (at [edge1] and below)
    to 0 (at [edge0] and above). *)
Definition smoothstep (edge0 edge1 x : R) : R :=
  let t := clamp ((x - edge0) / (edge1 - edge0)) 0 1 in
  t * t * (3 - 2 * t).

Definition mix (x y w : R) : R := x * (1 - w) + y * w.

(** GLSL [normalize]: defined for a vector of non-zero length only. *)
Definition normalize (v : Vec2) : option Vec2 :=
  if Req_dec_T (vlength v) 0 then None
  else Some (vscale v (/ vlength v)).

(** The running sums of the loop over the two hands. *)
Record Brush : Type := mkBrush {
  totalBrush : R;
  totalVel : option Vec2;
  maxInputSpeed : R
}.

(** One iteration of [for(int i=0; i<2; i++)]. *)
Definition brushHand (u : Uniforms) (vUv : Vec2) (pos vel : Vec2)
    (acc : Brush) : Brush :=
  let handPos := mkVec2 (vx pos) (1.0 - vy pos) in
  let dist := vlength (vsub vUv handPos) in
  let velMag := vlength vel in
  if Rgtb velMag 0.02 then
    let brush := smoothstep (uRadius u) (uRadius u * 0.4) dist in
    if Rgtb brush 0.0 then
      let dir := normalize vel in
      mkBrush (totalBrush acc + brush)
        (tv <- totalVel acc ;; d <- dir ;; Some (vadd tv (vscale d brush)))
        (Rmax (maxInputSpeed acc) velMag)
    else acc
  else acc.

Definition brushes (u : Uniforms) (vUv : Vec2) : Brush :=
  brushHand u vUv (snd (uIndexPos u)) (snd (uIndexVel u))
    (brushHand u vUv (fst (uIndexPos u)) (fst (uIndexVel u))
       (mkBrush 0.0 (Some (mkVec2 0.0 0.0)) 0.0)).

(** The decay step: the new intensity before any brush is applied. *)
Definition decayed (u : Uniforms) (lastState : Texel) : R :=
  let storedSpeed := b lastState in
  let momentumFactor := 1.0 + storedSpeed * 2.0 in
  let dynamicDecay := uDecay u / momentumFactor in
  let newAlpha := a lastState * (1.0 - dynamicDecay) in
  if Rltb newAlpha 0.005 then 0.0 else newAlpha.

(** [main] of the fragment program: the texel written at [vUv]. *)
Definition smearFragment (u : Uniforms) (vUv : Vec2) (lastState : Texel)
    : Texel :=
  let newAlpha := decayed u lastState in
  let br := brushes u vUv in
  if Rgtb (totalBrush br) 0.0 then
    let newAlpha' := Rmin 1.0 (newAlpha + uIntensity u * totalBrush br) in
    let encodedDir :=
      tv <- totalVel br ;;
      n <- normalize tv ;;
      Some (mkVec2 (vx n * 0.5 + 0.5) (vy n * 0.5 + 0.5)) in
    let encodedSpeed := clamp (maxInputSpeed br) 0.0 1.0 in
    let w := Rmin 1.0 (totalBrush br * 2.5) in
    mkTexel
      (old <- rg lastState ;;
       e <- encodedDir ;;
       Some (mkVec2 (mix (vx old) (vx e) w) (mix (vy old) (vy e) w)))
      (mix (b lastState) encodedSpeed w)
      newAlpha'
  else mkTexel (rg lastState) (b lastState) newAlpha.

(** The texel at [vUv] after a sequence of ticks. *)
Fixpoint runCell (us : list Uniforms) (vUv : Vec2) (c : Texel) : Texel :=
  match us with
  | [] => c
  | u :: us' => runCell us' vUv (smearFragment u vUv c)
  end.

End Smear.

(** ** The frame callback of the fluid scene ([useFrame]) *)

Module Scene.

Import Classifier Physics Smear.

(** The two [WebGLRenderTarget] objects allocated by the effect. *)
Inductive Target : Type := TargetA | TargetB.

Definition Target_eqb (s t : Target) : bool :=
  match s, t with
  | TargetA, TargetA | TargetB, TargetB => true
  | _, _ => false
  end.

(** What the callback reads each frame besides its own state. *)
Record Frame : Type := mkFrame {
  hands : HandData;
  params : FluidParams;
  delta : R
}.

Record SceneState : Type := mkSceneState {
  physicsRefs : HandPhysics * HandPhysics;
  (** [fboRead.current] and [fboWrite.current], null before the effect. *)
  fboRead : option Target;
  fboWrite : option Target;
  (** The texture of each render target. *)
  textures : Target -> Field;
  (** Uniforms of the smear material. *)
  uLastFrame : option Target;
  smearUniforms : Uniforms;
  (** Uniforms of the composite material. *)
  uSmearTexture : option Target;
  uHandPos : Vec2 * Vec2;
  uHandGesture : nat * nat;
  uHandZ : R * R;
  uStretchVector : Vec2 * Vec2;
  uStretchAnchor : Vec2 * Vec2
}.

(** The state after mounting: the effect has allocated both targets. *)
Definition mounted : SceneState :=
  mkSceneState (Physics.initial, Physics.initial)
    (Some TargetA) (Some TargetB) (fun _ => blank)
    None
    (mkUniforms (mkVec2 0 0, mkVec2 0 0) (mkVec2 0 0, mkVec2 0 0)
       0.01 0.1 0.5)
    None
    (mkVec2 0.5 0.5, mkVec2 0.5 0.5) (0, 0)%nat (0.0, 0.0)
    (mkVec2 0 0, mkVec2 0 0) (mkVec2 0.5 0.5, mkVec2 0.5 0.5).

Definition gestureInt (g : GestureType) : nat :=
  match g with
  | NONE => 0
  | PALM => 1
  | PINCH => 2
  end.

(** The body of [for (let i = 0; i < 2; i++)] for one hand. *)
Definition handStep (physics : HandPhysics) (hand : HandPoint)
    (f : Frame) : HandPhysics :=
  let dt := Rmin (delta f) 0.1 in
  Physics.update physics (mkVec2 (hp_x hand) (hp_y hand)) (hp_gesture hand)
    (params f) dt.

(** [gl.render(smearScene, smearCamera)] into the target [w]: every
    fragment reads [uLastFrame] at its own [vUv]. *)
Definition render (tex : Target -> Field) (u : Uniforms) (last w : Target)
    : Target -> Field :=
  fun t =>
    if Target_eqb t w then fun vUv => smearFragment u vUv (tex last vUv)
    else tex t.

Definition useFrame (f : Frame) (s : SceneState) : SceneState :=
  match fboRead s, fboWrite s with
  | Some rd, Some wr =>
      let h0 := fst (hands f) in
      let h1 := snd (hands f) in
      let p0 := handStep (fst (physicsRefs s)) h0 f in
      let p1 := handStep (snd (physicsRefs s)) h1 f in
      let u :=
        mkUniforms
          (mkVec2 (tip_x (hp_indexTip h0)) (tip_y (hp_indexTip h0)),
           mkVec2 (tip_x (hp_indexTip h1)) (tip_y (hp_indexTip h1)))
          (mkVec2 (tip_vx (hp_indexTip h0)) (tip_vy (hp_indexTip h0)),
           mkVec2 (tip_vx (hp_indexTip h1)) (tip_vy (hp_indexTip h1)))
          (smearDecayTime (params f)) (smearRadius (params f))
          (smearIntensity (params f)) in
      let tex := render (textures s) u rd wr in
      (* Swap Buffers *)
      let temp := rd in
      let fboRead' := wr in
      let fboWrite' := temp in
      mkSceneState (p0, p1) (Some fboRead') (Some fboWrite') tex
        (Some rd) u
        (Some fboRead')
        (mkVec2 (hp_x h0) (1.0 - hp_y h0), mkVec2 (hp_x h1) (1.0 - hp_y h1))
        (gestureInt (hp_gesture h0), gestureInt (hp_gesture h1))
        (hp_z h0, hp_z h1)
        (currentStretch p0, currentStretch p1)
        (anchorPoint p0, anchorPoint p1)
  | _, _ => s
  end.

Fixpoint frames (fs : list Frame) (s : SceneState) : SceneState :=
  match fs with
  | [] => s
  | f :: fs' => frames fs' (useFrame f s)
  end.

End Scene.

(** ** The gesture tests in the specification's words *)

Section GestureResolution.

Import Classifier.

Variable lm : list Landmark.
Variable handed : string.

(** Landmark [i] of the frame. *)
Definition point (i : nat) : Landmark := nth i lm (mkLandmark 0 0 0).

(** Euclidean distance in the image plane. *)
Definition planar (p q : Landmark) : R :=
  sqrt ((x p - x q) * (x p - x q) + (y p - y q) * (y p - y q)).


(** The tip is farther from the wrist than the mid-joint, by the factor. *)
Definition extended (f : nat * nat) : Prop :=
  planar (point (fst f)) (point 0) > planar (point (snd f)) (point 0) * 1.1.

Definition extended_dec (f : nat * nat) : {extended f} + {~ extended f} :=
  Rgt_dec _ _.

Definition extendedFingers : nat :=
  List.length
    (filter (fun f => if extended_dec f then true else false) fingersIndices).

Definition crossZ : R :=
  (x (point 5) - x (point 0)) * (y (point 17) - y (point 0))
  - (y (point 5) - y (point 0)) * (x (point 17) - x (point 0)).



End GestureResolution.

(** The gesture written by [trackHand], as a function of the three tests. *)
Definition resolve (pinch palm : bool) : GestureType :=
  if pinch then PINCH else if palm then PALM else NONE.

(** ** Frames with all their landmarks *)

Section CompleteFrames.

Import Classifier.

(** The slot state [trackHand] writes when no read is out of range. *)
Definition tracked (state : SlotState) (lm : list Landmark)
    (handed : string) : SlotState :=
  let pinch := Rltb (planar (point lm 4) (point lm 8)) 0.05 in
  let palm :=
    ((5 <=? extendedFingers lm)%nat
     && (if String.eqb handed "Left" then Rltb (crossZ lm) (- 0.002)
         else Rgtb (crossZ lm) 0.002))%bool in
  let targetX :=
    if pinch then (x (point lm 4) + x (point lm 8)) / 2
    else x (point lm 9) in
  let targetY :=
    if pinch then (y (point lm 4) + y (point lm 8)) / 2
    else y (point lm 9) in
  let targetZ :=
    clamp ((planar (point lm 0) (point lm 9) - 0.05) / 0.2) 0 1 in
  mkSlotState (resolve pinch palm)
    (mkVec2 (lerp (vx (smoothedPos state)) targetX 0.25)
            (lerp (vy (smoothedPos state)) targetY 0.25))
    (lerp (smoothedZ state) targetZ 0.1)
    (mkIndexTip (x (point lm 8)) (y (point lm 8))
       (lerp (tip_vx (indexTipState state))
          ((x (point lm 8) - tip_x (indexTipState state)) * 50.0) 0.3)
       (lerp (tip_vy (indexTipState state))
          ((y (point lm 8) - tip_y (indexTipState state)) * 50.0) 0.3)).

(** Slot [i] of the frame, when occupied, has its 21 landmarks and a
    handedness label. *)
Definition completeSlot (results : Results) (i : nat) : Prop :=
  (i < foundHandsCount results)%nat ->
  exists all lm handed others,
    landmarks results = Some all
    /\ nth_error all i = Some lm
    /\ (21 <= List.length lm)%nat
    /\ nth_error (handedness results) i = Some (handed :: others).

Definition complete (results : Results) : Prop :=
  completeSlot results 0 /\ completeSlot results 1.

(** Every landmark of the frame lies in the unit square of the image. *)
Definition inImage (results : Results) : Prop :=
  forall all lm p,
    landmarks results = Some all -> In lm all -> In p lm ->
    0 <= x p <= 1 /\ 0 <= y p <= 1.

Definition unitPoint (hp : HandPoint) : Prop :=
  0 <= hp_x hp <= 1 /\ 0 <= hp_y hp <= 1.

Definition unitPos (state : SlotState) : Prop :=
  0 <= vx (smoothedPos state) <= 1 /\ 0 <= vy (smoothedPos state) <= 1.

End CompleteFrames.

(** ** The idle spring in the specification's words *)

Section IdleSpring.

Variable params : Physics.FluidParams.
Variable dt : R.

Definition damping : R := 5 * (1.05 - Physics.reboundElasticity params).

(** Acceleration of a damped spring with constant 10 pulling to zero. *)
Definition acceleration (stretch velocity : R) : R :=
  (- 10.0) * stretch + (- damping) * velocity.

(** Semi-implicit Euler: the velocity first, the stretch from the new
    velocity. *)
Definition eulerVelocity (stretch velocity : R) : R :=
  velocity + acceleration stretch velocity * dt.

Definition eulerStretch (stretch velocity : R) : R :=
  stretch + eulerVelocity stretch velocity * dt.

Definition eulerVelocity2 (p : Physics.HandPhysics) : Vec2 :=
  mkVec2
    (eulerVelocity (vx (Physics.currentStretch p)) (vx (Physics.velocity p)))
    (eulerVelocity (vy (Physics.currentStretch p)) (vy (Physics.velocity p))).

Definition eulerStretch2 (p : Physics.HandPhysics) : Vec2 :=
  mkVec2
    (eulerStretch (vx (Physics.currentStretch p)) (vx (Physics.velocity p)))
    (eulerStretch (vy (Physics.currentStretch p)) (vy (Physics.velocity p))).

(** Both squared lengths are under the snapping thresholds. *)
Definition atRest (stretch velocity : Vec2) : Prop :=
  lengthSq stretch < 0.00001 /\ lengthSq velocity < 0.0001.

End IdleSpring.

(** ** The released spring *)

Section Release.

Variable params : Physics.FluidParams.

(** An idle step of frame time [dt] without the final zeroing. *)
Definition glide (dt : R) (p : Physics.HandPhysics) : Physics.HandPhysics :=
  Physics.mkHandPhysics (Physics.anchorPoint p) (eulerStretch2 params dt p)
    (eulerVelocity2 params dt p) false.

(** Idle steps of the given frame times, oldest first. *)
Definition glides (dts : list R) (p : Physics.HandPhysics)
    : Physics.HandPhysics :=
  fold_left (fun q dt => glide dt q) dts p.

(** The state the zeroing leaves. *)
Definition rest (p : Physics.HandPhysics) : Physics.HandPhysics :=
  Physics.mkHandPhysics (Physics.anchorPoint p) (mkVec2 0 0) (mkVec2 0 0)
    false.

(** Trace and determinant of the linear map of one idle step. *)
Definition spin (dt : R) : R := 2 - 10 * dt * dt - damping params * dt.
Definition shrink (dt : R) : R := 1 - damping params * dt.

(** A quadratic form in a stretch and its successor, for one axis: one idle
    step of frame time [dt] multiplies it by [shrink dt]. *)
Definition energy1 (dt stretch velocity : R) : R :=
  let next := eulerStretch params dt stretch velocity in
  next * next - spin dt * stretch * next + shrink dt * stretch * stretch.

Definition energy (dt : R) (p : Physics.HandPhysics) : R :=
  energy1 dt (vx (Physics.currentStretch p)) (vx (Physics.velocity p))
  + energy1 dt (vy (Physics.currentStretch p)) (vy (Physics.velocity p)).

(** The energy of the spring: 10 |stretch|^2 + |velocity|^2. *)
Definition springEnergy (p : Physics.HandPhysics) : R :=
  10 * lengthSq (Physics.currentStretch p) + lengthSq (Physics.velocity p).

End Release.

(** The released spring is still right of 0.6 and moving left, no faster
    than ten times the time elapsed, before tick [i] of a clock whose frame
    time halves at every tick, starting from 0.1. *)
Definition slowStart (i : nat) (p : Physics.HandPhysics) : Prop :=
  let elapsed := 0.2 - 2 * (0.1 / 2 ^ i) in
  1 - 2 * elapsed <= vx (Physics.currentStretch p) <= 1
  /\ - 10 * elapsed <= vx (Physics.velocity p) <= 0.

(** The share of the spring energy that an idle step of frame time [m] or
    more removes. *)
Definition loss (m : R) : R := 4 * (m * m * m).

(** A tick with a gesture other than PINCH and a frame time in [lo, hi]. *)
Definition idleTick (lo hi : R) (tick : Vec2 * GestureType * R) : Prop :=
  snd (fst tick) <> PINCH /\ lo <= snd tick <= hi.

(** ** Ranges of the field and of its parameters *)

Section FieldRanges.

Import Smear.

(** Speed and intensity of a texel are in [0,1]. *)
Definition texelInRange (c : Texel) : Prop :=
  0 <= b c <= 1 /\ 0 <= a c <= 1.

(** The documented ranges: decay rate in (0, 0.1], brush radius in
    [0.05, 0.4], intensity gain in [0, 2]. *)
Definition uniformsInRange (u : Uniforms) : Prop :=
  0 < uDecay u <= 0.1
  /\ 0.05 <= uRadius u <= 0.4
  /\ 0 <= uIntensity u <= 2.

Definition paramsInRange (p : Physics.FluidParams) : Prop :=
  0 < Physics.smearDecayTime p <= 0.1
  /\ 0.05 <= Physics.smearRadius p <= 0.4
  /\ 0 <= Physics.smearIntensity p <= 2.

(** Some brush weight reaches the cell at [vUv] this tick. *)
Definition brushed (u : Uniforms) (vUv : Vec2) : Prop :=
  totalBrush (brushes u vUv) > 0.

(** The intensity the decay step computes, in the specification's words. *)
Definition decayFormula (decayRate : R) (c : Texel) : R :=
  a c * (1 - decayRate / (1 + 2 * b c)).

(** A bound on the factor of one decay step at rate [d] or more, for a
    stored speed of at most 1. *)
Definition fade (d : R) : R := Rmax 0 (1 - d / 3).

End FieldRanges.

(** ** The two generations *)

Section Generations.

Import Scene.

(** Both targets are allocated and the read and write roles are held by
    different ones. *)
Definition pingPong (s : SceneState) : Prop :=
  exists rd wr, fboRead s = Some rd /\ fboWrite s = Some wr /\ rd <> wr.

Definition fieldInRange (s : SceneState) : Prop :=
  forall (t : Target) (vUv : Vec2), texelInRange (textures s t vUv).

End Generations.

(** ** Sample inputs *)

Module Samples.

Import Classifier.

(** A frame whose 21 landmarks coincide at the centre of the image. *)
Definition closedHand : list Landmark := repeat (mkLandmark 0.5 0.5 0) 21.

Definition oneHand : Results := mkResults (Some [closedHand]) [["Right"%string]].

Definition noHands : Results := mkResults (Some []) [].

(** A hand that the detector places right of the image. *)
Definition farHand : list Landmark := repeat (mkLandmark 3 0.5 0) 21.

Definition oneFarHand : Results :=
  mkResults (Some [farHand]) [["Right"%string]].

(** No hands, the default parameters, a 60 Hz frame. *)
Definition quietFrame : Scene.Frame :=
  Scene.mkFrame initialData Physics.DEFAULT_PARAMS 0.016.

(** A hand released one unit right of its anchor. *)
Definition stretched : Physics.HandPhysics :=
  Physics.mkHandPhysics (mkVec2 0.5 0.5) (mkVec2 1 0) (mkVec2 0 0) false.

(** An idle tick whose frame delta is zero. *)
Definition frozenTick : Vec2 * GestureType * R := (mkVec2 0.5 0.5, NONE, 0).

(** Idle ticks number [i], [i+1], ... of a clock whose frame time halves at
    every tick, starting from 0.1. *)
Definition shrinkingTicks (i n : nat) : list (Vec2 * GestureType * R) :=
  map (fun j => (mkVec2 0.5 0.5, NONE, 0.1 / 2 ^ j)) (seq i n).

(** Both fingertips over the centre of the field, moving at unit speed in
    opposite directions. *)
Definition crossing : Smear.Uniforms :=
  Smear.mkUniforms (mkVec2 0.5 0.5, mkVec2 0.5 0.5)
    (mkVec2 1 0, mkVec2 (-1) 0) 0.05 0.15 0.8.

(** A frame cut short after the wrist. *)
Definition shortHand : Results :=
  mkResults (Some [[mkLandmark 0.5 0.5 0]]) [["Right"%string]].

(** A hand right of the centre, thumb tip on index tip, the wrist a quarter
    of the image height below the other landmarks. *)
Definition pinchedHand : list Landmark :=
  mkLandmark 0.6 0.75 0 :: repeat (mkLandmark 0.6 0.5 0) 20.

Definition onePinch : Results :=
  mkResults (Some [pinchedHand]) [["Right"%string]].

End Samples.

(** ** Sessions of a hand slot *)

Section SlotSessions.

Import Classifier.

(** Slot 0 or slot 1 of the pair of slot states. *)
Definition slotOf (i : nat) (st : HandsState) : SlotState :=
  match i with
  | O => fst st
  | S _ => snd st
  end.

(** The slot state one iteration of the slot loop leaves (the old state when
    the iteration throws). *)
Definition slotNext (results : Results) (i : nat) (state : SlotState)
    : SlotState :=
  match slotStep results i state with
  | Some r => fst r
  | None => state
  end.

(** The position the smoothed anchor is drawn to: the midpoint of thumb tip
    and index tip while pinching, the base of the middle finger otherwise. *)
Definition anchorTarget (lm : list Landmark) : Vec2 :=
  if Rlt_dec (planar (point lm 4) (point lm 8)) 0.05
  then mkVec2 ((x (point lm 4) + x (point lm 8)) / 2)
         ((y (point lm 4) + y (point lm 8)) / 2)
  else mkVec2 (x (point lm 9)) (y (point lm 9)).

(** The value the smoothed proximity is drawn to. *)
Definition proximityTarget (lm : list Landmark) : R :=
  clamp ((planar (point lm 0) (point lm 9) - 0.05) / 0.2) 0 1.

(** Consecutive ticks of one slot that is occupied at each of them, oldest
    frame first. *)
Fixpoint trackFrames (handed : string) (lms : list (list Landmark))
    (state : SlotState) : option SlotState :=
  match lms with
  | [] => Some state
  | lm :: rest =>
      r <- trackHand state lm handed ;;
      trackFrames handed rest (fst r)
  end.

(** The index fingertip advances by (dx, dy) from each frame to the next,
    starting one such step after (tipx, tipy). *)
Fixpoint steadySweep (dx dy tipx tipy : R) (lms : list (list Landmark))
    : Prop :=
  match lms with
  | [] => True
  | lm :: rest =>
      x (point lm 8) = tipx + dx /\ y (point lm 8) = tipy + dy
      /\ steadySweep dx dy (tipx + dx) (tipy + dy) rest
  end.

(** A landmark moved by (dx, dy) in the image plane. *)
Definition shift (dx dy : R) (p : Landmark) : Landmark :=
  mkLandmark (x p + dx) (y p + dy) (z p).

(** A landmark mirrored left to right. *)
Definition mirror (p : Landmark) : Landmark :=
  mkLandmark (1 - x p) (y p) (z p).

End SlotSessions.

(** ** Dragging *)

(** The hand position in the coordinates of the scene (y upwards). *)
Definition flipY (handPos : Vec2) : Vec2 :=
  mkVec2 (vx handPos) (1 - vy handPos).

(** The tick read when a list of ticks is empty. *)
Definition noTick : Vec2 * GestureType * R := (mkVec2 0 0, NONE, 0).

(** A tick with a gesture other than PINCH and a frame time in (0, 0.1]. *)
Definition releasedTick (tick : Vec2 * GestureType * R) : Prop :=
  snd (fst tick) <> PINCH /\ 0 < snd tick <= 0.1.

(** ** The current generation of the field *)

Section CurrentGeneration.

Import Classifier Scene.

(** The uniforms the frame callback hands to the smear pass. *)
Definition uniformsOf (f : Frame) : Smear.Uniforms :=
  Smear.mkUniforms
    (mkVec2 (tip_x (hp_indexTip (fst (hands f))))
            (tip_y (hp_indexTip (fst (hands f)))),
     mkVec2 (tip_x (hp_indexTip (snd (hands f))))
            (tip_y (hp_indexTip (snd (hands f)))))
    (mkVec2 (tip_vx (hp_indexTip (fst (hands f))))
            (tip_vy (hp_indexTip (fst (hands f)))),
     mkVec2 (tip_vx (hp_indexTip (snd (hands f))))
            (tip_vy (hp_indexTip (snd (hands f)))))
    (Physics.smearDecayTime (params f)) (Physics.smearRadius (params f))
    (Physics.smearIntensity (params f)).

(** The generation that [fboRead] points to: the one the composite pass
    samples and the next smear pass decays. *)
Definition current (s : SceneState) : Smear.Field :=
  match fboRead s with
  | Some rd => textures s rd
  | None => Smear.blank
  end.

(** Neither fingertip moves fast enough to draw. *)
Definition quiet (u : Smear.Uniforms) : Prop :=
  vlength (fst (Smear.uIndexVel u)) <= 0.02
  /\ vlength (snd (Smear.uIndexVel u)) <= 0.02.

(** The hand draws nothing at [vUv]: it is too slow, or the cell is a brush
    radius or more away from its fingertip. *)
Definition outOfReach (u : Smear.Uniforms) (vUv pos vel : Vec2) : Prop :=
  vlength vel <= 0.02 \/ Smear.uRadius u <= vlength (vsub vUv (flipY pos)).

(** The uniforms with the two hands exchanged. *)
Definition swapHands (u : Smear.Uniforms) : Smear.Uniforms :=
  Smear.mkUniforms (snd (Smear.uIndexPos u), fst (Smear.uIndexPos u))
    (snd (Smear.uIndexVel u), fst (Smear.uIndexVel u))
    (Smear.uDecay u) (Smear.uRadius u) (Smear.uIntensity u).

(** The encoded direction, when defined, and the encoded speed are in
    [0,1]. *)
Definition encodedInRange (c : Smear.Texel) : Prop :=
  0 <= Smear.b c <= 1
  /\ (forall d, Smear.rg c = Some d -> 0 <= vx d <= 1 /\ 0 <= vy d <= 1).

End CurrentGeneration.

(** ** The hands in the frame callback *)

(** Entry 0 or entry 1 of a two-element array. *)
Definition pick {A : Type} (i : nat) (p : A * A) : A :=
  match i with
  | O => fst p
  | S _ => snd p
  end.

(** What the frame callback passes to [update] for hand [i]. *)
Definition handTick (i : nat) (f : Scene.Frame) : Vec2 * GestureType * R :=
  (mkVec2 (Classifier.hp_x (pick i (Scene.hands f)))
     (Classifier.hp_y (pick i (Scene.hands f))),
   Classifier.hp_gesture (pick i (Scene.hands f)),
   Rmin (Scene.delta f) 0.1).

(** A frame with the given parameters and frame delta in which hand [i]
    does not pinch. *)
Definition releasedFrame (params : Physics.FluidParams) (h : R) (i : nat)
    (f : Scene.Frame) : Prop :=
  Scene.params f = params /\ Scene.delta f = h
  /\ Classifier.hp_gesture (pick i (Scene.hands f)) <> PINCH.

(** ** The composite pass ([compositeFragmentShader]) *)

Module Composite.

(** [getCoverUV]: the screen coordinate scaled about the centre so that the
    video covers the screen. *)
Definition getCoverUV (screenUV screenRes texRes : Vec2) : Vec2 :=
  let ratio :=
    mkVec2
      (Rmin ((vx screenRes / vy screenRes) / (vx texRes / vy texRes)) 1.0)
      (Rmin ((vy screenRes / vx screenRes) / (vy texRes / vx texRes)) 1.0) in
  mkVec2 (vx screenUV * vx ratio + (1.0 - vx ratio) * 0.5)
         (vy screenUV * vy ratio + (1.0 - vy ratio) * 0.5).

(** [mirrorUV] of [main]. *)
Definition mirrorUV (vUv uResolution uTextureResolution : Vec2) : Vec2 :=
  let coverUV := getCoverUV vUv uResolution uTextureResolution in
  mkVec2 (1.0 - vx coverUV) (vy coverUV).

(** The parameters of the stretch term. *)
Record Grab : Type := mkGrab {
  uGrabRadius : R;
  uBlendSoftness : R;
  uStretchStiffness : R
}.

(** "Mode 2: Pinch (Stretch)" of the loop over the hands: what one hand adds
    to [totalStretch] and [totalHeight].  [pow(grabMask, 2.0)] of a mask in
    [0,1] is its square. *)
Definition pinchTerm (u : Grab) (mirrorUV : Vec2) (textureAspect : R)
    (stretchVec uStretchAnchor : Vec2) (acc : Vec2 * R) : Vec2 * R :=
  if Rgtb (vlength stretchVec) 0.001 then
    let d := vsub mirrorUV uStretchAnchor in
    let d := mkVec2 (vx d * textureAspect) (vy d) in
    let dist := vlength d in
    let grabMask :=
      Smear.smoothstep (uGrabRadius u + uBlendSoftness u)
        (uGrabRadius u - uBlendSoftness u * 0.5) dist in
    let influence := grabMask * grabMask in
    (vadd (fst acc)
       (vscale (vscale stretchVec influence)
          (1.0 - uStretchStiffness u * 0.5)),
     snd acc + influence * vlength stretchVec * 2.0)
  else acc.

(** The distance the stretch term measures: from the anchor, with x scaled
    by the aspect ratio of the video. *)
Definition grabDistance (mirrorUV : Vec2) (textureAspect : R)
    (uStretchAnchor : Vec2) : R :=
  vlength (mkVec2 (vx (vsub mirrorUV uStretchAnchor) * textureAspect)
             (vy (vsub mirrorUV uStretchAnchor))).

End Composite.

(** ** The sound targets ([updateAudio] of the audio manager) *)

Module Audio.

Import Classifier.

(** The running values of [hands.forEach]. *)
Record Metrics : Type := mkMetrics {
  maxSmearVelocity : R;
  maxPinchStretch : R;
  maxPalmProximity : R;
  activePinch : bool
}.

(** The body of [hands.forEach] for one hand. *)
Definition measure (hand : HandPoint) (m : Metrics) : Metrics :=
  let vel := hypot (tip_vx (hp_indexTip hand)) (tip_vy (hp_indexTip hand)) in
  let normalizedVel := Rmin (vel / 3.0) 1.0 in
  let maxSmearVelocity' := Rmax (maxSmearVelocity m) normalizedVel in
  let maxPalmProximity' :=
    if GestureType_eqb (hp_gesture hand) PALM
    then Rmax (maxPalmProximity m) (hp_z hand)
    else maxPalmProximity m in
  if GestureType_eqb (hp_gesture hand) PINCH then
    let handVel :=
      hypot (tip_vx (hp_indexTip hand)) (tip_vy (hp_indexTip hand)) in
    mkMetrics maxSmearVelocity'
      (Rmax (maxPinchStretch m) (Rmin (handVel / 2.0) 1.0))
      maxPalmProximity' true
  else
    mkMetrics maxSmearVelocity' (maxPinchStretch m) maxPalmProximity'
      (activePinch m).

Definition metrics (hands : HandData) : Metrics :=
  measure (snd hands) (measure (fst hands) (mkMetrics 0 0 0 false)).

(** The targets handed to [setTargetAtTime] for the three voices, when all
    their nodes exist. *)
Record Targets : Type := mkTargets {
  smearVol : R;
  smearFreq : R;
  pinchVol : R;
  pinchFreq1 : R;
  pinchFreq2 : R;
  palmVol : R;
  waterFreq : R
}.

Definition updateAudio (hands : HandData) (now : R) : Targets :=
  let m := metrics hands in
  let smearActive := Rgtb (maxSmearVelocity m) 0.05 in
  let smearTargetVol := if smearActive then maxSmearVelocity m * 0.3 else 0 in
  let smearTargetFreq := 300 + maxSmearVelocity m * 900 in
  let pinchTargetVol := if activePinch m then 0.2 else 0 in
  let baseFreq := 100 in
  let pinchTargetFreq := baseFreq + maxPinchStretch m * 150 in
  let palmActive := Rgtb (maxPalmProximity m) 0.01 in
  let palmTargetVol :=
    if palmActive then Rmin (maxPalmProximity m * 2.5) 1.0 else 0 in
  let flowLFO := sin (now * 2.5) * 250 in
  let waterFreq := 350 + maxPalmProximity m * 600 + flowLFO in
  mkTargets smearTargetVol smearTargetFreq pinchTargetVol pinchTargetFreq
    (pinchTargetFreq * 1.02) palmTargetVol waterFreq.

(** The fingertip speed of a hand. *)
Definition speed (hand : HandPoint) : R :=
  hypot (tip_vx (hp_indexTip hand)) (tip_vy (hp_indexTip hand)).

End Audio.

(** ** The animation loop ([startLoop]) *)

Module Loop.

Import Classifier.

(** What a call of the callback finds: [videoRef.current] or
    [handLandmarkerRef.current] not set, or the video at its [currentTime]
    with the answer [detectForVideo] has for the frame it shows. *)
Inductive Tick : Type :=
| NotReady
| Video (currentTime : R) (results : Results).

(** [handsStateRef.current], [lastVideoTimeRef.current] and the pair last
    passed to [onHandUpdate], which App keeps in [handDataRef.current]. *)
Record State : Type := mkState {
  handsState : HandsState;
  lastVideoTime : R;
  handData : HandData
}.

Definition initial : State := mkState initialHands (-1) initialData.

(** The callback [detect] with its guards: the detector, the slot loop and
    [onHandUpdate] run only when both refs are set and [video.currentTime]
    differs from [lastVideoTimeRef.current]; otherwise the call only
    requests the next animation frame. *)
Definition detect (t : Tick) (s : State) : option State :=
  match t with
  | NotReady => Some s
  | Video currentTime results =>
      if Req_dec_T currentTime (lastVideoTime s) then Some s
      else
        so <- Classifier.detect results (handsState s) ;;
        Some (mkState (fst so) currentTime (snd so))
  end.

(** Consecutive calls of the callback, oldest first. *)
Fixpoint run (ticks : list Tick) (s : State) : option State :=
  match ticks with
  | [] => Some s
  | t :: ticks' =>
      s' <- detect t s ;;
      run ticks' s'
  end.

End Loop.

Section AnimationTicks.

Import Classifier.

(** The detector's answer the tick passes to the slot loop: none before the
    refs are set and none while the video still shows the frame of time
    [last]. *)
Definition newFrame (t : Loop.Tick) (last : R) : option Results :=
  match t with
  | Loop.NotReady => None
  | Loop.Video time results =>
      if Req_dec_T time last then None else Some results
  end.

(** The answers the slot loop gets over the ticks, [last] being the time of
    the video frame seen before them. *)
Fixpoint processed (ticks : list Loop.Tick) (last : R) : list Results :=
  match ticks with
  | [] => []
  | Loop.NotReady :: ticks' => processed ticks' last
  | Loop.Video time results :: ticks' =>
      if Req_dec_T time last then processed ticks' last
      else results :: processed ticks' time
  end.

(** The time of the last video frame seen after the ticks. *)
Fixpoint lastSeen (ticks : list Loop.Tick) (last : R) : R :=
  match ticks with
  | [] => last
  | Loop.NotReady :: ticks' => lastSeen ticks' last
  | Loop.Video time _ :: ticks' => lastSeen ticks' time
  end.

(** The number of ticks that show a new video frame. *)
Definition newFrames (ticks : list Loop.Tick) (last : R) : nat :=
  List.length (processed ticks last).

(** The detector has no hand for slot [i] in the frame of the tick. *)
Definition handless (i : nat) (t : Loop.Tick) : Prop :=
  match t with
  | Loop.NotReady => True
  | Loop.Video _ results => (foundHandsCount results <= i)%nat
  end.

(** The frame of the tick has its 21 landmarks and a label for each hand
    the detector found. *)
Definition completeTick (t : Loop.Tick) : Prop :=
  match t with
  | Loop.NotReady => True
  | Loop.Video _ results => complete results
  end.

End AnimationTicks.

(** * Properties *)

(** ** Order and vector facts *)

Lemma Rltb_true (x y : R) : Rltb x y = true <-> x < y.
Proof. unfold Rltb. destruct (Rlt_dec x y); split; intros; try easy. Qed.

Lemma Rltb_false (x y : R) : Rltb x y = false <-> y <= x.
Proof.
  unfold Rltb. destruct (Rlt_dec x y); split; intros; try easy; lra.
Qed.

Lemma clamp_bounds (x lo hi : R) : lo <= hi -> lo <= clamp x lo hi <= hi.
Proof.
  intros H. unfold clamp, Rmax, Rmin.
  destruct (Rle_dec hi x); destruct (Rle_dec lo _); lra.
Qed.

Lemma lengthSq_nonneg (v : Vec2) : 0 <= lengthSq v.
Proof. unfold lengthSq. nra. Qed.

Lemma vlength_nonneg (v : Vec2) : 0 <= vlength v.
Proof. apply sqrt_pos. Qed.

Lemma hypot_nonneg (p q : R) : 0 <= hypot p q.
Proof. apply sqrt_pos. Qed.

Lemma nth_error_nth_in {A : Type} (l : list A) (i : nat) (d : A) :
  (i < List.length l)%nat -> nth_error l i = Some (nth i l d).
Proof. intros H. now apply nth_error_nth'. Qed.

(** ** Gesture resolution *)

Lemma countExtended_filter (lm : list Classifier.Landmark)
    (fs : list (nat * nat)) (count : nat) :
  Forall (fun f => (fst f < List.length lm)%nat /\ (snd f < List.length lm)%nat)
    fs ->
  Classifier.countExtended lm (point lm 0) fs count
  = Some (count + List.length
            (filter (fun f => if extended_dec lm f then true else false) fs))%nat.
Proof.
  intros Hin. revert count.
  induction Hin as [| [t p] fs [Ht Hp] _ IH]; intros count; simpl.
  - f_equal. lia.
  - rewrite (nth_error_nth_in lm t (Classifier.mkLandmark 0 0 0) Ht).
    rewrite (nth_error_nth_in lm p (Classifier.mkLandmark 0 0 0) Hp).
    simpl. rewrite IH.
    unfold Rgtb, Rltb, hypot.
    destruct (extended_dec lm (t, p)) as [He | He];
      unfold extended, planar, point in He; simpl in He;
      destruct (Rlt_dec _ _) as [Hc | Hc]; simpl; try (f_equal; lia);
      exfalso; unfold Rgt in He; contradiction.
Qed.

Lemma fingers_in_range (lm : list Classifier.Landmark) :
  (21 <= List.length lm)%nat ->
  Forall (fun f => (fst f < List.length lm)%nat /\ (snd f < List.length lm)%nat)
    Classifier.fingersIndices.
Proof.
  intros H. unfold Classifier.fingersIndices.
  repeat constructor; simpl; lia.
Qed.









(** ** Slots without a hand *)

Lemma slotStep_lost (results : Classifier.Results) (i : nat)
    (state : Classifier.SlotState) :
  (Classifier.foundHandsCount results <= i)%nat ->
  Classifier.slotStep results i state = Some (Classifier.lostHand state).
Proof.
  intros Hi. unfold Classifier.slotStep.
  replace (i <? Classifier.foundHandsCount results)%nat with false
    by (symmetry; apply Nat.ltb_ge; exact Hi).
  reflexivity.
Qed.

Lemma lostHand_fields (state : Classifier.SlotState) :
  fst (Classifier.lostHand state)
  = Classifier.mkSlotState NONE (Classifier.smoothedPos state)
      (Classifier.smoothedZ state + 0.1 * (0 - Classifier.smoothedZ state))
      (Classifier.mkIndexTip
         (Classifier.tip_x (Classifier.indexTipState state))
         (Classifier.tip_y (Classifier.indexTipState state)) 0 0)
  /\ snd (Classifier.lostHand state)
     = Classifier.exportSlot (fst (Classifier.lostHand state)).
Proof.
  unfold Classifier.lostHand, Classifier.exportSlot, Classifier.lerp; simpl.
  split; [f_equal; lra | reflexivity].
Qed.

(** ** The drag state machine *)

Lemma GestureType_eqb_eq (g h : GestureType) :
  GestureType_eqb g h = true <-> g = h.
Proof. destruct g, h; simpl; split; congruence. Qed.

Lemma GestureType_eqb_neq (g h : GestureType) :
  GestureType_eqb g h = false <-> g <> h.
Proof. destruct g, h; simpl; split; congruence. Qed.

(** C10: after [update], [isDragging] holds exactly when the gesture of the
    call was PINCH.  A PINCH call entered while dragging keeps the anchor and
    sets the stretch to the y-flipped target minus that anchor; a PINCH call
    entered while not dragging (and so one that follows a call with another
    gesture) moves the anchor to the target and zeroes stretch and
    velocity. *)
Theorem drag_state (this : Physics.HandPhysics) (handPos : Vec2)
    (gesture : GestureType) (params : Physics.FluidParams) (dt : R) :
  let target := mkVec2 (vx handPos) (1 - vy handPos) in
  let next := Physics.update this handPos gesture params dt in
  (Physics.isDragging next = true <-> gesture = PINCH)
  /\ (gesture = PINCH -> Physics.isDragging this = true ->
      Physics.anchorPoint next = Physics.anchorPoint this
      /\ Physics.currentStretch next = vsub target (Physics.anchorPoint this))
  /\ (gesture = PINCH -> Physics.isDragging this = false ->
      Physics.anchorPoint next = target
      /\ Physics.currentStretch next = mkVec2 0 0
      /\ Physics.velocity next = mkVec2 0 0)
  /\ (forall (prevPos : Vec2) (prev : GestureType) (dt0 : R),
        prev <> PINCH ->
        let first :=
          Physics.update (Physics.update this prevPos prev params dt0)
            handPos PINCH params dt in
        Physics.anchorPoint first = target
        /\ Physics.currentStretch first = mkVec2 0 0
        /\ Physics.velocity first = mkVec2 0 0
        /\ Physics.isDragging first = true).
Proof.
  intros target next.
  assert (Hflip : mkVec2 (vx handPos) (1.0 - vy handPos) = target).
  { unfold target. f_equal. lra. }
  assert (Hidle : forall p pos g d,
             g <> PINCH ->
             Physics.isDragging (Physics.update p pos g params d) = false).
  { intros p pos g d Hg. unfold Physics.update.
    apply GestureType_eqb_neq in Hg. rewrite Hg.
    destruct (_ && _)%bool; reflexivity. }
  split; [| split; [| split]].
  - split.
    + intros Hd. destruct (GestureType_eqb gesture PINCH) eqn:E.
      * now apply GestureType_eqb_eq.
      * apply GestureType_eqb_neq in E.
        unfold next in Hd. rewrite (Hidle _ _ _ _ E) in Hd. discriminate.
    + intros ->. unfold next, Physics.update. simpl.
      destruct (Physics.isDragging this); reflexivity.
  - intros -> Hd. unfold next, Physics.update. rewrite Hd. simpl.
    rewrite Hflip. split; reflexivity.
  - intros -> Hd. unfold next, Physics.update. rewrite Hd. simpl.
    repeat split; try reflexivity; exact Hflip.
  - intros prevPos prev dt0 Hprev first.
    assert (E : first = Physics.mkHandPhysics target (mkVec2 0 0) (mkVec2 0 0)
                          true).
    { unfold first.
      generalize (Hidle this prevPos prev dt0 Hprev).
      generalize (Physics.update this prevPos prev params dt0).
      intros p Hp. unfold Physics.update. rewrite Hp. simpl.
      rewrite Hflip. reflexivity. }
    rewrite E. repeat split.
Qed.

(** ** The idle spring step *)

Lemma update_idle (this : Physics.HandPhysics) (handPos : Vec2)
    (gesture : GestureType) (params : Physics.FluidParams) (dt : R) :
  gesture <> PINCH ->
  Physics.update this handPos gesture params dt
  = if Rltb (lengthSq (eulerStretch2 params dt this)) 0.00001
       && Rltb (lengthSq (eulerVelocity2 params dt this)) 0.0001
    then Physics.mkHandPhysics (Physics.anchorPoint this) (mkVec2 0 0)
           (mkVec2 0 0) false
    else Physics.mkHandPhysics (Physics.anchorPoint this)
           (eulerStretch2 params dt this) (eulerVelocity2 params dt this)
           false.
Proof.
  intros Hg. apply GestureType_eqb_neq in Hg.
  unfold Physics.update. rewrite Hg.
  assert (Ev : vadd (Physics.velocity this)
                 (vscale
                    (vadd (vscale (Physics.currentStretch this) (- (10.0)))
                       (vscale (Physics.velocity this)
                          (- (5.0 * (1.05 - Physics.reboundElasticity params)))))
                    dt)
               = eulerVelocity2 params dt this).
  { unfold eulerVelocity2, eulerVelocity, acceleration, damping, vadd, vscale.
    simpl. f_equal; lra. }
  rewrite Ev.
  assert (Es : vadd (Physics.currentStretch this)
                 (vscale (eulerVelocity2 params dt this) dt)
               = eulerStretch2 params dt this) by reflexivity.
  rewrite Es. reflexivity.
Qed.

Lemma atRest_test (s v : Vec2) :
  (Rltb (lengthSq s) 0.00001 && Rltb (lengthSq v) 0.0001)%bool = true
  <-> atRest s v.
Proof. unfold atRest. now rewrite andb_true_iff, !Rltb_true. Qed.

(** C4: a call of [update] with a gesture other than PINCH makes one
    semi-implicit Euler step of the damped spring, with acceleration
    (-10)*stretch + (-damping)*velocity and damping 5*(1.05 - elasticity):
    the velocity is advanced first and the stretch then moves by the new
    velocity; both are zeroed when under the thresholds.  The frame callback
    passes min(delta, 0.1) as the step, which is at most 0.1. *)
Theorem idle_euler_step (this : Physics.HandPhysics) (handPos : Vec2)
    (gesture : GestureType) (params : Physics.FluidParams) (dt : R) :
  gesture <> PINCH ->
  let next := Physics.update this handPos gesture params dt in
  let velocity' := eulerVelocity2 params dt this in
  let stretch' := eulerStretch2 params dt this in
  Physics.anchorPoint next = Physics.anchorPoint this
  /\ Physics.isDragging next = false
  /\ (~ atRest stretch' velocity' ->
      Physics.velocity next = velocity'
      /\ Physics.currentStretch next = stretch')
  /\ (atRest stretch' velocity' ->
      Physics.velocity next = mkVec2 0 0
      /\ Physics.currentStretch next = mkVec2 0 0)
  /\ (forall (physics : Physics.HandPhysics) (hand : Classifier.HandPoint)
        (f : Scene.Frame),
        Scene.handStep physics hand f
        = Physics.update physics
            (mkVec2 (Classifier.hp_x hand) (Classifier.hp_y hand))
            (Classifier.hp_gesture hand) (Scene.params f)
            (Rmin (Scene.delta f) 0.1)
        /\ Rmin (Scene.delta f) 0.1 <= 0.1).
Proof.
  intros Hg next velocity' stretch'.
  unfold next. rewrite (update_idle this handPos gesture params dt Hg).
  fold velocity' stretch'.
  pose proof (atRest_test stretch' velocity') as Hrest.
  assert (Hscene : forall (physics : Physics.HandPhysics)
             (hand : Classifier.HandPoint) (f : Scene.Frame),
             Scene.handStep physics hand f
             = Physics.update physics
                 (mkVec2 (Classifier.hp_x hand) (Classifier.hp_y hand))
                 (Classifier.hp_gesture hand) (Scene.params f)
                 (Rmin (Scene.delta f) 0.1)
             /\ Rmin (Scene.delta f) 0.1 <= 0.1).
  { intros physics hand f. split; [reflexivity | apply Rmin_r]. }
  destruct (_ && _)%bool; simpl.
  - split; [reflexivity | split; [reflexivity | split; [| split]]].
    + intros Hn. exfalso. apply Hn, Hrest. reflexivity.
    + intros _. split; reflexivity.
    + exact Hscene.
  - split; [reflexivity | split; [reflexivity | split; [| split]]].
    + intros _. split; reflexivity.
    + intros Hr. apply Hrest in Hr. discriminate.
    + exact Hscene.
Qed.

Lemma idle_euler_step_witness :
  let this := Physics.initial in
  let params := Physics.DEFAULT_PARAMS in
  let dt := 0.016 in
  let next := Physics.update this (mkVec2 0.5 0.5) PALM params dt in
  let velocity' := eulerVelocity2 params dt this in
  let stretch' := eulerStretch2 params dt this in
  PALM <> PINCH
  /\ Physics.anchorPoint next = Physics.anchorPoint this
  /\ Physics.isDragging next = false
  /\ (~ atRest stretch' velocity' ->
      Physics.velocity next = velocity'
      /\ Physics.currentStretch next = stretch')
  /\ (atRest stretch' velocity' ->
      Physics.velocity next = mkVec2 0 0
      /\ Physics.currentStretch next = mkVec2 0 0)
  /\ (forall (physics : Physics.HandPhysics) (hand : Classifier.HandPoint)
        (f : Scene.Frame),
        Scene.handStep physics hand f
        = Physics.update physics
            (mkVec2 (Classifier.hp_x hand) (Classifier.hp_y hand))
            (Classifier.hp_gesture hand) (Scene.params f)
            (Rmin (Scene.delta f) 0.1)
        /\ Rmin (Scene.delta f) 0.1 <= 0.1).
Proof.
  split; [discriminate |].
  apply (idle_euler_step Physics.initial (mkVec2 0.5 0.5) PALM
           Physics.DEFAULT_PARAMS 0.016).
  discriminate.
Defined.

(** ** Frames with all their landmarks *)

Lemma trackHand_complete (state : Classifier.SlotState)
    (lm : list Classifier.Landmark) (handed : string) :
  (21 <= List.length lm)%nat ->
  Classifier.trackHand state lm handed
  = Some (tracked state lm handed,
          Classifier.exportSlot (tracked state lm handed)).
Proof.
  intros Hlen. unfold Classifier.trackHand.
  rewrite (nth_error_nth_in lm 0 (Classifier.mkLandmark 0 0 0)) by lia.
  rewrite (nth_error_nth_in lm 4 (Classifier.mkLandmark 0 0 0)) by lia.
  rewrite (nth_error_nth_in lm 8 (Classifier.mkLandmark 0 0 0)) by lia.
  rewrite (nth_error_nth_in lm 9 (Classifier.mkLandmark 0 0 0)) by lia.
  rewrite (nth_error_nth_in lm 5 (Classifier.mkLandmark 0 0 0)) by lia.
  rewrite (nth_error_nth_in lm 17 (Classifier.mkLandmark 0 0 0)) by lia.
  cbn [bind].
  fold (point lm 0) (point lm 4) (point lm 8) (point lm 9) (point lm 5)
    (point lm 17).
  rewrite (countExtended_filter lm _ 0 (fingers_in_range lm Hlen)).
  cbn [bind]. fold (extendedFingers lm).
  unfold Classifier.PINCH_THRESHOLD, Classifier.PALM_OPEN_FINGER_COUNT,
    Classifier.SMOOTHING_FACTOR, Classifier.VELOCITY_SMOOTHING, hypot.
  fold (planar (point lm 4) (point lm 8)). fold (crossZ lm).
  rewrite Nat.add_0_l.
  replace (sqrt ((Classifier.x (point lm 0) - Classifier.x (point lm 9)) ^ 2
                 + (Classifier.y (point lm 0) - Classifier.y (point lm 9)) ^ 2))
    with (planar (point lm 0) (point lm 9))
    by (unfold planar; f_equal; ring).
  unfold tracked, resolve, clamp.
  destruct (Rltb (planar (point lm 4) (point lm 8)) 0.05);
    [| destruct (_ && _)%bool ]; reflexivity.
Qed.

Lemma slotStep_complete (results : Classifier.Results) (i : nat)
    (state : Classifier.SlotState) :
  completeSlot results i ->
  exists state',
    Classifier.slotStep results i state
    = Some (state', Classifier.exportSlot state')
    /\ ((Classifier.foundHandsCount results <= i)%nat ->
        state' = fst (Classifier.lostHand state))
    /\ (forall all lm handed others,
          Classifier.landmarks results = Some all ->
          nth_error all i = Some lm ->
          nth_error (Classifier.handedness results) i
          = Some (handed :: others) ->
          state' = tracked state lm handed).
Proof.
  intros Hc. unfold Classifier.slotStep.
  destruct (i <? Classifier.foundHandsCount results)%nat eqn:Hi.
  - apply Nat.ltb_lt in Hi.
    destruct (Hc Hi) as (all & lm & handed & others & Hall & Hlm & Hlen & Hh).
    exists (tracked state lm handed).
    rewrite Hall. cbn [bind]. rewrite Hlm. cbn [bind]. rewrite Hh.
    cbn [bind nth_error]. rewrite (trackHand_complete state lm handed Hlen).
    split; [reflexivity | split].
    + intros Hle. lia.
    + intros all' lm' handed' others' Hall' Hlm' Hh'.
      congruence.
  - apply Nat.ltb_ge in Hi.
    exists (fst (Classifier.lostHand state)).
    split; [reflexivity | split].
    + intros _. reflexivity.
    + intros all lm handed others Hall Hlm _. exfalso.
      unfold Classifier.foundHandsCount in Hi. rewrite Hall in Hi.
      assert (i < List.length all)%nat
        by (apply nth_error_Some; congruence).
      lia.
Qed.

Lemma lerp_between (lo hi p q t : R) :
  lo <= p <= hi -> lo <= q <= hi -> 0 <= t <= 1 ->
  lo <= Classifier.lerp p q t <= hi.
Proof. intros Hp Hq Ht. unfold Classifier.lerp. nra. Qed.

Lemma point_in (lm : list Classifier.Landmark) (i : nat) :
  (21 <= List.length lm)%nat -> (i < 21)%nat -> In (point lm i) lm.
Proof. intros Hlen Hi. unfold point. apply nth_In. lia. Qed.

Lemma tracked_proximity (state : Classifier.SlotState)
    (lm : list Classifier.Landmark) (handed : string) :
  0 <= Classifier.smoothedZ state <= 1 ->
  0 <= Classifier.smoothedZ (tracked state lm handed) <= 1.
Proof.
  intros Hz. unfold tracked. cbn [Classifier.smoothedZ].
  apply lerp_between; [exact Hz | apply clamp_bounds; lra | lra].
Qed.

Lemma lostHand_proximity (state : Classifier.SlotState) :
  0 <= Classifier.smoothedZ state <= 1 ->
  0 <= Classifier.smoothedZ (fst (Classifier.lostHand state)) <= 1.
Proof.
  intros Hz. unfold Classifier.lostHand. cbn [fst Classifier.smoothedZ].
  apply lerp_between; lra.
Qed.

Lemma tracked_position (state : Classifier.SlotState)
    (lm : list Classifier.Landmark) (handed : string) :
  (21 <= List.length lm)%nat ->
  (forall p, In p lm ->
     0 <= Classifier.x p <= 1 /\ 0 <= Classifier.y p <= 1) ->
  unitPos state -> unitPos (tracked state lm handed).
Proof.
  intros Hlen Hin [Hx Hy].
  destruct (Hin _ (point_in lm 4 Hlen ltac:(lia))) as [H4x H4y].
  destruct (Hin _ (point_in lm 8 Hlen ltac:(lia))) as [H8x H8y].
  destruct (Hin _ (point_in lm 9 Hlen ltac:(lia))) as [H9x H9y].
  unfold unitPos, tracked. cbn [Classifier.smoothedPos vx vy].
  split; apply lerp_between; try assumption; try lra;
    destruct (Rltb _ _); lra.
Qed.

Lemma slotStep_ranges (results : Classifier.Results) (i : nat)
    (state : Classifier.SlotState) :
  completeSlot results i ->
  0 <= Classifier.smoothedZ state <= 1 ->
  exists state',
    Classifier.slotStep results i state
    = Some (state', Classifier.exportSlot state')
    /\ 0 <= Classifier.smoothedZ state' <= 1
    /\ (inImage results -> unitPos state -> unitPos state').
Proof.
  intros Hc Hz. unfold Classifier.slotStep.
  destruct (i <? Classifier.foundHandsCount results)%nat eqn:Hi.
  - apply Nat.ltb_lt in Hi.
    destruct (Hc Hi) as (all & lm & handed & others & Hall & Hlm & Hlen & Hh).
    exists (tracked state lm handed).
    rewrite Hall. cbn [bind]. rewrite Hlm. cbn [bind]. rewrite Hh.
    cbn [bind nth_error]. rewrite (trackHand_complete state lm handed Hlen).
    split; [reflexivity | split].
    + now apply tracked_proximity.
    + intros Him Hpos. apply tracked_position; try assumption.
      intros p Hp. apply (Him all lm p Hall); [| exact Hp].
      eapply nth_error_In. exact Hlm.
  - exists (fst (Classifier.lostHand state)).
    split; [reflexivity | split].
    + now apply lostHand_proximity.
    + intros _ Hpos. exact Hpos.
Qed.

Lemma detect_ranges (results : Classifier.Results)
    (st : Classifier.HandsState) :
  complete results ->
  0 <= Classifier.smoothedZ (fst st) <= 1 ->
  0 <= Classifier.smoothedZ (snd st) <= 1 ->
  exists st',
    Classifier.detect results st
    = Some (st', (Classifier.exportSlot (fst st'),
                  Classifier.exportSlot (snd st')))
    /\ 0 <= Classifier.smoothedZ (fst st') <= 1
    /\ 0 <= Classifier.smoothedZ (snd st') <= 1
    /\ (inImage results -> unitPos (fst st) -> unitPos (snd st) ->
        unitPos (fst st') /\ unitPos (snd st')).
Proof.
  intros [Hc0 Hc1] Hz0 Hz1.
  destruct (slotStep_ranges results 0 (fst st) Hc0 Hz0)
    as (s0 & E0 & Hz0' & Hp0).
  destruct (slotStep_ranges results 1 (snd st) Hc1 Hz1)
    as (s1 & E1 & Hz1' & Hp1).
  exists (s0, s1). unfold Classifier.detect.
  rewrite E0. cbn [bind]. rewrite E1. cbn [bind fst snd].
  split; [reflexivity |]. split; [exact Hz0' |]. split; [exact Hz1' |].
  intros Him H0 H1. split; [now apply Hp0 | now apply Hp1].
Qed.

Lemma run_ranges (frames : list Classifier.Results) :
  Forall complete frames ->
  forall (st : Classifier.HandsState) (out : Classifier.HandData),
    0 <= Classifier.smoothedZ (fst st) <= 1 ->
    0 <= Classifier.smoothedZ (snd st) <= 1 ->
    0 <= Classifier.hp_z (fst out) <= 1 ->
    0 <= Classifier.hp_z (snd out) <= 1 ->
    exists st' out',
      Classifier.run frames st out = Some (st', out')
      /\ (0 <= Classifier.hp_z (fst out') <= 1
          /\ 0 <= Classifier.hp_z (snd out') <= 1)
      /\ (Forall inImage frames ->
          unitPos (fst st) -> unitPos (snd st) ->
          unitPoint (fst out) -> unitPoint (snd out) ->
          unitPoint (fst out') /\ unitPoint (snd out')).
Proof.
  induction 1 as [| r frames Hr _ IH]; intros st out Hz0 Hz1 Ho0 Ho1.
  - exists st, out. simpl. split; [reflexivity |]. split; [tauto |].
    intros _ _ _ H0 H1. tauto.
  - destruct (detect_ranges r st Hr Hz0 Hz1) as (st1 & E & Hz0' & Hz1' & Hp).
    destruct (IH st1 (Classifier.exportSlot (fst st1),
                      Classifier.exportSlot (snd st1)) Hz0' Hz1' Hz0' Hz1')
      as (st' & out' & Erun & Hz & Hxy).
    exists st', out'. simpl. rewrite E. cbn [bind fst snd].
    split; [exact Erun |]. split; [exact Hz |].
    intros Him H0 H1 _ _.
    apply Forall_cons_iff in Him. destruct Him as [Him1 Him].
    destruct (Hp Him1 H0 H1) as [H0' H1'].
    apply Hxy; assumption.
Qed.

(** C8, amended: over any session of frames that carry all their landmarks,
    both exported points have z in [0,1] after every tick; their x and y are
    in [0,1] when the landmarks of every frame lie in the unit square.  The
    proximity target is clamped, the position targets are not. *)
Theorem exported_ranges (frames : list Classifier.Results) :
  Forall complete frames ->
  exists st out,
    Classifier.run frames Classifier.initialHands Classifier.initialData
    = Some (st, out)
    /\ (0 <= Classifier.hp_z (fst out) <= 1
        /\ 0 <= Classifier.hp_z (snd out) <= 1)
    /\ (Forall inImage frames ->
        unitPoint (fst out) /\ unitPoint (snd out)).
Proof.
  intros Hc.
  assert (Hz : 0 <= 0 <= 1) by lra.
  assert (Hu : unitPos Classifier.initialSlot)
    by (unfold unitPos; simpl; lra).
  assert (Hp : unitPoint (fst Classifier.initialData))
    by (unfold unitPoint; simpl; lra).
  destruct (run_ranges frames Hc Classifier.initialHands
              Classifier.initialData Hz Hz Hz Hz)
    as (st & out & E & Hzs & Hxy).
  exists st, out. split; [exact E |]. split; [exact Hzs |].
  intros Him. apply Hxy; assumption.
Qed.

Lemma complete_oneHand : complete Samples.oneHand.
Proof.
  split; intros Hi.
  - exists [Samples.closedHand], Samples.closedHand, "Right"%string, [].
    repeat split; simpl; lia.
  - unfold Classifier.foundHandsCount in Hi. simpl in Hi. lia.
Qed.

Lemma complete_noHands : complete Samples.noHands.
Proof.
  split; intros Hi; unfold Classifier.foundHandsCount in Hi; simpl in Hi; lia.
Qed.

Lemma exported_ranges_witness :
  exists st out,
    Classifier.run [Samples.oneHand; Samples.noHands]
      Classifier.initialHands Classifier.initialData
    = Some (st, out)
    /\ (0 <= Classifier.hp_z (fst out) <= 1
        /\ 0 <= Classifier.hp_z (snd out) <= 1)
    /\ (Forall inImage [Samples.oneHand; Samples.noHands] ->
        unitPoint (fst out) /\ unitPoint (snd out)).
Proof.
  apply (exported_ranges [Samples.oneHand; Samples.noHands]).
  repeat constructor;
    first [ apply complete_oneHand | apply complete_noHands ].
Defined.

(** C8 as stated fails: one frame whose landmarks lie right of the image
    (x = 3) is exported with x above 1. *)
Lemma far_hand_leaves_unit_square :
  exists st out,
    Classifier.run [Samples.oneFarHand] Classifier.initialHands
      Classifier.initialData
    = Some (st, out)
    /\ ~ (0 <= Classifier.hp_x (fst out) <= 1).
Proof.
  unfold Classifier.run, Classifier.detect, Classifier.slotStep.
  unfold Classifier.foundHandsCount. simpl Nat.ltb. cbn [bind fst snd].
  cbn [Samples.oneFarHand Classifier.landmarks Classifier.handedness
       nth_error bind].
  rewrite trackHand_complete by (simpl; lia).
  cbn [bind fst snd Classifier.lostHand].
  eexists; eexists. split; [reflexivity |].
  cbn [fst snd]. unfold Classifier.exportSlot, tracked.
  cbn [Classifier.hp_x Classifier.smoothedPos vx Classifier.initialSlot].
  unfold Classifier.lerp, point, Samples.farHand. simpl nth.
  cbn [Classifier.x].
  unfold Classifier.initialHands, Classifier.initialSlot.
  cbn [fst Classifier.smoothedPos vx].
  destruct (Rltb _ _); lra.
Qed.

(** ** Errors and undefined values *)

Lemma detect_complete (results : Classifier.Results)
    (st : Classifier.HandsState) :
  complete results ->
  exists st' out, Classifier.detect results st = Some (st', out).
Proof.
  intros [Hc0 Hc1].
  destruct (slotStep_complete results 0 (fst st) Hc0) as (s0 & E0 & _).
  destruct (slotStep_complete results 1 (snd st) Hc1) as (s1 & E1 & _).
  unfold Classifier.detect. rewrite E0. cbn [bind]. rewrite E1. cbn [bind].
  eexists; eexists; reflexivity.
Qed.

Lemma normalize_moving (vel : Vec2) :
  Rgtb (vlength vel) 0.02 = true ->
  Smear.normalize vel = Some (vscale vel (/ vlength vel)).
Proof.
  intros H. apply Rltb_true in H. unfold Smear.normalize.
  destruct (Req_dec_T (vlength vel) 0) as [E | E]; [lra | reflexivity].
Qed.

Lemma brushHand_defined (u : Smear.Uniforms) (vUv pos vel : Vec2)
    (acc : Smear.Brush) :
  (exists v, Smear.totalVel acc = Some v) ->
  exists v, Smear.totalVel (Smear.brushHand u vUv pos vel acc) = Some v.
Proof.
  intros [v Hv]. unfold Smear.brushHand.
  destruct (Rgtb (vlength vel) 0.02) eqn:Hmag; [| eauto].
  destruct (Rgtb _ 0.0); [| eauto].
  cbn [Smear.totalVel]. rewrite Hv, (normalize_moving vel Hmag).
  cbn [bind]. eauto.
Qed.

Lemma countExtended_throws (lm : list Classifier.Landmark)
    (wrist : Classifier.Landmark) (fs : list (nat * nat)) (count : nat) :
  Exists (fun f => nth_error lm (fst f) = None) fs ->
  Classifier.countExtended lm wrist fs count = None.
Proof.
  intros Hex. revert count.
  induction Hex as [[t p] fs Ht | [t p] fs _ IH]; intros count; simpl.
  - simpl in Ht. rewrite Ht. reflexivity.
  - destruct (nth_error lm t); [| reflexivity].
    destruct (nth_error lm p); [| reflexivity].
    cbn [bind]. apply IH.
Qed.

Lemma trackHand_throws (state : Classifier.SlotState)
    (lm : list Classifier.Landmark) (handed : string) :
  (List.length lm < 21)%nat ->
  Classifier.trackHand state lm handed = None.
Proof.
  intros Hlen. unfold Classifier.trackHand.
  destruct (nth_error lm 0); [| reflexivity].
  destruct (nth_error lm 4); [| reflexivity].
  destruct (nth_error lm 8); [| reflexivity].
  destruct (nth_error lm 9); [| reflexivity].
  destruct (nth_error lm 5); [| reflexivity].
  destruct (nth_error lm 17); [| reflexivity].
  cbn [bind]. rewrite countExtended_throws; [reflexivity |].
  unfold Classifier.fingersIndices.
  do 4 apply Exists_cons_tl. apply Exists_cons_hd.
  apply nth_error_None. simpl. lia.
Qed.

(** C7, amended: on a frame whose occupied slots carry their 21 landmarks
    and a handedness label the classifier does not throw, while a landmark
    list with fewer than 21 points makes it throw; and in the field update
    the normalization of a hand's velocity is reached only past the
    magnitude test, so the accumulated stroke vector is defined for all
    fingertip positions and velocities. *)
Theorem no_error_on_complete_frames (results : Classifier.Results)
    (st : Classifier.HandsState) :
  complete results ->
  (exists st' out, Classifier.detect results st = Some (st', out))
  /\ (forall (state : Classifier.SlotState) (lm : list Classifier.Landmark)
         (handed : string),
        (List.length lm < 21)%nat ->
        Classifier.trackHand state lm handed = None)
  /\ (forall (u : Smear.Uniforms) (vUv : Vec2),
        exists v, Smear.totalVel (Smear.brushes u vUv) = Some v).
Proof.
  intros Hc. split; [now apply detect_complete |].
  split; [exact trackHand_throws |].
  intros u vUv. unfold Smear.brushes.
  apply brushHand_defined, brushHand_defined.
  cbn [Smear.totalVel]. eauto.
Qed.

Lemma no_error_on_complete_frames_witness :
  (exists st' out,
     Classifier.detect Samples.oneHand Classifier.initialHands
     = Some (st', out))
  /\ (forall (state : Classifier.SlotState) (lm : list Classifier.Landmark)
         (handed : string),
        (List.length lm < 21)%nat ->
        Classifier.trackHand state lm handed = None)
  /\ (forall (u : Smear.Uniforms) (vUv : Vec2),
        exists v, Smear.totalVel (Smear.brushes u vUv) = Some v).
Proof.
  apply (no_error_on_complete_frames Samples.oneHand Classifier.initialHands).
  apply complete_oneHand.
Defined.

(** C7 as stated fails: a frame cut short after the wrist makes [detect]
    throw instead of reporting NONE for the slot. *)
Lemma short_frame_throws :
  Classifier.detect Samples.shortHand Classifier.initialHands = None.
Proof. reflexivity. Qed.

Lemma vlength_of (v : Vec2) (r : R) :
  0 <= r -> lengthSq v = r * r -> vlength v = r.
Proof. intros Hr E. unfold vlength. rewrite E. now apply sqrt_square. Qed.

Lemma crossing_brush (vel : Vec2) (acc : Smear.Brush) :
  vlength vel = 1 ->
  Smear.brushHand Samples.crossing (mkVec2 0.5 0.5) (mkVec2 0.5 0.5) vel acc
  = Smear.mkBrush (Smear.totalBrush acc + 1)
      (tv <- Smear.totalVel acc ;; Some (vadd tv (vscale (vscale vel (/ 1)) 1)))
      (Rmax (Smear.maxInputSpeed acc) 1).
Proof.
  intros Hv. unfold Smear.brushHand. rewrite Hv.
  replace (Rgtb 1 0.02) with true by (symmetry; apply Rltb_true; lra).
  assert (Hd : vlength (vsub (mkVec2 0.5 0.5) (mkVec2 0.5 (1.0 - 0.5))) = 0).
  { apply vlength_of; [lra |]. unfold lengthSq, vsub. simpl. lra. }
  cbn [vx vy]. rewrite Hd.
  assert (Hb : Smear.smoothstep (Smear.uRadius Samples.crossing)
                 (Smear.uRadius Samples.crossing * 0.4) 0 = 1).
  { unfold Smear.smoothstep, Samples.crossing. cbn [Smear.uRadius].
    assert (Ht : clamp ((0 - 0.15) / (0.15 * 0.4 - 0.15)) 0 1 = 1).
    { replace ((0 - 0.15) / (0.15 * 0.4 - 0.15)) with (5 / 3) by lra.
      unfold clamp, Rmin, Rmax.
      destruct (Rle_dec 1 (5 / 3)); [| lra].
      destruct (Rle_dec 0 1); lra. }
    rewrite Ht. lra. }
  rewrite Hb.
  replace (Rgtb 1 0.0) with true by (symmetry; apply Rltb_true; lra).
  unfold Smear.normalize. rewrite Hv.
  destruct (Req_dec_T 1 0) as [E | _]; [lra |].
  destruct (Smear.totalVel acc); reflexivity.
Qed.

(** Two strokes of equal weight and opposite direction cancel: the combined
    vector has length 0 when it is normalized, and the direction written to
    the texel is undefined. *)
Lemma opposite_strokes_undefined (c : Smear.Texel) :
  Smear.rg (Smear.smearFragment Samples.crossing (mkVec2 0.5 0.5) c) = None.
Proof.
  unfold Smear.smearFragment, Smear.brushes.
  cbn [Samples.crossing Smear.uIndexPos Smear.uIndexVel fst snd].
  fold Samples.crossing.
  rewrite (crossing_brush (mkVec2 1 0))
    by (apply vlength_of; [lra | unfold lengthSq; simpl; lra]).
  rewrite (crossing_brush (mkVec2 (-1) 0))
    by (apply vlength_of; [lra | unfold lengthSq; simpl; lra]).
  cbn [Smear.totalBrush Smear.totalVel Smear.maxInputSpeed bind].
  replace (Rgtb (0.0 + 1 + 1) 0.0) with true
    by (symmetry; apply Rltb_true; lra).
  cbn [Smear.rg].
  assert (Hn : Smear.normalize
                 (vadd (vadd (mkVec2 0.0 0.0)
                          (vscale (vscale (mkVec2 1 0) (/ 1)) 1))
                    (vscale (vscale (mkVec2 (-1) 0) (/ 1)) 1)) = None).
  { unfold Smear.normalize.
    destruct (Req_dec_T _ 0) as [_ | Hne]; [reflexivity |].
    exfalso. apply Hne. apply vlength_of; [lra |].
    unfold lengthSq, vadd, vscale. simpl. rewrite Rinv_1. lra. }
  rewrite Hn. destruct (Smear.rg c); reflexivity.
Qed.

(** ** The accumulation field *)

Lemma smoothstep_bounds (edge0 edge1 p : R) :
  0 <= Smear.smoothstep edge0 edge1 p <= 1.
Proof.
  unfold Smear.smoothstep.
  pose proof (clamp_bounds ((p - edge0) / (edge1 - edge0)) 0 1 ltac:(lra))
    as Ht.
  set (t := clamp _ 0 1) in *.
  assert (H2 : 0 <= t * t) by nra.
  assert (H3 : 0 <= (1 - t) * (1 - t) * (1 + 2 * t)).
  { apply Rmult_le_pos; nra. }
  split; [apply Rmult_le_pos; lra | nra].
Qed.

Lemma brushHand_nonneg (u : Smear.Uniforms) (vUv pos vel : Vec2)
    (acc : Smear.Brush) :
  0 <= Smear.totalBrush acc -> 0 <= Smear.maxInputSpeed acc ->
  0 <= Smear.totalBrush (Smear.brushHand u vUv pos vel acc)
  /\ 0 <= Smear.maxInputSpeed (Smear.brushHand u vUv pos vel acc).
Proof.
  intros Hb Hs. unfold Smear.brushHand.
  destruct (Rgtb (vlength vel) 0.02); [| tauto].
  destruct (Rgtb _ 0.0) eqn:E; [| tauto].
  cbn [Smear.totalBrush Smear.maxInputSpeed].
  apply Rltb_true in E. split; [lra |].
  pose proof (Rmax_l (Smear.maxInputSpeed acc) (vlength vel)). lra.
Qed.

Lemma brushes_nonneg (u : Smear.Uniforms) (vUv : Vec2) :
  0 <= Smear.totalBrush (Smear.brushes u vUv)
  /\ 0 <= Smear.maxInputSpeed (Smear.brushes u vUv).
Proof.
  unfold Smear.brushes.
  apply brushHand_nonneg; apply brushHand_nonneg; simpl; lra.
Qed.

Lemma decayed_formula (u : Smear.Uniforms) (c : Smear.Texel) :
  (decayFormula (Smear.uDecay u) c < 0.005 -> Smear.decayed u c = 0)
  /\ (0.005 <= decayFormula (Smear.uDecay u) c ->
      Smear.decayed u c = decayFormula (Smear.uDecay u) c).
Proof.
  unfold Smear.decayed, decayFormula.
  replace (1.0 + Smear.b c * 2.0) with (1 + 2 * Smear.b c) by lra.
  replace (1.0 - Smear.uDecay u / (1 + 2 * Smear.b c))
    with (1 - Smear.uDecay u / (1 + 2 * Smear.b c)) by lra.
  destruct (Rltb _ 0.005) eqn:E.
  - apply Rltb_true in E. split; intros H; lra.
  - apply Rltb_false in E. split; intros H; lra.
Qed.

(** The factor of the decay step lies in [0,1]. *)
Lemma decay_factor_bounds (decayRate speed : R) :
  0 <= decayRate <= 1 -> 0 <= speed ->
  0 <= 1 - decayRate / (1 + 2 * speed) <= 1.
Proof.
  intros Hd Hs.
  assert (Hm : 0 < 1 + 2 * speed) by lra.
  assert (H0 : 0 <= decayRate / (1 + 2 * speed)).
  { apply Rmult_le_pos; [lra |]. left. now apply Rinv_0_lt_compat. }
  assert (H1 : decayRate / (1 + 2 * speed) <= 1).
  { apply (Rmult_le_reg_r (1 + 2 * speed)); [exact Hm |].
    unfold Rdiv. rewrite Rmult_assoc, Rinv_l by lra. lra. }
  lra.
Qed.

Lemma decayed_bounds (u : Smear.Uniforms) (c : Smear.Texel) :
  0 <= Smear.uDecay u <= 1 -> 0 <= Smear.b c -> 0 <= Smear.a c ->
  0 <= Smear.decayed u c <= Smear.a c.
Proof.
  intros Hd Hb Ha.
  pose proof (decay_factor_bounds (Smear.uDecay u) (Smear.b c) Hd Hb) as Hf.
  destruct (decayed_formula u c) as [Hlo Hhi].
  unfold decayFormula in *.
  set (k := 1 - Smear.uDecay u / (1 + 2 * Smear.b c)) in *.
  destruct (Rlt_dec (Smear.a c * k) 0.005) as [Hlt | Hge].
  - rewrite (Hlo Hlt). lra.
  - rewrite (Hhi ltac:(lra)). nra.
Qed.

Lemma smearFragment_in_range (u : Smear.Uniforms) (vUv : Vec2)
    (c : Smear.Texel) :
  uniformsInRange u -> texelInRange c ->
  texelInRange (Smear.smearFragment u vUv c).
Proof.
  intros (Hd & _ & Hi) [Hb Ha].
  pose proof (decayed_bounds u c ltac:(lra) ltac:(lra) ltac:(lra)) as Hdec.
  destruct (brushes_nonneg u vUv) as [Htb Hms].
  unfold Smear.smearFragment, texelInRange.
  destruct (Rgtb _ 0.0) eqn:E; cbn [Smear.a Smear.b].
  - apply Rltb_true in E. split.
    + pose proof (clamp_bounds (Smear.maxInputSpeed (Smear.brushes u vUv))
                    0.0 1.0 ltac:(lra)) as Hc.
      set (s := clamp _ 0.0 1.0) in *.
      assert (Hw : 0 <= Rmin 1.0
                         (Smear.totalBrush (Smear.brushes u vUv) * 2.5) <= 1).
      { split; [apply Rmin_glb; lra |].
        eapply Rle_trans; [apply Rmin_l | lra]. }
      set (w := Rmin 1.0 _) in *. unfold Smear.mix. nra.
    + split; [apply Rmin_glb; nra |].
      eapply Rle_trans; [apply Rmin_l | lra].
  - split; [exact Hb | lra].
Qed.

(** ** The frame callback *)

Lemma Target_eqb_refl (t : Scene.Target) : Scene.Target_eqb t t = true.
Proof. destruct t; reflexivity. Qed.

Lemma Target_eqb_neq (s t : Scene.Target) :
  s <> t -> Scene.Target_eqb s t = false.
Proof. destruct s, t; simpl; congruence. Qed.

Lemma useFrame_pingPong (f : Scene.Frame) (s : Scene.SceneState) :
  pingPong s -> pingPong (Scene.useFrame f s).
Proof.
  intros (rd & wr & Hr & Hw & Hne). unfold Scene.useFrame.
  rewrite Hr, Hw. exists wr, rd. cbn [Scene.fboRead Scene.fboWrite].
  repeat split. congruence.
Qed.

Lemma frames_pingPong (fs : list Scene.Frame) (s : Scene.SceneState) :
  pingPong s -> pingPong (Scene.frames fs s).
Proof.
  revert s. induction fs as [| f fs IH]; intros s Hs; simpl.
  - exact Hs.
  - apply IH. now apply useFrame_pingPong.
Qed.

Lemma mounted_pingPong : pingPong Scene.mounted.
Proof.
  exists Scene.TargetA, Scene.TargetB. simpl. repeat split. discriminate.
Qed.

Lemma useFrame_swap (f : Scene.Frame) (s : Scene.SceneState)
    (rd wr : Scene.Target) :
  Scene.fboRead s = Some rd -> Scene.fboWrite s = Some wr -> rd <> wr ->
  let s' := Scene.useFrame f s in
  (forall vUv,
     Scene.textures s' wr vUv
     = Smear.smearFragment (Scene.smearUniforms s') vUv
         (Scene.textures s rd vUv))
  /\ (forall vUv, Scene.textures s' rd vUv = Scene.textures s rd vUv)
  /\ Scene.uLastFrame s' = Some rd
  /\ Scene.fboRead s' = Some wr
  /\ Scene.fboWrite s' = Some rd
  /\ Scene.uSmearTexture s' = Some wr.
Proof.
  intros Hr Hw Hne s'. unfold s', Scene.useFrame. rewrite Hr, Hw.
  cbn [Scene.textures Scene.smearUniforms Scene.uLastFrame Scene.fboRead
       Scene.fboWrite Scene.uSmearTexture].
  unfold Scene.render.
  rewrite (Target_eqb_refl wr), (Target_eqb_neq rd wr Hne).
  repeat split.
Qed.

(** C6: at every tick of a mounted scene the read and the write generation
    are different targets; the update pass computes each texel of the write
    generation from the texel of the read generation and leaves the read
    generation as it was; after the swap the roles are exchanged (and so
    still different), the composite pass samples the generation just
    written, and the next tick decays from it. *)
Theorem ping_pong (fs : list Scene.Frame) (f next : Scene.Frame) :
  let s := Scene.frames fs Scene.mounted in
  let s' := Scene.useFrame f s in
  exists rd wr,
    Scene.fboRead s = Some rd /\ Scene.fboWrite s = Some wr /\ rd <> wr
    /\ Scene.uLastFrame s' = Some rd
    /\ (forall vUv,
          Scene.textures s' wr vUv
          = Smear.smearFragment (Scene.smearUniforms s') vUv
              (Scene.textures s rd vUv))
    /\ (forall vUv, Scene.textures s' rd vUv = Scene.textures s rd vUv)
    /\ Scene.fboRead s' = Some wr /\ Scene.fboWrite s' = Some rd
    /\ Scene.uSmearTexture s' = Some wr
    /\ Scene.uLastFrame (Scene.useFrame next s') = Some wr
    /\ (forall vUv,
          Scene.textures (Scene.useFrame next s') rd vUv
          = Smear.smearFragment
              (Scene.smearUniforms (Scene.useFrame next s')) vUv
              (Scene.textures s' wr vUv)).
Proof.
  intros s s'.
  destruct (frames_pingPong fs Scene.mounted mounted_pingPong)
    as (rd & wr & Hr & Hw & Hne).
  fold s in Hr, Hw.
  destruct (useFrame_swap f s rd wr Hr Hw Hne)
    as (Hwrite & Hkeep & Hlast & Hr' & Hw' & Hsample).
  fold s' in Hwrite, Hkeep, Hlast, Hr', Hw', Hsample.
  destruct (useFrame_swap next s' wr rd Hr' Hw' (not_eq_sym Hne))
    as (Hwrite2 & _ & Hlast2 & _).
  exists rd, wr. repeat split; assumption.
Qed.

Lemma useFrame_fieldInRange (f : Scene.Frame) (s : Scene.SceneState) :
  paramsInRange (Scene.params f) -> fieldInRange s ->
  fieldInRange (Scene.useFrame f s).
Proof.
  intros Hp Hs t vUv. unfold Scene.useFrame.
  destruct (Scene.fboRead s) as [rd |]; [| apply Hs].
  destruct (Scene.fboWrite s) as [wr |]; [| apply Hs].
  cbn [Scene.textures]. unfold Scene.render.
  destruct (Scene.Target_eqb t wr); [| apply Hs].
  apply smearFragment_in_range; [exact Hp | apply Hs].
Qed.

Lemma frames_fieldInRange (fs : list Scene.Frame) (s : Scene.SceneState) :
  Forall (fun f => paramsInRange (Scene.params f)) fs ->
  fieldInRange s -> fieldInRange (Scene.frames fs s).
Proof.
  intros Hfs. revert s.
  induction Hfs as [| f fs Hf _ IH]; intros s Hs; simpl.
  - exact Hs.
  - apply IH. now apply useFrame_fieldInRange.
Qed.

Lemma mounted_fieldInRange : fieldInRange Scene.mounted.
Proof. intros t vUv. unfold texelInRange. simpl. lra. Qed.

(** C1: in a mounted scene, after any sequence of frames (any hand positions
    and velocities) whose parameters are in their documented ranges, every
    texel of either generation has its intensity in [0,1].  On such a texel
    the decay step yields a value between 0 and the previous intensity, the
    factor it multiplies by being in [0,1], and the update with any brush
    input yields an intensity in [0,1], the raised value being capped at
    1. *)
Theorem intensity_in_unit_interval (fs : list Scene.Frame) :
  Forall (fun f => paramsInRange (Scene.params f)) fs ->
  forall (t : Scene.Target) (vUv : Vec2),
    let c := Scene.textures (Scene.frames fs Scene.mounted) t vUv in
    0 <= Smear.a c <= 1
    /\ (forall u : Smear.Uniforms,
          uniformsInRange u ->
          0 <= 1 - Smear.uDecay u / (1 + 2 * Smear.b c) <= 1
          /\ 0 <= Smear.decayed u c <= Smear.a c
          /\ 0 <= Smear.a (Smear.smearFragment u vUv c) <= 1).
Proof.
  intros Hfs t vUv c.
  destruct (frames_fieldInRange fs Scene.mounted Hfs mounted_fieldInRange
              t vUv) as [Hb Ha].
  fold c in Hb, Ha. split; [exact Ha |].
  intros u Hu.
  pose proof (smearFragment_in_range u vUv c Hu (conj Hb Ha)) as [_ Ha'].
  destruct Hu as (Hd & _).
  split; [apply decay_factor_bounds; lra |].
  split; [apply decayed_bounds; lra | exact Ha'].
Qed.

(** ** Decay of a cell that is not brushed *)

Lemma unbrushed_step (u : Smear.Uniforms) (vUv : Vec2) (c : Smear.Texel) :
  ~ brushed u vUv ->
  Smear.smearFragment u vUv c
  = Smear.mkTexel (Smear.rg c) (Smear.b c) (Smear.decayed u c).
Proof.
  intros Hn. unfold Smear.smearFragment.
  replace (Rgtb (Smear.totalBrush (Smear.brushes u vUv)) 0.0) with false;
    [reflexivity |].
  symmetry. apply Rltb_false. unfold brushed in Hn. lra.
Qed.

Section Fading.

Variable d : R.
Hypothesis d_pos : 0 < d.

Lemma fade_range : 0 <= fade d < 1.
Proof.
  unfold fade. split; [apply Rmax_l |].
  apply Rmax_lub_lt; lra.
Qed.

Lemma fade_step (u : Smear.Uniforms) (vUv : Vec2) (c : Smear.Texel) :
  d <= Smear.uDecay u -> ~ brushed u vUv ->
  0 <= Smear.b c <= 1 -> 0 <= Smear.a c ->
  let c' := Smear.smearFragment u vUv c in
  Smear.b c' = Smear.b c
  /\ 0 <= Smear.a c' <= Smear.a c * fade d
  /\ (Smear.a c' = 0 \/ 0.005 <= Smear.a c').
Proof.
  intros Hd Hn Hb Ha c'. unfold c'. rewrite (unbrushed_step u vUv c Hn).
  cbn [Smear.a Smear.b]. split; [reflexivity |].
  pose proof fade_range as Hq.
  assert (Hk : 1 - Smear.uDecay u / (1 + 2 * Smear.b c) <= fade d).
  { eapply Rle_trans; [| apply Rmax_r].
    assert (d / 3 <= Smear.uDecay u / (1 + 2 * Smear.b c)); [| lra].
    apply (Rmult_le_reg_r (1 + 2 * Smear.b c)); [lra |].
    unfold Rdiv at 2. rewrite Rmult_assoc, Rinv_l by lra. nra. }
  destruct (decayed_formula u c) as [Hlo Hhi]. unfold decayFormula in *.
  set (k := 1 - Smear.uDecay u / (1 + 2 * Smear.b c)) in *.
  destruct (Rlt_dec (Smear.a c * k) 0.005) as [Hlt | Hge].
  - rewrite (Hlo Hlt). split; [nra | left; reflexivity].
  - rewrite (Hhi ltac:(lra)). split; [nra | right; lra].
Qed.

Lemma fade_run (us : list Smear.Uniforms) (vUv : Vec2) :
  Forall (fun u => d <= Smear.uDecay u /\ ~ brushed u vUv) us ->
  forall c : Smear.Texel,
    0 <= Smear.b c <= 1 -> 0 <= Smear.a c ->
    (Smear.a c = 0 \/ 0.005 <= Smear.a c) ->
    let c' := Smear.runCell us vUv c in
    0 <= Smear.a c' <= Smear.a c * fade d ^ List.length us
    /\ (Smear.a c' = 0 \/ 0.005 <= Smear.a c').
Proof.
  induction 1 as [| u us [Hd Hn] _ IH]; intros c Hb Ha Hs; simpl.
  - split; [lra | exact Hs].
  - destruct (fade_step u vUv c Hd Hn Hb Ha) as (Eb & Ha' & Hs').
    destruct (IH (Smear.smearFragment u vUv c)
                ltac:(rewrite Eb; exact Hb) (proj1 Ha') Hs')
      as [Hrun Hsn].
    split; [| exact Hsn].
    split; [lra |].
    pose proof fade_range as Hq.
    assert (0 <= fade d ^ List.length us) by (apply pow_le; lra).
    nra.
Qed.

Lemma fade_out :
  exists N : nat,
    forall (us : list Smear.Uniforms) (vUv : Vec2) (c : Smear.Texel),
      texelInRange c ->
      Forall (fun u => d <= Smear.uDecay u /\ ~ brushed u vUv) us ->
      (N <= List.length us)%nat ->
      Smear.a (Smear.runCell us vUv c) = 0.
Proof.
  pose proof fade_range as Hq.
  destruct (pow_lt_1_zero (fade d) ltac:(rewrite Rabs_right; lra) 0.005
              ltac:(lra)) as [N0 HN0].
  exists (S N0). intros us vUv c [Hb Ha] Hus Hlen.
  destruct us as [| u us]; [simpl in Hlen; lia |].
  apply Forall_cons_iff in Hus. destruct Hus as [[Hd Hn] Hus].
  destruct (fade_step u vUv c Hd Hn Hb (proj1 Ha)) as (Eb & Ha' & Hs').
  simpl.
  destruct (fade_run us vUv Hus (Smear.smearFragment u vUv c)
              ltac:(rewrite Eb; exact Hb) (proj1 Ha') Hs')
    as [Hrun [Hz | Hbig]]; [exact Hz | exfalso].
  assert (Hn0 : (List.length us >= N0)%nat) by (simpl in Hlen; lia).
  specialize (HN0 (List.length us) Hn0).
  rewrite Rabs_right in HN0 by (apply Rle_ge, pow_le; lra).
  assert (Smear.a (Smear.smearFragment u vUv c) <= 1) by nra.
  assert (0 <= fade d ^ List.length us) by (apply pow_le; lra).
  nra.
Qed.

End Fading.

(** C5: the decay step computes previous intensity times
    (1 - decayRate / (1 + 2 * previous speed)) and replaces a result under
    0.005 by 0.  For a cell that is not brushed and a positive decay rate the
    speed is kept and the intensity does not increase; and for every positive
    rate there is a number of ticks, the same for all cells in range, after
    which the intensity of a cell not brushed in the meantime is exactly 0. *)
Theorem decay_reaches_zero :
  (forall (u : Smear.Uniforms) (c : Smear.Texel),
     (decayFormula (Smear.uDecay u) c < 0.005 -> Smear.decayed u c = 0)
     /\ (0.005 <= decayFormula (Smear.uDecay u) c ->
         Smear.decayed u c = decayFormula (Smear.uDecay u) c))
  /\ (forall (u : Smear.Uniforms) (vUv : Vec2) (c : Smear.Texel),
        0 < Smear.uDecay u -> texelInRange c -> ~ brushed u vUv ->
        Smear.a (Smear.smearFragment u vUv c) = Smear.decayed u c
        /\ Smear.b (Smear.smearFragment u vUv c) = Smear.b c
        /\ 0 <= Smear.a (Smear.smearFragment u vUv c) <= Smear.a c)
  /\ (forall d : R,
        0 < d ->
        exists N : nat,
          forall (us : list Smear.Uniforms) (vUv : Vec2) (c : Smear.Texel),
            texelInRange c ->
            Forall (fun u => d <= Smear.uDecay u /\ ~ brushed u vUv) us ->
            (N <= List.length us)%nat ->
            Smear.a (Smear.runCell us vUv c) = 0).
Proof.
  split; [exact decayed_formula |]. split; [| exact fade_out].
  intros u vUv c Hd [Hb Ha] Hn.
  destruct (fade_step (Smear.uDecay u) Hd u vUv c (Rle_refl _) Hn Hb
              (proj1 Ha)) as (Eb & Ha' & _).
  rewrite (unbrushed_step u vUv c Hn) in *. cbn [Smear.a Smear.b] in *.
  split; [reflexivity |]. split; [reflexivity |].
  pose proof (fade_range (Smear.uDecay u) Hd). nra.
Qed.

Lemma paramsInRange_default : paramsInRange Physics.DEFAULT_PARAMS.
Proof. unfold paramsInRange. simpl. lra. Qed.

Lemma intensity_in_unit_interval_witness :
  let c :=
    Scene.textures (Scene.frames [Samples.quietFrame] Scene.mounted)
      Scene.TargetB (mkVec2 0.5 0.5) in
  0 <= Smear.a c <= 1
  /\ (forall u : Smear.Uniforms,
        uniformsInRange u ->
        0 <= 1 - Smear.uDecay u / (1 + 2 * Smear.b c) <= 1
        /\ 0 <= Smear.decayed u c <= Smear.a c
        /\ 0 <= Smear.a (Smear.smearFragment u (mkVec2 0.5 0.5) c) <= 1).
Proof.
  apply (intensity_in_unit_interval [Samples.quietFrame]).
  apply Forall_cons; [apply paramsInRange_default | apply Forall_nil].
Defined.

(** ** Release of the spring *)

Lemma update_idle_cases (p : Physics.HandPhysics) (handPos : Vec2)
    (gesture : GestureType) (params : Physics.FluidParams) (h : R) :
  gesture <> PINCH ->
  let q := glide params h p in
  (atRest (Physics.currentStretch q) (Physics.velocity q) ->
   Physics.update p handPos gesture params h = rest p)
  /\ (~ atRest (Physics.currentStretch q) (Physics.velocity q) ->
      Physics.update p handPos gesture params h = q).
Proof.
  intros Hg q. rewrite (update_idle p handPos gesture params h Hg).
  pose proof (atRest_test (eulerStretch2 params h p)
                (eulerVelocity2 params h p)) as Ht.
  unfold q, glide, rest. cbn [Physics.currentStretch Physics.velocity].
  destruct (_ && _)%bool.
  - split; [reflexivity |]. intros Hn. exfalso. apply Hn, Ht. reflexivity.
  - split; [| reflexivity]. intros Hr. apply Ht in Hr. discriminate.
Qed.

Lemma update_rest (p : Physics.HandPhysics) (handPos : Vec2)
    (gesture : GestureType) (params : Physics.FluidParams) (h : R) :
  gesture <> PINCH ->
  Physics.update (rest p) handPos gesture params h = rest p.
Proof.
  intros Hg.
  destruct (update_idle_cases (rest p) handPos gesture params h Hg)
    as [Hr _].
  apply Hr. unfold atRest, glide, eulerStretch2, eulerVelocity2, eulerStretch,
    eulerVelocity, acceleration, lengthSq, rest.
  cbn [Physics.currentStretch Physics.velocity vx vy]. split; lra.
Qed.

Lemma glides_snoc (params : Physics.FluidParams) (dts : list R) (dt : R)
    (p : Physics.HandPhysics) :
  glides params (dts ++ [dt]) p = glide params dt (glides params dts p).
Proof. unfold glides. now rewrite fold_left_app. Qed.

Lemma anchor_glides (params : Physics.FluidParams) (dts : list R)
    (p : Physics.HandPhysics) :
  Physics.anchorPoint (glides params dts p) = Physics.anchorPoint p.
Proof.
  induction dts as [| dt dts IH] using rev_ind; [reflexivity |].
  rewrite glides_snoc. exact IH.
Qed.

Lemma run_snoc (ticks : list (Vec2 * GestureType * R))
    (tick : Vec2 * GestureType * R) (params : Physics.FluidParams)
    (p : Physics.HandPhysics) :
  Physics.run (ticks ++ [tick]) params p
  = Physics.update (Physics.run ticks params p) (fst (fst tick))
      (snd (fst tick)) params (snd tick).
Proof.
  revert p. induction ticks as [| [[pos g] d] ticks IH]; intros p; simpl.
  - destruct tick as [[pos g] d]. reflexivity.
  - apply IH.
Qed.

(** While idle the state is either that of the unzeroed spring or at rest. *)
Lemma run_idle (params : Physics.FluidParams) (lo hi : R)
    (ticks : list (Vec2 * GestureType * R)) (p : Physics.HandPhysics) :
  Forall (idleTick lo hi) ticks ->
  Physics.run ticks params p = glides params (map snd ticks) p
  \/ Physics.run ticks params p = rest p.
Proof.
  induction ticks as [| tick ticks IH] using rev_ind; intros Hall.
  - left. reflexivity.
  - apply Forall_app in Hall. destruct Hall as [Hall Htick].
    apply Forall_inv in Htick. destruct Htick as [Hg _].
    rewrite run_snoc, map_app. cbn [map]. rewrite glides_snoc.
    destruct (IH Hall) as [E | E]; rewrite E.
    + set (r := glides params (map snd ticks) p).
      destruct (update_idle_cases r (fst (fst tick)) (snd (fst tick)) params
                  (snd tick) Hg) as [Hr Hn].
      destruct (Rlt_dec
                  (lengthSq (Physics.currentStretch
                               (glide params (snd tick) r))) 0.00001)
        as [H1 | H1];
        [destruct (Rlt_dec
                     (lengthSq (Physics.velocity
                                  (glide params (snd tick) r))) 0.0001)
           as [H2 | H2] |].
      * right. rewrite (Hr (conj H1 H2)). unfold rest, r.
        rewrite anchor_glides. reflexivity.
      * left. apply Hn. intros [_ H]. contradiction.
      * left. apply Hn. intros [H _]. contradiction.
    + right. now apply update_rest.
Qed.

(** The last of at least one idle ticks zeroes the spring when the unzeroed
    spring lands under the thresholds at that tick. *)
Lemma run_idle_last (params : Physics.FluidParams) (lo hi : R)
    (ticks : list (Vec2 * GestureType * R)) (tick : Vec2 * GestureType * R)
    (p : Physics.HandPhysics) :
  Forall (idleTick lo hi) (ticks ++ [tick]) ->
  (let q := glide params (snd tick) (glides params (map snd ticks) p) in
   atRest (Physics.currentStretch q) (Physics.velocity q)) ->
  Physics.run (ticks ++ [tick]) params p = rest p.
Proof.
  intros Hall Hrest.
  apply Forall_app in Hall. destruct Hall as [Hall Htick].
  apply Forall_inv in Htick. destruct Htick as [Hg _].
  rewrite run_snoc.
  destruct (run_idle params lo hi ticks p Hall) as [E | E]; rewrite E.
  - destruct (update_idle_cases (glides params (map snd ticks) p)
                (fst (fst tick)) (snd (fst tick)) params (snd tick) Hg)
      as [Hr _].
    rewrite (Hr Hrest). unfold rest. rewrite anchor_glides. reflexivity.
  - now apply update_rest.
Qed.

Section ConstantFrameTime.

Variable params : Physics.FluidParams.
Variable h : R.

Hypothesis elasticity_range : 0 <= Physics.reboundElasticity params <= 1.
Hypothesis h_range : 0 < h <= 0.1.

Local Abbreviation c := (damping params).
Local Abbreviation delta := (shrink params h).
Local Abbreviation tau := (spin params h).
Local Abbreviation disc :=
  (4 * shrink params h - spin params h * spin params h).

Lemma damping_range : 0.25 <= c <= 5.25.
Proof. unfold damping. lra. Qed.

Lemma shrink_range : 0 < delta < 1.
Proof. pose proof damping_range. unfold shrink. nra. Qed.

(** The step has complex eigenvalues over the whole parameter range. *)
Lemma disc_pos : 0 < disc.
Proof.
  pose proof damping_range as Hc. unfold shrink, spin.
  revert Hc. generalize c. intros k Hc.
  replace (4 * (1 - k * h) - (2 - 10 * h * h - k * h) * (2 - 10 * h * h - k * h))
    with (h * h * (40 - (10 * h + k) * (10 * h + k))) by lra.
  apply Rmult_lt_0_compat; nra.
Qed.

Lemma energy1_glide (s v : R) :
  energy1 params h (eulerStretch params h s v) (eulerVelocity params h s v)
  = delta * energy1 params h s v.
Proof.
  unfold energy1, spin, shrink, eulerStretch, eulerVelocity, acceleration.
  generalize c. intros k. lra.
Qed.

Lemma energy1_stretch (s v : R) :
  disc * (s * s) <= 4 * energy1 params h s v.
Proof.
  unfold energy1. cbv zeta.
  generalize (eulerStretch params h s v), tau, delta. intros y t dl.
  pose proof (Rle_0_sqr (2 * y - t * s)) as Hsq. unfold Rsqr in Hsq.
  lra.
Qed.

Lemma energy1_nonneg (s v : R) : 0 <= energy1 params h s v.
Proof.
  pose proof (energy1_stretch s v). pose proof disc_pos.
  assert (0 <= disc * (s * s)) by (apply Rmult_le_pos; nra). lra.
Qed.

Lemma energy1_next (s v : R) :
  disc * (eulerStretch params h s v * eulerStretch params h s v)
  <= 4 * energy1 params h s v.
Proof.
  pose proof shrink_range as Hd. pose proof (energy1_nonneg s v) as Hn.
  revert Hd Hn. unfold energy1. cbv zeta.
  generalize (eulerStretch params h s v), tau, delta. intros y t dl Hd Hn.
  pose proof (Rle_0_sqr (2 * dl * s - t * y)) as H1. unfold Rsqr in H1.
  assert (H2 : (4 * dl - t * t) * (y * y)
               <= 4 * dl * (y * y - t * s * y + dl * s * s)) by lra.
  revert Hn H2. generalize (y * y - t * s * y + dl * s * s). intros G Hn H2.
  assert (dl * G <= G) by nra. lra.
Qed.

Lemma energy1_velocity (s v : R) :
  disc * (h * h)
  * (eulerVelocity params h s v * eulerVelocity params h s v)
  <= 16 * energy1 params h s v.
Proof.
  pose proof (energy1_stretch s v) as Hs.
  pose proof (energy1_next s v) as Hy.
  pose proof disc_pos as Hdisc.
  assert (E : eulerVelocity params h s v * h
              = eulerStretch params h s v - s)
    by (unfold eulerStretch; lra).
  revert Hs Hy Hdisc E.
  generalize (eulerStretch params h s v), (eulerVelocity params h s v),
    (energy1 params h s v), disc.
  intros y w G dd Hs Hy Hdisc E.
  assert (Hw : h * h * (w * w) = (y - s) * (y - s)) by (rewrite <- E; lra).
  pose proof (Rle_0_sqr (y + s)) as Hq. unfold Rsqr in Hq.
  replace (dd * (h * h) * (w * w)) with (dd * (h * h * (w * w))) by lra.
  rewrite Hw.
  assert (dd * ((y - s) * (y - s)) <= dd * (2 * (y * y) + 2 * (s * s))).
  { apply Rmult_le_compat_l; lra. }
  lra.
Qed.

Lemma energy_glide (p : Physics.HandPhysics) :
  energy params h (glide params h p) = delta * energy params h p.
Proof.
  unfold energy, glide, eulerStretch2, eulerVelocity2.
  cbn [Physics.currentStretch Physics.velocity vx vy].
  rewrite !energy1_glide. lra.
Qed.

Lemma energy_nonneg (p : Physics.HandPhysics) : 0 <= energy params h p.
Proof.
  unfold energy.
  pose proof (energy1_nonneg (vx (Physics.currentStretch p))
                (vx (Physics.velocity p))).
  pose proof (energy1_nonneg (vy (Physics.currentStretch p))
                (vy (Physics.velocity p))).
  lra.
Qed.

Lemma energy_glides (dts : list R) (p : Physics.HandPhysics) :
  Forall (fun dt => dt = h) dts ->
  energy params h (glides params dts p)
  = delta ^ List.length dts * energy params h p.
Proof.
  induction dts as [| dt dts IH] using rev_ind; intros Hall.
  - simpl. lra.
  - apply Forall_app in Hall. destruct Hall as [Hall Hdt].
    apply Forall_inv in Hdt. subst dt.
    rewrite glides_snoc, energy_glide, (IH Hall), length_app, Nat.add_1_r.
    simpl. lra.
Qed.

Lemma glide_stretch (p : Physics.HandPhysics) :
  disc * lengthSq (Physics.currentStretch (glide params h p))
  <= 4 * energy params h p.
Proof.
  unfold energy, glide, eulerStretch2, lengthSq.
  cbn [Physics.currentStretch vx vy].
  pose proof (energy1_next (vx (Physics.currentStretch p))
                (vx (Physics.velocity p))).
  pose proof (energy1_next (vy (Physics.currentStretch p))
                (vy (Physics.velocity p))).
  lra.
Qed.

Lemma glide_velocity (p : Physics.HandPhysics) :
  disc * (h * h) * lengthSq (Physics.velocity (glide params h p))
  <= 16 * energy params h p.
Proof.
  unfold energy, glide, eulerVelocity2, lengthSq.
  cbn [Physics.velocity vx vy].
  pose proof (energy1_velocity (vx (Physics.currentStretch p))
                (vx (Physics.velocity p))).
  pose proof (energy1_velocity (vy (Physics.currentStretch p))
                (vy (Physics.velocity p))).
  lra.
Qed.

(** From some step on, every further step of the unzeroed spring lands
    under both thresholds. *)
Lemma constant_settles (p : Physics.HandPhysics) :
  exists N : nat,
    forall dts : list R,
      Forall (fun dt => dt = h) dts ->
      (N <= List.length dts)%nat ->
      let q := glide params h (glides params dts p) in
      atRest (Physics.currentStretch q) (Physics.velocity q).
Proof.
  pose proof shrink_range as Hd. pose proof disc_pos as Hdisc.
  pose proof (energy_nonneg p) as HE.
  set (E0 := energy params h p) in *.
  set (y := 0.00001 * disc * (h * h) / (16 * (E0 + 1))).
  assert (Hy : 0 < y).
  { unfold y. apply Rdiv_lt_0_compat; [| lra].
    apply Rmult_lt_0_compat; [| nra]. lra. }
  destruct (pow_lt_1_zero delta ltac:(rewrite Rabs_right; lra) y Hy)
    as [N HN].
  exists N. intros dts Hall Hn q.
  specialize (HN (List.length dts) ltac:(lia)).
  rewrite Rabs_right in HN by (apply Rle_ge, pow_le; lra).
  assert (Hpow : 0 <= delta ^ List.length dts) by (apply pow_le; lra).
  pose proof (glide_stretch (glides params dts p)) as Hs.
  pose proof (glide_velocity (glides params dts p)) as Hv.
  rewrite (energy_glides dts p Hall) in Hs, Hv.
  fold E0 in Hs, Hv. fold q in Hs, Hv.
  assert (Hy16 : y * (16 * (E0 + 1)) = 0.00001 * disc * (h * h)).
  { unfold y. field. lra. }
  assert (HpE : delta ^ List.length dts * E0 <= y * (E0 + 1)).
  { apply Rle_trans with (delta ^ List.length dts * (E0 + 1)).
    - apply Rmult_le_compat_l; lra.
    - apply Rmult_le_compat_r; lra. }
  assert (Hh2 : 0 < h * h <= 1) by nra.
  pose proof (lengthSq_nonneg (Physics.currentStretch q)) as Hls.
  pose proof (lengthSq_nonneg (Physics.velocity q)) as Hlv.
  split.
  - apply (Rmult_lt_reg_l disc); [exact Hdisc |].
    assert (0.00001 * disc * (h * h) <= 0.00001 * disc) by nra.
    lra.
  - apply (Rmult_lt_reg_l (disc * (h * h))); [nra |].
    assert (0 < disc * (h * h)) by nra.
    lra.
Qed.

End ConstantFrameTime.

Lemma quadratic_nonneg (P B R s v : R) :
  0 < P -> B * B <= P * R ->
  0 <= P * (s * s) + 2 * B * (s * v) + R * (v * v).
Proof.
  intros HP HB.
  pose proof (Rle_0_sqr (P * s + B * v)) as H1. unfold Rsqr in H1.
  pose proof (Rle_0_sqr v) as Hv. unfold Rsqr in Hv.
  assert (H2 : 0 <= (P * R - B * B) * (v * v)) by (apply Rmult_le_pos; lra).
  assert (H3 : P * (P * (s * s) + 2 * B * (s * v) + R * (v * v))
               = (P * s + B * v) * (P * s + B * v)
                 + (P * R - B * B) * (v * v)) by ring.
  apply (Rmult_le_reg_l P); [exact HP |]. lra.
Qed.

Section VaryingFrameTime.

Variable params : Physics.FluidParams.
Variable m : R.

Hypothesis elasticity_range : 0 <= Physics.reboundElasticity params <= 0.9.
Hypothesis m_range : 0 < m <= 0.1.

Lemma loss_range : 0 < loss m < 1.
Proof.
  unfold loss.
  assert (0 < m * m <= 0.01) by nra.
  assert (0 < m * m * m <= 0.001).
  { split; [apply Rmult_lt_0_compat; lra |].
    replace 0.001 with (0.01 * 0.1) by lra.
    apply Rmult_le_compat; lra. }
  lra.
Qed.

(** With a damping of 0.75 or more, a step of frame time in [m, 0.1] takes
    a fixed share off the spring energy of each axis. *)
Lemma spring_step (h s v : R) :
  m <= h <= 0.1 ->
  10 * (eulerStretch params h s v * eulerStretch params h s v)
  + eulerVelocity params h s v * eulerVelocity params h s v
  <= (1 - loss m) * (10 * (s * s) + v * v).
Proof.
  intros Hh. destruct m_range as [Hm _].
  assert (Hc : 0.75 <= damping params <= 5.25) by (unfold damping; lra).
  unfold eulerStretch, eulerVelocity, acceleration, loss.
  revert Hc. generalize (damping params). intros c Hc.
  remember (100 * (h * h) * (1 - 10 * (h * h))) as A eqn:HA.
  remember (100 * (h * h * h) * (1 - c * h)) as B eqn:HB.
  remember (1 - (1 + 10 * (h * h)) * ((1 - c * h) * (1 - c * h))) as C eqn:HC.
  remember (4 * (m * m * m)) as rho eqn:Hrho.
  assert (Hh2 : 0 < h * h <= 0.01) by nra.
  assert (Hh3 : 0 < h * h * h <= 0.001).
  { split; [apply Rmult_lt_0_compat; lra |].
    replace 0.001 with (0.01 * 0.1) by lra.
    apply Rmult_le_compat; lra. }
  assert (Hm3 : 0 < m * m * m <= h * h * h).
  { split; [repeat apply Rmult_lt_0_compat; lra |].
    apply Rmult_le_compat; try nra. }
  assert (Hrho0 : 0 < rho) by lra.
  assert (Hdet : A * C - B * B
                 = 100 * (h * h * h) * (2 * c - c * c * h - 10 * h)).
  { subst A B C. ring. }
  assert (Hg : 0.44 <= 2 * c - c * c * h - 10 * h).
  { assert (0 <= (c - 0.75) * (5.25 - c)) by (apply Rmult_le_pos; lra).
    assert ((c * c + 10) * h <= (c * c + 10) * 0.1)
      by (apply Rmult_le_compat_l; nra).
    nra. }
  assert (Hlow : 11 * rho <= A * C - B * B).
  { rewrite Hdet.
    assert (100 * (h * h * h) * 0.44
            <= 100 * (h * h * h) * (2 * c - c * c * h - 10 * h))
      by (apply Rmult_le_compat_l; lra).
    lra. }
  assert (HAr : 90 * (h * h) <= A <= 1).
  { subst A. split.
    - assert (100 * (h * h) * 0.9 <= 100 * (h * h) * (1 - 10 * (h * h)))
        by (apply Rmult_le_compat_l; lra). lra.
    - assert (100 * (h * h) * (1 - 10 * (h * h)) <= 100 * (h * h) * 1)
        by (apply Rmult_le_compat_l; lra). lra. }
  assert (HCr : C <= 1).
  { subst C.
    assert (0 <= (1 + 10 * (h * h)) * ((1 - c * h) * (1 - c * h)))
      by (apply Rmult_le_pos; nra). lra. }
  assert (HP : 0 < A - 10 * rho).
  { assert (h * h * h <= 0.1 * (h * h)) by nra. lra. }
  assert (HPR : B * B <= (A - 10 * rho) * (C - rho)).
  { assert (rho * (A + 10 * C) <= rho * 11)
      by (apply Rmult_le_compat_l; lra).
    assert (0 <= rho * rho) by nra.
    nra. }
  pose proof (quadratic_nonneg (A - 10 * rho) B (C - rho) s v HP HPR) as HQ.
  assert (Hid : (1 - rho) * (10 * (s * s) + v * v)
                - (10 * ((s + (v + (-10.0 * s + - c * v) * h) * h)
                         * (s + (v + (-10.0 * s + - c * v) * h) * h))
                   + (v + (-10.0 * s + - c * v) * h)
                     * (v + (-10.0 * s + - c * v) * h))
                = (A - 10 * rho) * (s * s) + 2 * B * (s * v)
                  + (C - rho) * (v * v)).
  { subst A B C. lra. }
  lra.
Qed.

Lemma springEnergy_nonneg (p : Physics.HandPhysics) : 0 <= springEnergy p.
Proof.
  unfold springEnergy.
  pose proof (lengthSq_nonneg (Physics.currentStretch p)).
  pose proof (lengthSq_nonneg (Physics.velocity p)). lra.
Qed.

Lemma springEnergy_glide (h : R) (p : Physics.HandPhysics) :
  m <= h <= 0.1 ->
  springEnergy (glide params h p) <= (1 - loss m) * springEnergy p.
Proof.
  intros Hh. unfold springEnergy, glide, eulerStretch2, eulerVelocity2,
    lengthSq.
  cbn [Physics.currentStretch Physics.velocity vx vy].
  pose proof (spring_step h (vx (Physics.currentStretch p))
                (vx (Physics.velocity p)) Hh).
  pose proof (spring_step h (vy (Physics.currentStretch p))
                (vy (Physics.velocity p)) Hh).
  lra.
Qed.

Lemma springEnergy_glides (dts : list R) (p : Physics.HandPhysics) :
  Forall (fun dt => m <= dt <= 0.1) dts ->
  springEnergy (glides params dts p)
  <= (1 - loss m) ^ List.length dts * springEnergy p.
Proof.
  pose proof loss_range as Hl.
  induction dts as [| dt dts IH] using rev_ind; intros Hall.
  - simpl. lra.
  - apply Forall_app in Hall. destruct Hall as [Hall Hdt].
    apply Forall_inv in Hdt.
    rewrite glides_snoc, length_app, Nat.add_1_r.
    pose proof (springEnergy_glide dt (glides params dts p) Hdt) as Hstep.
    specialize (IH Hall). simpl.
    assert ((1 - loss m) * springEnergy (glides params dts p)
            <= (1 - loss m)
               * ((1 - loss m) ^ List.length dts * springEnergy p))
      by (apply Rmult_le_compat_l; lra).
    lra.
Qed.

Lemma varying_settles (p : Physics.HandPhysics) :
  exists N : nat,
    forall (dts : list R) (dt : R),
      Forall (fun d => m <= d <= 0.1) dts -> m <= dt <= 0.1 ->
      (N <= List.length dts)%nat ->
      let q := glide params dt (glides params dts p) in
      atRest (Physics.currentStretch q) (Physics.velocity q).
Proof.
  pose proof loss_range as Hl.
  pose proof (springEnergy_nonneg p) as HE.
  set (E0 := springEnergy p) in *.
  assert (Hy : 0 < 0.0001 / (E0 + 1)) by (apply Rdiv_lt_0_compat; lra).
  destruct (pow_lt_1_zero (1 - loss m) ltac:(rewrite Rabs_right; lra)
              (0.0001 / (E0 + 1)) Hy) as [N HN].
  exists N. intros dts dt Hall Hdt Hn q.
  specialize (HN (List.length dts) ltac:(lia)).
  rewrite Rabs_right in HN by (apply Rle_ge, pow_le; lra).
  assert (Hpow : 0 <= (1 - loss m) ^ List.length dts) by (apply pow_le; lra).
  pose proof (springEnergy_glides dts p Hall) as Hrun. fold E0 in Hrun.
  pose proof (springEnergy_glide dt (glides params dts p) Hdt) as Hlast.
  fold q in Hlast.
  pose proof (springEnergy_nonneg (glides params dts p)) as Hr.
  assert (Hy1 : 0.0001 / (E0 + 1) * (E0 + 1) = 0.0001) by (field; lra).
  assert (HpE : (1 - loss m) ^ List.length dts * E0 < 0.0001).
  { apply Rle_lt_trans with ((1 - loss m) ^ List.length dts * (E0 + 1)).
    - apply Rmult_le_compat_l; lra.
    - rewrite <- Hy1. apply Rmult_lt_compat_r; lra. }
  assert (Hq : springEnergy q < 0.0001) by nra.
  unfold springEnergy in Hq.
  pose proof (lengthSq_nonneg (Physics.currentStretch q)).
  pose proof (lengthSq_nonneg (Physics.velocity q)).
  split; lra.
Qed.

End VaryingFrameTime.

Lemma rest_zero (p : Physics.HandPhysics) :
  Physics.currentStretch (rest p) = mkVec2 0 0
  /\ Physics.velocity (rest p) = mkVec2 0 0.
Proof. split; reflexivity. Qed.

(** C2, amended: with an elasticity in [0,1], once the gesture is and remains
    other than PINCH, stretch and velocity are exactly (0,0) after finitely
    many ticks and stay so, from every initial stretch and velocity, when the
    frame time is held at one value in (0, 0.1]; and, for an elasticity of at
    most 0.9, also when the frame times vary from tick to tick within
    [m, 0.1] for some m > 0. *)
Theorem release_settles (params : Physics.FluidParams)
    (p : Physics.HandPhysics) :
  0 <= Physics.reboundElasticity params <= 1 ->
  (forall h : R,
     0 < h <= 0.1 ->
     exists N : nat,
       forall ticks : list (Vec2 * GestureType * R),
         Forall (idleTick h h) ticks ->
         (N <= List.length ticks)%nat ->
         Physics.currentStretch (Physics.run ticks params p) = mkVec2 0 0
         /\ Physics.velocity (Physics.run ticks params p) = mkVec2 0 0)
  /\ (Physics.reboundElasticity params <= 0.9 ->
      forall m : R,
        0 < m ->
        exists N : nat,
          forall ticks : list (Vec2 * GestureType * R),
            Forall (idleTick m 0.1) ticks ->
            (N <= List.length ticks)%nat ->
            Physics.currentStretch (Physics.run ticks params p) = mkVec2 0 0
            /\ Physics.velocity (Physics.run ticks params p) = mkVec2 0 0).
Proof.
  intros He. split.
  - intros h Hh.
    destruct (constant_settles params h He Hh p) as [N HN].
    exists (S N). intros ticks Hall Hlen.
    destruct (exists_last (l := ticks)) as (front & tick & ->).
    { intros ->. simpl in Hlen. lia. }
    rewrite length_app, Nat.add_1_r in Hlen.
    rewrite (run_idle_last params h h front tick p Hall); [apply rest_zero |].
    apply Forall_app in Hall. destruct Hall as [Hall Htick].
    apply Forall_inv in Htick. destruct Htick as [_ Hd].
    replace (snd tick) with h by lra.
    apply HN; [| rewrite length_map; lia].
    apply Forall_map. eapply Forall_impl; [| exact Hall].
    intros t [_ Ht]. lra.
  - intros He9 m Hm.
    destruct (Rle_dec m 0.1) as [Hle | Hgt].
    + destruct (varying_settles params m (conj (proj1 He) He9) (conj Hm Hle) p)
        as [N HN].
      exists (S N). intros ticks Hall Hlen.
      destruct (exists_last (l := ticks)) as (front & tick & ->).
      { intros ->. simpl in Hlen. lia. }
      rewrite length_app, Nat.add_1_r in Hlen.
      rewrite (run_idle_last params m 0.1 front tick p Hall);
        [apply rest_zero |].
      apply Forall_app in Hall. destruct Hall as [Hall Htick].
      apply Forall_inv in Htick. destruct Htick as [_ Hd].
      apply HN; [| exact Hd | rewrite length_map; lia].
      apply Forall_map. eapply Forall_impl; [| exact Hall].
      intros t [_ Ht]. exact Ht.
    + exists 1%nat. intros ticks Hall Hlen.
      destruct ticks as [| tick ticks]; [simpl in Hlen; lia |].
      apply Forall_inv in Hall. destruct Hall as [_ Hd]. lra.
Qed.

Lemma release_settles_witness :
  (forall h : R,
     0 < h <= 0.1 ->
     exists N : nat,
       forall ticks : list (Vec2 * GestureType * R),
         Forall (idleTick h h) ticks ->
         (N <= List.length ticks)%nat ->
         Physics.currentStretch
           (Physics.run ticks Physics.DEFAULT_PARAMS Samples.stretched)
         = mkVec2 0 0
         /\ Physics.velocity
              (Physics.run ticks Physics.DEFAULT_PARAMS Samples.stretched)
            = mkVec2 0 0)
  /\ (Physics.reboundElasticity Physics.DEFAULT_PARAMS <= 0.9 ->
      forall m : R,
        0 < m ->
        exists N : nat,
          forall ticks : list (Vec2 * GestureType * R),
            Forall (idleTick m 0.1) ticks ->
            (N <= List.length ticks)%nat ->
            Physics.currentStretch
              (Physics.run ticks Physics.DEFAULT_PARAMS Samples.stretched)
            = mkVec2 0 0
            /\ Physics.velocity
                 (Physics.run ticks Physics.DEFAULT_PARAMS Samples.stretched)
               = mkVec2 0 0).
Proof.
  apply (release_settles Physics.DEFAULT_PARAMS Samples.stretched).
  simpl. lra.
Defined.

Lemma frozen_update :
  Physics.update Samples.stretched (mkVec2 0.5 0.5) NONE
    Physics.DEFAULT_PARAMS 0
  = Samples.stretched.
Proof.
  destruct (update_idle_cases Samples.stretched (mkVec2 0.5 0.5) NONE
              Physics.DEFAULT_PARAMS 0 ltac:(discriminate)) as [_ Hn].
  assert (E : glide Physics.DEFAULT_PARAMS 0 Samples.stretched
              = Samples.stretched).
  { unfold glide, eulerStretch2, eulerVelocity2, eulerStretch, eulerVelocity,
      acceleration, Samples.stretched.
    cbn [Physics.anchorPoint Physics.currentStretch Physics.velocity vx vy].
    f_equal; f_equal; lra. }
  rewrite E in Hn. apply Hn.
  unfold atRest, lengthSq, Samples.stretched.
  cbn [Physics.currentStretch Physics.velocity vx vy]. lra.
Qed.

(** C2 as stated fails: with a frame delta of 0 at every tick a released
    stretch of one unit never changes, so it is (0,0) after no number of
    ticks. *)
Lemma frozen_time_never_settles :
  ~ exists n : nat,
      Physics.currentStretch
        (Physics.run (repeat Samples.frozenTick n) Physics.DEFAULT_PARAMS
           Samples.stretched)
      = mkVec2 0 0.
Proof.
  intros [n Hn].
  assert (E : forall k : nat,
             Physics.run (repeat Samples.frozenTick k) Physics.DEFAULT_PARAMS
               Samples.stretched = Samples.stretched).
  { induction k as [| k IH]; [reflexivity |].
    change (Physics.run (repeat Samples.frozenTick k) Physics.DEFAULT_PARAMS
              (Physics.update Samples.stretched (mkVec2 0.5 0.5) NONE
                 Physics.DEFAULT_PARAMS 0) = Samples.stretched).
    rewrite frozen_update. exact IH. }
  rewrite E in Hn. unfold Samples.stretched in Hn. simpl in Hn.
  injection Hn as H1. lra.
Qed.

Lemma halving_range (i : nat) : 0 < 0.1 / 2 ^ i <= 0.1.
Proof.
  assert (H : 1 <= 2 ^ i) by (apply pow_R1_Rle; lra).
  split; [apply Rdiv_lt_0_compat; lra |].
  apply (Rmult_le_reg_r (2 ^ i)); [lra |].
  unfold Rdiv. rewrite Rmult_assoc, Rinv_l by lra. lra.
Qed.

Lemma slowStart_step (i : nat) (p : Physics.HandPhysics) :
  slowStart i p ->
  slowStart (S i)
    (Physics.update p (mkVec2 0.5 0.5) NONE Physics.DEFAULT_PARAMS
       (0.1 / 2 ^ i)).
Proof.
  unfold slowStart. intros [Hs Hv].
  pose proof (halving_range i) as Hu.
  assert (Hhalf : 0.1 / 2 ^ S i = 0.1 / 2 ^ i / 2).
  { simpl. field. apply pow_nonzero. lra. }
  rewrite Hhalf. clear Hhalf. revert Hu Hs Hv.
  generalize (0.1 / 2 ^ i). intros u Hu Hs Hv.
  destruct (update_idle_cases p (mkVec2 0.5 0.5) NONE Physics.DEFAULT_PARAMS
              u ltac:(discriminate)) as [_ Hn].
  set (q := glide Physics.DEFAULT_PARAMS u p) in *.
  assert (Hq : (1 - 2 * (0.2 - 2 * (u / 2))
                <= vx (Physics.currentStretch q) <= 1)
               /\ - 10 * (0.2 - 2 * (u / 2))
                  <= vx (Physics.velocity q) <= 0).
  { unfold q, glide, eulerStretch2, eulerVelocity2, eulerStretch,
      eulerVelocity, acceleration, damping.
    cbn [Physics.currentStretch Physics.velocity vx
         Physics.reboundElasticity Physics.DEFAULT_PARAMS].
    revert Hs Hv.
    generalize (vx (Physics.currentStretch p)), (vx (Physics.velocity p)).
    intros s v Hs Hv.
    assert (H1 : 0 <= - v * u) by (apply Rmult_le_pos; lra).
    assert (H2 : 0 <= s * u <= u) by nra.
    assert (Hv' : - 10 * (0.2 - u) <= v + (-10.0 * s + - (5 * (1.05 - 0.9)) * v) * u <= 0)
      by (split; nra).
    split; [| lra].
    revert Hv'. generalize (v + (-10.0 * s + - (5 * (1.05 - 0.9)) * v) * u).
    intros w Hw.
    assert (- 2 * u <= w * u <= 0) by nra.
    lra. }
  rewrite Hn; [exact Hq |].
  intros [Hrest _]. unfold lengthSq in Hrest.
  pose proof (Rle_0_sqr (vy (Physics.currentStretch q))) as Hy.
  unfold Rsqr in Hy. destruct Hq as [[Hlo _] _]. nra.
Qed.

Lemma slowStart_run (n i : nat) (p : Physics.HandPhysics) :
  slowStart i p ->
  slowStart (i + n)
    (Physics.run (Samples.shrinkingTicks i n) Physics.DEFAULT_PARAMS p).
Proof.
  revert i p. induction n as [| n IH]; intros i p Hp.
  - rewrite Nat.add_0_r. exact Hp.
  - replace (i + S n)%nat with (S i + n)%nat by lia.
    apply (IH (S i)). now apply slowStart_step.
Qed.

(** A frame time that stays positive is not enough either: on a clock that
    halves its frame time at every tick the released stretch stays above 0.6
    for ever. *)
Lemma shrinking_time_never_settles :
  ~ exists n : nat,
      Physics.currentStretch
        (Physics.run (Samples.shrinkingTicks 0 n) Physics.DEFAULT_PARAMS
           Samples.stretched)
      = mkVec2 0 0.
Proof.
  intros [n Hn].
  assert (H0 : slowStart 0 Samples.stretched).
  { unfold slowStart, Samples.stretched. simpl. lra. }
  destruct (slowStart_run n 0 Samples.stretched H0) as [[Hlo _] _].
  rewrite Hn in Hlo. cbn [vx] in Hlo.
  pose proof (halving_range (0 + n)) as Hu. lra.
Qed.

(** ** Animation ticks *)

Lemma detect_lost (results : Classifier.Results) (i : nat)
    (st st' : Classifier.HandsState) (out : Classifier.HandData) :
  (i < 2)%nat ->
  (Classifier.foundHandsCount results <= i)%nat ->
  Classifier.detect results st = Some (st', out) ->
  slotOf i st' = fst (Classifier.lostHand (slotOf i st))
  /\ pick i out = snd (Classifier.lostHand (slotOf i st)).
Proof.
  intros Hi Hlost. unfold Classifier.detect.
  assert (H1 : Classifier.slotStep results 1 (snd st)
               = Some (Classifier.lostHand (snd st))).
  { apply slotStep_lost. lia. }
  rewrite H1.
  destruct i as [| [| i]]; [| | lia].
  - rewrite (slotStep_lost results 0 (fst st) Hlost). cbn [bind fst snd].
    intros E. injection E as <- <-. split; reflexivity.
  - destruct (Classifier.slotStep results 0 (fst st)) as [r0 |];
      cbn [bind fst snd]; [| discriminate].
    intros E. injection E as <- <-. split; reflexivity.
Qed.

Lemma detect_stale (t : Loop.Tick) (s : Loop.State) :
  newFrame t (Loop.lastVideoTime s) = None -> Loop.detect t s = Some s.
Proof.
  destruct t as [| time results]; [reflexivity |].
  unfold newFrame, Loop.detect.
  destruct (Req_dec_T time (Loop.lastVideoTime s)); [reflexivity |].
  discriminate.
Qed.

Lemma detect_fresh (t : Loop.Tick) (s : Loop.State)
    (results : Classifier.Results) :
  newFrame t (Loop.lastVideoTime s) = Some results ->
  exists time,
    t = Loop.Video time results
    /\ time <> Loop.lastVideoTime s
    /\ Loop.detect t s
       = (so <- Classifier.detect results (Loop.handsState s) ;;
          Some (Loop.mkState (fst so) time (snd so))).
Proof.
  destruct t as [| time r]; [discriminate |].
  unfold newFrame, Loop.detect.
  destruct (Req_dec_T time (Loop.lastVideoTime s)) as [| Hne];
    [discriminate |].
  intros E. injection E as ->. exists time. repeat split. exact Hne.
Qed.

Lemma run_completeTicks (ticks : list Loop.Tick) :
  Forall completeTick ticks ->
  forall s, exists s', Loop.run ticks s = Some s'.
Proof.
  induction 1 as [| t ticks Ht _ IH]; intros s.
  - exists s. reflexivity.
  - cbn [Loop.run].
    destruct t as [| time results].
    + cbn [Loop.detect bind]. apply IH.
    + unfold Loop.detect.
      destruct (Req_dec_T time (Loop.lastVideoTime s)).
      * cbn [bind]. apply IH.
      * destruct (detect_complete results (Loop.handsState s) Ht)
          as (st' & out & E).
        rewrite E. cbn [bind fst snd]. apply IH.
Qed.

Lemma run_handless (i : nat) (ticks : list Loop.Tick) :
  (i < 2)%nat ->
  Forall (handless i) ticks ->
  forall s s',
    Loop.run ticks s = Some s' ->
    slotOf i (Loop.handsState s')
    = Nat.iter (newFrames ticks (Loop.lastVideoTime s))
        (fun state => fst (Classifier.lostHand state))
        (slotOf i (Loop.handsState s))
    /\ ((1 <= newFrames ticks (Loop.lastVideoTime s))%nat ->
        pick i (Loop.handData s')
        = Classifier.exportSlot (slotOf i (Loop.handsState s')))
    /\ (newFrames ticks (Loop.lastVideoTime s) = 0%nat -> s' = s).
Proof.
  intros Hi. unfold newFrames.
  induction 1 as [| t ticks Ht _ IH]; intros s s'.
  - cbn [Loop.run processed List.length Nat.iter].
    intros E. injection E as <-.
    split; [reflexivity |]. split; [lia | reflexivity].
  - cbn [Loop.run].
    destruct t as [| time results].
    + cbn [Loop.detect bind processed]. apply IH.
    + unfold Loop.detect. cbn [processed].
      destruct (Req_dec_T time (Loop.lastVideoTime s)) as [| Hne].
      * cbn [bind]. apply IH.
      * destruct (Classifier.detect results (Loop.handsState s))
          as [[st1 out1] |] eqn:E1; cbn [bind fst snd]; [| discriminate].
        intros E.
        destruct (detect_lost results i _ _ _ Hi Ht E1) as [Hs1 Ho1].
        destruct (IH _ _ E) as (Hs & Ho & Hz).
        cbn [Loop.handsState Loop.lastVideoTime] in Hs, Ho, Hz.
        cbn [List.length]. rewrite Nat.iter_succ_r.
        split; [rewrite Hs, Hs1; reflexivity |].
        split; [| intros H0; lia].
        intros _.
        destruct (List.length (processed ticks time)) as [| n] eqn:En.
        -- rewrite (Hz eq_refl). cbn [Loop.handData Loop.handsState].
           rewrite Ho1, Hs1. apply lostHand_fields.
        -- apply Ho. lia.
Qed.

(** C9: on a tick that shows a new video frame in which the detector has no
    hand for a slot, the slot gets gesture NONE, its proximity moved a tenth
    of the way to 0 and its fingertip velocity set to (0,0); smoothed
    position and fingertip position keep their values, the slot has no other
    field, and the exported point shows the same values.  The tick returns
    when slot 0 is complete.  On a tick that shows no new video frame, or
    before video and detector are set, nothing changes: slot states, the time
    of the last frame and the exported pair stay as they are. *)
Theorem lost_hand_frame (t : Loop.Tick) (s : Loop.State) (i : nat) :
  (i < 2)%nat ->
  (newFrame t (Loop.lastVideoTime s) = None -> Loop.detect t s = Some s)
  /\ (forall results,
        newFrame t (Loop.lastVideoTime s) = Some results ->
        (Classifier.foundHandsCount results <= i)%nat ->
        (completeSlot results 0 -> exists s', Loop.detect t s = Some s')
        /\ (forall s',
              Loop.detect t s = Some s' ->
              slotOf i (Loop.handsState s')
              = Classifier.mkSlotState NONE
                  (Classifier.smoothedPos (slotOf i (Loop.handsState s)))
                  (Classifier.smoothedZ (slotOf i (Loop.handsState s))
                   + 0.1
                     * (0 - Classifier.smoothedZ
                              (slotOf i (Loop.handsState s))))
                  (Classifier.mkIndexTip
                     (Classifier.tip_x
                        (Classifier.indexTipState
                           (slotOf i (Loop.handsState s))))
                     (Classifier.tip_y
                        (Classifier.indexTipState
                           (slotOf i (Loop.handsState s)))) 0 0)
              /\ pick i (Loop.handData s')
                 = Classifier.exportSlot (slotOf i (Loop.handsState s')))).
Proof.
  intros Hi. split; [apply detect_stale |].
  intros results Hnew Hlost.
  destruct (detect_fresh t s results Hnew) as (time & _ & _ & E).
  rewrite E. split.
  - intros Hc0.
    destruct (detect_complete results (Loop.handsState s))
      as (st' & out & E').
    { split; [exact Hc0 | intros H; lia]. }
    rewrite E'. cbn [bind]. eexists. reflexivity.
  - intros s'.
    destruct (Classifier.detect results (Loop.handsState s))
      as [[st' out] |] eqn:E'; cbn [bind fst snd]; [| discriminate].
    intros Es. injection Es as <-. cbn [Loop.handsState Loop.handData].
    destruct (detect_lost results i _ _ _ Hi Hlost E') as [Hs Ho].
    destruct (lostHand_fields (slotOf i (Loop.handsState s))) as [Hf He].
    rewrite Ho, Hs, He. split; [exact Hf | reflexivity].
Qed.

Lemma lost_hand_frame_witness :
  newFrame (Loop.Video 0 Samples.oneHand) (Loop.lastVideoTime Loop.initial)
  = Some Samples.oneHand
  /\ (Classifier.foundHandsCount Samples.oneHand <= 1)%nat
  /\ completeSlot Samples.oneHand 0
  /\ exists s',
       Loop.detect (Loop.Video 0 Samples.oneHand) Loop.initial = Some s'
       /\ slotOf 1 (Loop.handsState s')
          = Classifier.mkSlotState NONE (mkVec2 0.5 0.5) (0 + 0.1 * (0 - 0))
              (Classifier.mkIndexTip 0.5 0.5 0 0)
       /\ pick 1 (Loop.handData s')
          = Classifier.exportSlot (slotOf 1 (Loop.handsState s')).
Proof.
  assert (Hnew : newFrame (Loop.Video 0 Samples.oneHand)
                   (Loop.lastVideoTime Loop.initial)
                 = Some Samples.oneHand).
  { unfold newFrame, Loop.initial. cbn [Loop.lastVideoTime].
    destruct (Req_dec_T 0 (-1)) as [H |]; [lra | reflexivity]. }
  assert (Hlost : (Classifier.foundHandsCount Samples.oneHand <= 1)%nat).
  { unfold Classifier.foundHandsCount. simpl. lia. }
  assert (Hc : completeSlot Samples.oneHand 0).
  { intros _.
    exists [Samples.closedHand], Samples.closedHand, "Right"%string, [].
    repeat split; simpl; lia. }
  split; [exact Hnew |]. split; [exact Hlost |]. split; [exact Hc |].
  destruct (lost_hand_frame (Loop.Video 0 Samples.oneHand) Loop.initial 1
              ltac:(lia)) as [_ H].
  destruct (H Samples.oneHand Hnew Hlost) as [Hex Hall].
  destruct (Hex Hc) as [s' Es'].
  exists s'. split; [exact Es' |]. exact (Hall s' Es').
Defined.

(** After one frame with a pinching hand, a tick at the video time already
    seen has landmark data for no slot, yet slot 0 keeps PINCH, its proximity
    0.1 and its fingertip velocity 1.5, in its state and in the exported
    point. *)
Lemma stale_tick_keeps_slot :
  exists s,
    Loop.run [Loop.Video 1 Samples.onePinch] Loop.initial = Some s
    /\ newFrame (Loop.Video 1 Samples.noHands) (Loop.lastVideoTime s) = None
    /\ handless 0 (Loop.Video 1 Samples.noHands)
    /\ Loop.detect (Loop.Video 1 Samples.noHands) s = Some s
    /\ Classifier.gesture (slotOf 0 (Loop.handsState s)) = PINCH
    /\ Classifier.smoothedZ (slotOf 0 (Loop.handsState s)) = 0.1
    /\ Classifier.tip_vx
         (Classifier.indexTipState (slotOf 0 (Loop.handsState s))) = 1.5
    /\ Classifier.hp_gesture (pick 0 (Loop.handData s)) = PINCH
    /\ Classifier.hp_z (pick 0 (Loop.handData s)) = 0.1
    /\ Classifier.tip_vx (Classifier.hp_indexTip (pick 0 (Loop.handData s)))
       = 1.5.
Proof.
  assert (Hp : planar (point Samples.pinchedHand 4)
                 (point Samples.pinchedHand 8) = 0).
  { unfold planar, point, Samples.pinchedHand. simpl nth.
    cbn [Classifier.x Classifier.y].
    replace ((0.6 - 0.6) * (0.6 - 0.6) + (0.5 - 0.5) * (0.5 - 0.5)) with 0
      by lra.
    apply sqrt_0. }
  assert (Hw : planar (point Samples.pinchedHand 0)
                 (point Samples.pinchedHand 9) = 0.25).
  { unfold planar, point, Samples.pinchedHand. simpl nth.
    cbn [Classifier.x Classifier.y].
    replace ((0.6 - 0.6) * (0.6 - 0.6) + (0.75 - 0.5) * (0.75 - 0.5))
      with (0.25 * 0.25) by lra.
    apply sqrt_square. lra. }
  exists (Loop.mkState
            (tracked Classifier.initialSlot Samples.pinchedHand "Right",
             fst (Classifier.lostHand Classifier.initialSlot))
            1
            (Classifier.exportSlot
               (tracked Classifier.initialSlot Samples.pinchedHand "Right"),
             snd (Classifier.lostHand Classifier.initialSlot))).
  split.
  { unfold Loop.run, Loop.detect, Loop.initial.
    cbn [Loop.lastVideoTime Loop.handsState].
    destruct (Req_dec_T 1 (-1)) as [H |]; [lra |].
    unfold Classifier.detect, Classifier.slotStep.
    unfold Classifier.foundHandsCount. simpl Nat.ltb. cbn [bind fst snd].
    cbn [Samples.onePinch Classifier.landmarks Classifier.handedness
         nth_error bind Classifier.initialHands fst snd].
    rewrite trackHand_complete by (simpl; lia).
    reflexivity. }
  cbn [Loop.lastVideoTime Loop.handsState Loop.handData slotOf pick fst snd].
  split.
  { unfold newFrame. destruct (Req_dec_T 1 1); [reflexivity | contradiction]. }
  split.
  { unfold handless, Classifier.foundHandsCount. simpl. lia. }
  split.
  { unfold Loop.detect. cbn [Loop.lastVideoTime].
    destruct (Req_dec_T 1 1); [reflexivity | contradiction]. }
  assert (Hpinch : Rltb (planar (point Samples.pinchedHand 4)
                           (point Samples.pinchedHand 8)) 0.05 = true).
  { apply Rltb_true. rewrite Hp. lra. }
  assert (Hz : clamp ((planar (point Samples.pinchedHand 0)
                         (point Samples.pinchedHand 9) - 0.05) / 0.2) 0 1
               = 1).
  { rewrite Hw. unfold clamp, Rmax, Rmin.
    destruct (Rle_dec 1 ((0.25 - 0.05) / 0.2)) as [| H]; [| exfalso; lra].
    destruct (Rle_dec 0 1); lra. }
  unfold Classifier.exportSlot, tracked.
  cbn [Classifier.gesture Classifier.smoothedZ Classifier.indexTipState
       Classifier.tip_vx Classifier.hp_gesture Classifier.hp_z
       Classifier.hp_indexTip].
  rewrite Hpinch, Hz. unfold resolve, Classifier.lerp.
  unfold point, Samples.pinchedHand, Classifier.initialSlot. simpl nth.
  cbn [Classifier.x Classifier.smoothedZ Classifier.indexTipState
       Classifier.tip_x Classifier.tip_vx].
  repeat split; lra.
Qed.

(** * Further properties *)

(** ** Sessions of a hand slot *)

Lemma complete_slot (results : Classifier.Results) (i : nat) :
  complete results -> (i < 2)%nat -> completeSlot results i.
Proof.
  intros [H0 H1] Hi. destruct i as [| [| i]]; [exact H0 | exact H1 | lia].
Qed.

Lemma slotNext_step (results : Classifier.Results) (i : nat)
    (state : Classifier.SlotState) :
  completeSlot results i ->
  Classifier.slotStep results i state
  = Some (slotNext results i state,
          Classifier.exportSlot (slotNext results i state)).
Proof.
  intros Hc. unfold slotNext.
  destruct (slotStep_complete results i state Hc) as (state' & E & _).
  rewrite E. reflexivity.
Qed.

Lemma slotNext_tracked (results : Classifier.Results) (i : nat)
    (state : Classifier.SlotState) (all : list (list Classifier.Landmark))
    (lm : list Classifier.Landmark) (handed : string) (others : list string) :
  completeSlot results i ->
  Classifier.landmarks results = Some all ->
  nth_error all i = Some lm ->
  nth_error (Classifier.handedness results) i = Some (handed :: others) ->
  slotNext results i state = tracked state lm handed.
Proof.
  intros Hc Hall Hlm Hh. unfold slotNext.
  destruct (slotStep_complete results i state Hc) as (state' & E & _ & Ht).
  rewrite E. simpl. eapply Ht; eassumption.
Qed.

Lemma slotNext_lost (results : Classifier.Results) (i : nat)
    (state : Classifier.SlotState) :
  (Classifier.foundHandsCount results <= i)%nat ->
  slotNext results i state = fst (Classifier.lostHand state).
Proof.
  intros Hi. unfold slotNext, Classifier.slotStep.
  replace (i <? Classifier.foundHandsCount results)%nat with false
    by (symmetry; apply Nat.ltb_ge; exact Hi).
  reflexivity.
Qed.

Lemma run_repeat (results : Classifier.Results) (n : nat) :
  complete results ->
  forall (st : Classifier.HandsState) (out : Classifier.HandData),
  exists out',
    Classifier.run (repeat results n) st out
    = Some ((Nat.iter n (slotNext results 0) (fst st),
             Nat.iter n (slotNext results 1) (snd st)), out').
Proof.
  intros Hc. induction n as [| n IH]; intros st out.
  - exists out. destruct st. reflexivity.
  - simpl repeat. cbn [Classifier.run]. unfold Classifier.detect.
    rewrite (slotNext_step results 0 (fst st) (proj1 Hc)). cbn [bind].
    rewrite (slotNext_step results 1 (snd st) (proj2 Hc)). cbn [bind fst snd].
    destruct (IH (slotNext results 0 (fst st), slotNext results 1 (snd st))
                (Classifier.exportSlot (slotNext results 0 (fst st)),
                 Classifier.exportSlot (slotNext results 1 (snd st))))
      as [out' E].
    exists out'. rewrite E. cbn [fst snd].
    now rewrite !Nat.iter_succ_r.
Qed.

Lemma slotOf_run (results : Classifier.Results) (n i : nat) :
  complete results -> (i < 2)%nat ->
  forall (st : Classifier.HandsState) (out : Classifier.HandData),
  exists st' out',
    Classifier.run (repeat results n) st out = Some (st', out')
    /\ slotOf i st' = Nat.iter n (slotNext results i) (slotOf i st).
Proof.
  intros Hc Hi st out. destruct (run_repeat results n Hc st out) as [out' E].
  eexists; exists out'. split; [exact E |].
  destruct i as [| [| i]]; [reflexivity | reflexivity | lia].
Qed.

Lemma lerp_error (p q t : R) :
  Classifier.lerp p q t - q = (1 - t) * (p - q).
Proof. unfold Classifier.lerp. lra. Qed.

Lemma tracked_errors (state : Classifier.SlotState)
    (lm : list Classifier.Landmark) (handed : string) :
  let next := tracked state lm handed in
  vx (Classifier.smoothedPos next) - vx (anchorTarget lm)
  = 0.75 * (vx (Classifier.smoothedPos state) - vx (anchorTarget lm))
  /\ vy (Classifier.smoothedPos next) - vy (anchorTarget lm)
     = 0.75 * (vy (Classifier.smoothedPos state) - vy (anchorTarget lm))
  /\ Classifier.smoothedZ next - proximityTarget lm
     = 0.9 * (Classifier.smoothedZ state - proximityTarget lm).
Proof.
  unfold tracked, anchorTarget, proximityTarget, Rltb.
  cbn [Classifier.smoothedPos Classifier.smoothedZ vx vy].
  destruct (Rlt_dec _ 0.05); cbn [vx vy]; rewrite !lerp_error;
    repeat split; lra.
Qed.

(** X1: while the detector keeps answering with the same complete frame, the
    smoothed position of an occupied slot closes a quarter of its distance to
    the anchor target (pinch midpoint or middle-finger base) at every tick and
    the smoothed proximity a tenth of its distance to the clamped proximity
    target: after n ticks the errors are 0.75^n and 0.9^n times the initial
    ones, on each axis with the sign kept. *)
Theorem steady_frame_convergence (results : Classifier.Results) (i n : nat)
    (all : list (list Classifier.Landmark)) (lm : list Classifier.Landmark)
    (handed : string) (others : list string)
    (st : Classifier.HandsState) (out : Classifier.HandData) :
  complete results -> (i < 2)%nat ->
  Classifier.landmarks results = Some all ->
  nth_error all i = Some lm ->
  nth_error (Classifier.handedness results) i = Some (handed :: others) ->
  exists st' out',
    Classifier.run (repeat results n) st out = Some (st', out')
    /\ vx (Classifier.smoothedPos (slotOf i st')) - vx (anchorTarget lm)
       = 0.75 ^ n
         * (vx (Classifier.smoothedPos (slotOf i st)) - vx (anchorTarget lm))
    /\ vy (Classifier.smoothedPos (slotOf i st')) - vy (anchorTarget lm)
       = 0.75 ^ n
         * (vy (Classifier.smoothedPos (slotOf i st)) - vy (anchorTarget lm))
    /\ Classifier.smoothedZ (slotOf i st') - proximityTarget lm
       = 0.9 ^ n * (Classifier.smoothedZ (slotOf i st) - proximityTarget lm).
Proof.
  intros Hc Hi Hall Hlm Hh.
  destruct (slotOf_run results n i Hc Hi st out) as (st' & out' & E & Hs).
  exists st', out'. split; [exact E |]. rewrite Hs. clear E Hs.
  induction n as [| n IH]; [simpl; lra |].
  rewrite !Nat.iter_succ.
  rewrite (slotNext_tracked results i _ all lm handed others
             (complete_slot results i Hc Hi) Hall Hlm Hh).
  destruct (tracked_errors (Nat.iter n (slotNext results i) (slotOf i st))
              lm handed) as (Ex & Ey & Ez).
  destruct IH as (IHx & IHy & IHz).
  rewrite Ex, Ey, Ez, IHx, IHy, IHz. simpl. repeat split; lra.
Qed.

Lemma steady_frame_convergence_witness :
  exists st' out',
    Classifier.run (repeat Samples.oneHand 3) Classifier.initialHands
      Classifier.initialData = Some (st', out')
    /\ vx (Classifier.smoothedPos (slotOf 0 st'))
       - vx (anchorTarget Samples.closedHand)
       = 0.75 ^ 3
         * (vx (Classifier.smoothedPos (slotOf 0 Classifier.initialHands))
            - vx (anchorTarget Samples.closedHand))
    /\ vy (Classifier.smoothedPos (slotOf 0 st'))
       - vy (anchorTarget Samples.closedHand)
       = 0.75 ^ 3
         * (vy (Classifier.smoothedPos (slotOf 0 Classifier.initialHands))
            - vy (anchorTarget Samples.closedHand))
    /\ Classifier.smoothedZ (slotOf 0 st')
       - proximityTarget Samples.closedHand
       = 0.9 ^ 3
         * (Classifier.smoothedZ (slotOf 0 Classifier.initialHands)
            - proximityTarget Samples.closedHand).
Proof.
  apply (steady_frame_convergence Samples.oneHand 0 3 [Samples.closedHand]
           Samples.closedHand "Right" [] Classifier.initialHands
           Classifier.initialData);
    [apply complete_oneHand | lia | reflexivity | reflexivity | reflexivity].
Defined.

Lemma lostHand_iter (n : nat) (state : Classifier.SlotState) :
  let final := Nat.iter n (fun s => fst (Classifier.lostHand s)) state in
  Classifier.smoothedZ final = 0.9 ^ n * Classifier.smoothedZ state
  /\ Classifier.smoothedPos final = Classifier.smoothedPos state
  /\ Classifier.tip_x (Classifier.indexTipState final)
     = Classifier.tip_x (Classifier.indexTipState state)
  /\ Classifier.tip_y (Classifier.indexTipState final)
     = Classifier.tip_y (Classifier.indexTipState state)
  /\ ((1 <= n)%nat ->
      Classifier.gesture final = NONE
      /\ Classifier.tip_vx (Classifier.indexTipState final) = 0
      /\ Classifier.tip_vy (Classifier.indexTipState final) = 0).
Proof.
  induction n as [| n IH]; cbv zeta.
  - simpl. split; [lra |]. do 3 (split; [reflexivity |]).
    intros H. lia.
  - rewrite Nat.iter_succ. cbv zeta in IH.
    revert IH.
    generalize (Nat.iter n (fun s => fst (Classifier.lostHand s)) state).
    intros s (Hz & Hp & Hx & Hy & _).
    unfold Classifier.lostHand. cbn [fst].
    cbn [Classifier.smoothedZ Classifier.smoothedPos Classifier.indexTipState
         Classifier.tip_x Classifier.tip_y Classifier.tip_vx Classifier.tip_vy
         Classifier.gesture].
    rewrite Hz, Hp, Hx, Hy. unfold Classifier.lerp. simpl pow.
    split; [lra |]. do 3 (split; [reflexivity |]).
    intros _. repeat split.
Qed.

(** X2: over any ticks at which the detector has no hand for a slot, the
    slot's proximity is multiplied by 0.9 at each tick that shows a new video
    frame, so by 0.9^n over n of them, whatever the other slot sees; ticks
    that show no new frame change nothing.  The slot keeps its smoothed
    position and its stored fingertip position, and from the first new frame
    on it reports NONE with a fingertip velocity of exactly (0,0), in its
    state and in the exported point.  The ticks return when the frames of the
    other slot are complete. *)
Theorem lost_slot_decay (ticks : list Loop.Tick) (i : nat)
    (s : Loop.State) :
  (i < 2)%nat ->
  Forall (handless i) ticks ->
  (Forall completeTick ticks -> exists s', Loop.run ticks s = Some s')
  /\ (forall s',
        Loop.run ticks s = Some s' ->
        let n := newFrames ticks (Loop.lastVideoTime s) in
        let before := slotOf i (Loop.handsState s) in
        let after := slotOf i (Loop.handsState s') in
        Classifier.smoothedZ after = 0.9 ^ n * Classifier.smoothedZ before
        /\ Classifier.smoothedPos after = Classifier.smoothedPos before
        /\ Classifier.tip_x (Classifier.indexTipState after)
           = Classifier.tip_x (Classifier.indexTipState before)
        /\ Classifier.tip_y (Classifier.indexTipState after)
           = Classifier.tip_y (Classifier.indexTipState before)
        /\ ((1 <= n)%nat ->
            Classifier.gesture after = NONE
            /\ Classifier.tip_vx (Classifier.indexTipState after) = 0
            /\ Classifier.tip_vy (Classifier.indexTipState after) = 0
            /\ pick i (Loop.handData s') = Classifier.exportSlot after)
        /\ (n = 0%nat -> s' = s)).
Proof.
  intros Hi Hless. split; [intros Hc; now apply run_completeTicks |].
  intros s' E. cbv zeta.
  destruct (run_handless i ticks Hi Hless s s' E) as (Hs & Ho & Hz).
  destruct (lostHand_iter (newFrames ticks (Loop.lastVideoTime s))
              (slotOf i (Loop.handsState s)))
    as (Lz & Lp & Lx & Ly & Lg).
  cbv zeta in Lz, Lp, Lx, Ly, Lg. rewrite <- Hs in Lz, Lp, Lx, Ly, Lg.
  split; [exact Lz |]. split; [exact Lp |]. split; [exact Lx |].
  split; [exact Ly |]. split; [| exact Hz].
  intros Hn. destruct (Lg Hn) as (Gg & Gx & Gy).
  split; [exact Gg |]. split; [exact Gx |]. split; [exact Gy |].
  now apply Ho.
Qed.

Lemma lost_slot_decay_witness :
  Forall (handless 1)
    [Loop.Video 0 Samples.oneHand; Loop.Video 0 Samples.oneHand;
     Loop.NotReady; Loop.Video 1 Samples.noHands]
  /\ newFrames
       [Loop.Video 0 Samples.oneHand; Loop.Video 0 Samples.oneHand;
        Loop.NotReady; Loop.Video 1 Samples.noHands]
       (Loop.lastVideoTime Loop.initial) = 2%nat
  /\ exists s',
       Loop.run
         [Loop.Video 0 Samples.oneHand; Loop.Video 0 Samples.oneHand;
          Loop.NotReady; Loop.Video 1 Samples.noHands] Loop.initial
       = Some s'
       /\ Classifier.smoothedZ (slotOf 1 (Loop.handsState s'))
          = 0.9 ^ 2
            * Classifier.smoothedZ (slotOf 1 (Loop.handsState Loop.initial))
       /\ Classifier.gesture (slotOf 1 (Loop.handsState s')) = NONE
       /\ pick 1 (Loop.handData s')
          = Classifier.exportSlot (slotOf 1 (Loop.handsState s')).
Proof.
  assert (Hless : Forall (handless 1)
                    [Loop.Video 0 Samples.oneHand;
                     Loop.Video 0 Samples.oneHand;
                     Loop.NotReady; Loop.Video 1 Samples.noHands]).
  { repeat constructor;
      unfold handless, Classifier.foundHandsCount; simpl; lia. }
  assert (Hc : Forall completeTick
                 [Loop.Video 0 Samples.oneHand;
                  Loop.Video 0 Samples.oneHand;
                  Loop.NotReady; Loop.Video 1 Samples.noHands]).
  { repeat constructor; unfold completeTick;
      solve [apply complete_oneHand | apply complete_noHands]. }
  assert (Hn : newFrames
                 [Loop.Video 0 Samples.oneHand;
                  Loop.Video 0 Samples.oneHand;
                  Loop.NotReady; Loop.Video 1 Samples.noHands]
                 (Loop.lastVideoTime Loop.initial) = 2%nat).
  { unfold newFrames, Loop.initial. cbn [Loop.lastVideoTime processed].
    destruct (Req_dec_T 0 (-1)) as [H |]; [lra |].
    destruct (Req_dec_T 0 0) as [_ | H]; [| contradiction].
    destruct (Req_dec_T 1 0) as [H |]; [lra |]. reflexivity. }
  split; [exact Hless |]. split; [exact Hn |].
  destruct (lost_slot_decay
              [Loop.Video 0 Samples.oneHand; Loop.Video 0 Samples.oneHand;
               Loop.NotReady; Loop.Video 1 Samples.noHands]
              1 Loop.initial ltac:(lia) Hless) as [Hex Hall].
  destruct (Hex Hc) as [s' Es'].
  exists s'. split; [exact Es' |].
  destruct (Hall s' Es') as (Hz & _ & _ & _ & Hg & _).
  cbv zeta in Hz, Hg. rewrite Hn in Hz, Hg.
  destruct (Hg ltac:(lia)) as (Gg & _ & _ & Go).
  split; [exact Hz |]. split; [exact Gg | exact Go].
Defined.

(** X24: a session of animation ticks ends in the slot states and the
    exported pair that the slot loop leaves on the detector answers of just
    those ticks that show a new video frame, in their order; ticks before
    video and detector are set and ticks at the video time already seen
    contribute nothing.  The session throws exactly when the slot loop throws
    on one of these answers, and the time kept is that of the last video
    frame seen. *)
Theorem ticks_run_processed_frames (ticks : list Loop.Tick)
    (s : Loop.State) :
  Loop.run ticks s
  = (so <- Classifier.run (processed ticks (Loop.lastVideoTime s))
             (Loop.handsState s) (Loop.handData s) ;;
     Some (Loop.mkState (fst so) (lastSeen ticks (Loop.lastVideoTime s))
             (snd so))).
Proof.
  revert s. induction ticks as [| t ticks IH]; intros s.
  - destruct s. reflexivity.
  - cbn [Loop.run]. destruct t as [| time results].
    + cbn [Loop.detect bind processed lastSeen]. apply IH.
    + unfold Loop.detect. cbn [processed lastSeen].
      destruct (Req_dec_T time (Loop.lastVideoTime s)) as [-> | Hne].
      * cbn [bind]. apply IH.
      * cbn [Classifier.run].
        destruct (Classifier.detect results (Loop.handsState s))
          as [so |]; cbn [bind]; [| reflexivity].
        rewrite IH. reflexivity.
Qed.

(** ** Fingertip velocity *)

Lemma tracked_tip (state : Classifier.SlotState)
    (lm : list Classifier.Landmark) (handed : string) :
  let tip := Classifier.indexTipState state in
  let tip' := Classifier.indexTipState (tracked state lm handed) in
  Classifier.tip_x tip' = Classifier.x (point lm 8)
  /\ Classifier.tip_y tip' = Classifier.y (point lm 8)
  /\ Classifier.tip_vx tip'
     = 0.7 * Classifier.tip_vx tip
       + 15 * (Classifier.x (point lm 8) - Classifier.tip_x tip)
  /\ Classifier.tip_vy tip'
     = 0.7 * Classifier.tip_vy tip
       + 15 * (Classifier.y (point lm 8) - Classifier.tip_y tip).
Proof.
  unfold tracked, Classifier.lerp.
  cbn [Classifier.indexTipState Classifier.tip_x Classifier.tip_y
       Classifier.tip_vx Classifier.tip_vy].
  repeat split; lra.
Qed.

(** X3: while the index fingertip advances by the same (dx, dy) from each
    frame to the next (the first frame one step after the stored fingertip
    position), the smoothed fingertip velocity approaches (50 dx, 50 dy): its
    error shrinks by the factor 0.7 per tick, and the stored fingertip
    position follows the fingertip. *)
Theorem steady_sweep_velocity (handed : string)
    (lms : list (list Classifier.Landmark)) (dx dy : R)
    (state : Classifier.SlotState) :
  Forall (fun lm => (21 <= List.length lm)%nat) lms ->
  steadySweep dx dy (Classifier.tip_x (Classifier.indexTipState state))
    (Classifier.tip_y (Classifier.indexTipState state)) lms ->
  exists state',
    trackFrames handed lms state = Some state'
    /\ Classifier.tip_vx (Classifier.indexTipState state') - 50 * dx
       = 0.7 ^ List.length lms
         * (Classifier.tip_vx (Classifier.indexTipState state) - 50 * dx)
    /\ Classifier.tip_vy (Classifier.indexTipState state') - 50 * dy
       = 0.7 ^ List.length lms
         * (Classifier.tip_vy (Classifier.indexTipState state) - 50 * dy)
    /\ Classifier.tip_x (Classifier.indexTipState state')
       = Classifier.tip_x (Classifier.indexTipState state)
         + INR (List.length lms) * dx
    /\ Classifier.tip_y (Classifier.indexTipState state')
       = Classifier.tip_y (Classifier.indexTipState state)
         + INR (List.length lms) * dy.
Proof.
  intros Hlen. revert state.
  induction Hlen as [| lm lms Hlm _ IH]; intros state Hsweep.
  - exists state. simpl. repeat split; lra.
  - destruct Hsweep as (Hx & Hy & Hrest).
    destruct (tracked_tip state lm handed) as (Tx & Ty & Tvx & Tvy).
    cbv zeta in Tx, Ty, Tvx, Tvy.
    destruct (IH (tracked state lm handed)) as (state' & E & Evx & Evy & Ex & Ey).
    { rewrite Tx, Ty, Hx, Hy. exact Hrest. }
    exists state'. cbn [trackFrames].
    rewrite (trackHand_complete state lm handed Hlm). cbn [bind fst].
    split; [exact E |].
    rewrite Evx, Evy, Ex, Ey, Tvx, Tvy, Tx, Ty, Hx, Hy.
    change (List.length (lm :: lms)) with (S (List.length lms)).
    rewrite S_INR. simpl pow. repeat split; lra.
Qed.

Lemma steady_sweep_velocity_witness :
  exists state',
    trackFrames "Right" [Samples.closedHand; Samples.closedHand]
      Classifier.initialSlot = Some state'
    /\ Classifier.tip_vx (Classifier.indexTipState state') - 50 * 0
       = 0.7 ^ 2
         * (Classifier.tip_vx (Classifier.indexTipState Classifier.initialSlot)
            - 50 * 0)
    /\ Classifier.tip_vy (Classifier.indexTipState state') - 50 * 0
       = 0.7 ^ 2
         * (Classifier.tip_vy (Classifier.indexTipState Classifier.initialSlot)
            - 50 * 0)
    /\ Classifier.tip_x (Classifier.indexTipState state')
       = Classifier.tip_x (Classifier.indexTipState Classifier.initialSlot)
         + INR 2 * 0
    /\ Classifier.tip_y (Classifier.indexTipState state')
       = Classifier.tip_y (Classifier.indexTipState Classifier.initialSlot)
         + INR 2 * 0.
Proof.
  apply (steady_sweep_velocity "Right"
           [Samples.closedHand; Samples.closedHand] 0 0
           Classifier.initialSlot).
  - repeat constructor; simpl; lia.
  - unfold steadySweep, point, Samples.closedHand. simpl. repeat split; lra.
Defined.

(** X4: a slot that loses its hand for one tick and gets it back on the next
    keeps the fingertip position it had before the loss, so the first frame
    after the loss yields a fingertip velocity of 15 times the whole
    displacement since the last sighting (0.3 * 50 of it), starting from the
    zero velocity of the lost tick. *)
Theorem reacquired_velocity (lostResults results : Classifier.Results)
    (i : nat) (state : Classifier.SlotState)
    (all : list (list Classifier.Landmark)) (lm : list Classifier.Landmark)
    (handed : string) (others : list string) :
  (Classifier.foundHandsCount lostResults <= i)%nat ->
  Classifier.landmarks results = Some all ->
  nth_error all i = Some lm ->
  nth_error (Classifier.handedness results) i = Some (handed :: others) ->
  (21 <= List.length lm)%nat ->
  exists lost lostOut back backOut,
    Classifier.slotStep lostResults i state = Some (lost, lostOut)
    /\ Classifier.slotStep results i lost = Some (back, backOut)
    /\ Classifier.tip_vx (Classifier.hp_indexTip lostOut) = 0
    /\ Classifier.tip_vy (Classifier.hp_indexTip lostOut) = 0
    /\ Classifier.tip_vx (Classifier.hp_indexTip backOut)
       = 15 * (Classifier.x (point lm 8)
               - Classifier.tip_x (Classifier.indexTipState state))
    /\ Classifier.tip_vy (Classifier.hp_indexTip backOut)
       = 15 * (Classifier.y (point lm 8)
               - Classifier.tip_y (Classifier.indexTipState state)).
Proof.
  intros Hlost Hall Hlm Hh Hlen.
  assert (Hc : completeSlot results i).
  { intros _. exists all, lm, handed, others. repeat split; assumption. }
  assert (Hcl : completeSlot lostResults i) by (intros Hi; lia).
  exists (slotNext lostResults i state),
    (Classifier.exportSlot (slotNext lostResults i state)),
    (slotNext results i (slotNext lostResults i state)),
    (Classifier.exportSlot
       (slotNext results i (slotNext lostResults i state))).
  split; [now apply slotNext_step |]. split; [now apply slotNext_step |].
  rewrite (slotNext_tracked results i _ all lm handed others Hc Hall Hlm Hh).
  rewrite (slotNext_lost lostResults i state Hlost).
  destruct (tracked_tip (fst (Classifier.lostHand state)) lm handed)
    as (_ & _ & Tvx & Tvy).
  cbv zeta in Tvx, Tvy.
  unfold Classifier.exportSlot. cbn [Classifier.hp_indexTip Classifier.tip_vx
    Classifier.tip_vy].
  rewrite Tvx, Tvy. unfold Classifier.lostHand.
  cbn [fst Classifier.indexTipState Classifier.tip_vx Classifier.tip_vy
       Classifier.tip_x Classifier.tip_y].
  clear. repeat split; lra.
Qed.

Lemma reacquired_velocity_witness :
  exists lost lostOut back backOut,
    Classifier.slotStep Samples.noHands 0 Classifier.initialSlot
    = Some (lost, lostOut)
    /\ Classifier.slotStep Samples.oneFarHand 0 lost = Some (back, backOut)
    /\ Classifier.tip_vx (Classifier.hp_indexTip lostOut) = 0
    /\ Classifier.tip_vy (Classifier.hp_indexTip lostOut) = 0
    /\ Classifier.tip_vx (Classifier.hp_indexTip backOut)
       = 15 * (Classifier.x (point Samples.farHand 8)
               - Classifier.tip_x
                   (Classifier.indexTipState Classifier.initialSlot))
    /\ Classifier.tip_vy (Classifier.hp_indexTip backOut)
       = 15 * (Classifier.y (point Samples.farHand 8)
               - Classifier.tip_y
                   (Classifier.indexTipState Classifier.initialSlot)).
Proof.
  apply (reacquired_velocity Samples.noHands Samples.oneFarHand 0
           Classifier.initialSlot [Samples.farHand] Samples.farHand "Right"
           []);
    [unfold Classifier.foundHandsCount; simpl; lia
    | reflexivity | reflexivity | reflexivity | simpl; lia].
Defined.

(** ** Symmetries of the gesture tests *)

Lemma point_map (f : Classifier.Landmark -> Classifier.Landmark)
    (lm : list Classifier.Landmark) (i : nat) :
  (i < List.length lm)%nat -> point (map f lm) i = f (point lm i).
Proof.
  intros Hi. unfold point.
  rewrite (nth_indep (map f lm) (Classifier.mkLandmark 0 0 0)
             (f (Classifier.mkLandmark 0 0 0)))
    by (rewrite length_map; exact Hi).
  apply map_nth.
Qed.

Lemma extendedFingers_map (f : Classifier.Landmark -> Classifier.Landmark)
    (lm : list Classifier.Landmark) :
  (21 <= List.length lm)%nat ->
  (forall p q, planar (f p) (f q) = planar p q) ->
  extendedFingers (map f lm) = extendedFingers lm.
Proof.
  intros Hlen Hf. unfold extendedFingers. f_equal.
  apply filter_ext_in. intros [t p] Hin.
  assert (Ht : (t < 21)%nat /\ (p < 21)%nat).
  { unfold Classifier.fingersIndices in Hin. simpl in Hin.
    repeat (destruct Hin as [Hin | Hin];
            [injection Hin as <- <-; lia |]).
    contradiction. }
  assert (E : extended (map f lm) (t, p) <-> extended lm (t, p)).
  { unfold extended. cbn [fst snd].
    rewrite !point_map by lia. rewrite !Hf. tauto. }
  destruct (extended_dec (map f lm) (t, p));
    destruct (extended_dec lm (t, p)); tauto.
Qed.

Lemma planar_shift (dx dy : R) (p q : Classifier.Landmark) :
  planar (shift dx dy p) (shift dx dy q) = planar p q.
Proof. unfold planar, shift. simpl. f_equal. lra. Qed.

Lemma planar_mirror (p q : Classifier.Landmark) :
  planar (mirror p) (mirror q) = planar p q.
Proof. unfold planar, mirror. simpl. f_equal. lra. Qed.

Lemma crossZ_shift (dx dy : R) (lm : list Classifier.Landmark) :
  (21 <= List.length lm)%nat ->
  crossZ (map (shift dx dy) lm) = crossZ lm.
Proof.
  intros Hlen. unfold crossZ. rewrite !point_map by lia.
  unfold shift. simpl. lra.
Qed.

Lemma crossZ_mirror (lm : list Classifier.Landmark) :
  (21 <= List.length lm)%nat ->
  crossZ (map mirror lm) = - crossZ lm.
Proof.
  intros Hlen. unfold crossZ. rewrite !point_map by lia.
  unfold mirror. simpl. lra.
Qed.

(** X5: the gesture does not depend on where the hand is in the image.
    Moving all landmarks of a complete frame by the same (dx, dy) leaves the
    gesture and the new proximity as they are and moves the new smoothed
    position by a quarter of (dx, dy). *)
Theorem gesture_translation_invariant (state : Classifier.SlotState)
    (lm : list Classifier.Landmark) (handed : string) (dx dy : R) :
  (21 <= List.length lm)%nat ->
  exists s o s' o',
    Classifier.trackHand state lm handed = Some (s, o)
    /\ Classifier.trackHand state (map (shift dx dy) lm) handed
       = Some (s', o')
    /\ Classifier.gesture s' = Classifier.gesture s
    /\ Classifier.smoothedZ s' = Classifier.smoothedZ s
    /\ vx (Classifier.smoothedPos s')
       = vx (Classifier.smoothedPos s) + 0.25 * dx
    /\ vy (Classifier.smoothedPos s')
       = vy (Classifier.smoothedPos s) + 0.25 * dy.
Proof.
  intros Hlen.
  assert (Hlen' : (21 <= List.length (map (shift dx dy) lm))%nat)
    by (rewrite length_map; exact Hlen).
  do 4 eexists.
  split; [apply (trackHand_complete state lm handed Hlen) |].
  split; [apply (trackHand_complete state _ handed Hlen') |].
  unfold tracked.
  rewrite (extendedFingers_map _ lm Hlen (planar_shift dx dy)).
  rewrite (crossZ_shift dx dy lm Hlen).
  rewrite !point_map by lia. rewrite !planar_shift.
  cbn [Classifier.gesture Classifier.smoothedZ Classifier.smoothedPos vx vy].
  split; [reflexivity |]. split; [reflexivity |].
  unfold Classifier.lerp, shift. cbn [Classifier.x Classifier.y].
  destruct (Rltb _ 0.05); clear; split; lra.
Qed.

Lemma gesture_translation_invariant_witness :
  exists s o s' o',
    Classifier.trackHand Classifier.initialSlot Samples.closedHand "Right"
    = Some (s, o)
    /\ Classifier.trackHand Classifier.initialSlot
         (map (shift 0.1 0.2) Samples.closedHand) "Right"
       = Some (s', o')
    /\ Classifier.gesture s' = Classifier.gesture s
    /\ Classifier.smoothedZ s' = Classifier.smoothedZ s
    /\ vx (Classifier.smoothedPos s')
       = vx (Classifier.smoothedPos s) + 0.25 * 0.1
    /\ vy (Classifier.smoothedPos s')
       = vy (Classifier.smoothedPos s) + 0.25 * 0.2.
Proof.
  apply (gesture_translation_invariant Classifier.initialSlot
           Samples.closedHand "Right" 0.1 0.2).
  simpl. lia.
Defined.

(** X6: the orientation test is mirrored between the hands.  A complete
    frame labelled "Left" and its left-to-right mirror image labelled "Right"
    get the same gesture and the same new proximity, and so do a frame
    labelled "Right" and its mirror image labelled "Left". *)
Theorem gesture_mirror_symmetric (state : Classifier.SlotState)
    (lm : list Classifier.Landmark) :
  (21 <= List.length lm)%nat ->
  exists l ol r or ml oml mr omr,
    Classifier.trackHand state lm "Left" = Some (l, ol)
    /\ Classifier.trackHand state lm "Right" = Some (r, or)
    /\ Classifier.trackHand state (map mirror lm) "Left" = Some (ml, oml)
    /\ Classifier.trackHand state (map mirror lm) "Right" = Some (mr, omr)
    /\ Classifier.gesture mr = Classifier.gesture l
    /\ Classifier.gesture ml = Classifier.gesture r
    /\ Classifier.smoothedZ mr = Classifier.smoothedZ l
    /\ Classifier.smoothedZ ml = Classifier.smoothedZ r.
Proof.
  intros Hlen.
  assert (Hlen' : (21 <= List.length (map mirror lm))%nat)
    by (rewrite length_map; exact Hlen).
  do 8 eexists.
  split; [apply (trackHand_complete state lm "Left" Hlen) |].
  split; [apply (trackHand_complete state lm "Right" Hlen) |].
  split; [apply (trackHand_complete state _ "Left" Hlen') |].
  split; [apply (trackHand_complete state _ "Right" Hlen') |].
  unfold tracked.
  rewrite (extendedFingers_map _ lm Hlen planar_mirror).
  rewrite (crossZ_mirror lm Hlen).
  rewrite !point_map by lia. rewrite !planar_mirror.
  cbn [Classifier.gesture Classifier.smoothedZ String.eqb Ascii.eqb Bool.eqb].
  assert (Hflip : Rgtb (- crossZ lm) 0.002 = Rltb (crossZ lm) (- 0.002)).
  { unfold Rgtb, Rltb.
    destruct (Rlt_dec 0.002 (- crossZ lm));
      destruct (Rlt_dec (crossZ lm) (- 0.002)); try reflexivity; lra. }
  assert (Hflop : Rltb (- crossZ lm) (- 0.002) = Rgtb (crossZ lm) 0.002).
  { unfold Rgtb, Rltb.
    destruct (Rlt_dec (- crossZ lm) (- 0.002));
      destruct (Rlt_dec 0.002 (crossZ lm)); try reflexivity; lra. }
  rewrite Hflip, Hflop. repeat split.
Qed.

Lemma gesture_mirror_symmetric_witness :
  exists l ol r or ml oml mr omr,
    Classifier.trackHand Classifier.initialSlot Samples.closedHand "Left"
    = Some (l, ol)
    /\ Classifier.trackHand Classifier.initialSlot Samples.closedHand "Right"
       = Some (r, or)
    /\ Classifier.trackHand Classifier.initialSlot
         (map mirror Samples.closedHand) "Left" = Some (ml, oml)
    /\ Classifier.trackHand Classifier.initialSlot
         (map mirror Samples.closedHand) "Right" = Some (mr, omr)
    /\ Classifier.gesture mr = Classifier.gesture l
    /\ Classifier.gesture ml = Classifier.gesture r
    /\ Classifier.smoothedZ mr = Classifier.smoothedZ l
    /\ Classifier.smoothedZ ml = Classifier.smoothedZ r.
Proof.
  apply (gesture_mirror_symmetric Classifier.initialSlot Samples.closedHand).
  simpl. lia.
Defined.

(** ** Dragging and release *)

Lemma update_pinch_dragging (p : Physics.HandPhysics) (handPos : Vec2)
    (params : Physics.FluidParams) (dt : R) :
  Physics.isDragging p = true ->
  Physics.update p handPos PINCH params dt
  = Physics.mkHandPhysics (Physics.anchorPoint p)
      (vsub (flipY handPos) (Physics.anchorPoint p)) (Physics.velocity p)
      true.
Proof.
  intros Hd. unfold Physics.update. rewrite Hd. simpl.
  unfold flipY. repeat f_equal; lra.
Qed.

Lemma update_pinch_start (p : Physics.HandPhysics) (handPos : Vec2)
    (params : Physics.FluidParams) (dt : R) :
  Physics.isDragging p = false ->
  Physics.update p handPos PINCH params dt
  = Physics.mkHandPhysics (flipY handPos)
      (vsub (flipY handPos) (flipY handPos)) (mkVec2 0 0) true.
Proof.
  intros Hd. unfold Physics.update. rewrite Hd. simpl.
  unfold flipY, vsub. simpl. repeat f_equal; lra.
Qed.

(** X7: a drag follows the hand exactly.  After one or more consecutive
    PINCH ticks that begin while not dragging, the anchor is the (y-flipped)
    hand position of the first of them, the stretch is the last hand position
    minus the first, the velocity is (0,0) and the hand is dragging, whatever
    the parameters and frame times. *)
Theorem drag_follows_hand (ticks : list (Vec2 * GestureType * R))
    (params : Physics.FluidParams) (p : Physics.HandPhysics) :
  Physics.isDragging p = false ->
  ticks <> [] ->
  Forall (fun tick => snd (fst tick) = PINCH) ticks ->
  Physics.run ticks params p
  = Physics.mkHandPhysics (flipY (fst (fst (hd noTick ticks))))
      (vsub (flipY (fst (fst (last ticks noTick))))
         (flipY (fst (fst (hd noTick ticks)))))
      (mkVec2 0 0) true.
Proof.
  intros Hd Hne Hall.
  destruct ticks as [| first rest]; [contradiction |]. clear Hne.
  induction rest as [| tick rest IH] using rev_ind.
  - destruct first as [[pos g] dt]. apply Forall_inv in Hall. simpl in Hall.
    subst g. simpl. now apply update_pinch_start.
  - rewrite app_comm_cons in *. apply Forall_app in Hall.
    destruct Hall as [Hfront Htick]. apply Forall_inv in Htick.
    rewrite run_snoc, (IH Hfront), Htick, last_last.
    rewrite update_pinch_dragging by reflexivity. reflexivity.
Qed.

Lemma drag_follows_hand_witness :
  Physics.run [(mkVec2 0.4 0.4, PINCH, 0.016); (mkVec2 0.6 0.3, PINCH, 0.016)]
    Physics.DEFAULT_PARAMS Physics.initial
  = Physics.mkHandPhysics (flipY (mkVec2 0.4 0.4))
      (vsub (flipY (mkVec2 0.6 0.3)) (flipY (mkVec2 0.4 0.4)))
      (mkVec2 0 0) true.
Proof.
  apply (drag_follows_hand
           [(mkVec2 0.4 0.4, PINCH, 0.016); (mkVec2 0.6 0.3, PINCH, 0.016)]
           Physics.DEFAULT_PARAMS Physics.initial);
    [reflexivity | discriminate | repeat constructor].
Defined.

Lemma update_idle_frame (p : Physics.HandPhysics) (handPos : Vec2)
    (gesture : GestureType) (params : Physics.FluidParams) (dt : R) :
  gesture <> PINCH ->
  let next := Physics.update p handPos gesture params dt in
  Physics.anchorPoint next = Physics.anchorPoint p
  /\ Physics.isDragging next = false
  /\ (Physics.currentStretch p = mkVec2 0 0 ->
      Physics.velocity p = mkVec2 0 0 ->
      Physics.currentStretch next = mkVec2 0 0
      /\ Physics.velocity next = mkVec2 0 0).
Proof.
  intros Hg next.
  destruct (update_idle_cases p handPos gesture params dt Hg) as [Hr Hn].
  destruct (Rlt_dec (lengthSq (Physics.currentStretch (glide params dt p)))
              0.00001) as [H1 | H1];
    [destruct (Rlt_dec (lengthSq (Physics.velocity (glide params dt p)))
                 0.0001) as [H2 | H2] |].
  - unfold next. rewrite (Hr (conj H1 H2)). repeat split.
  - unfold next. rewrite Hn by (intros [_ H]; contradiction).
    split; [reflexivity |]. split; [reflexivity |].
    intros Es Ev. exfalso. apply H2.
    unfold glide, eulerVelocity2, eulerVelocity, acceleration, lengthSq.
    cbn [Physics.velocity vx vy]. rewrite Es, Ev. cbn [vx vy]. lra.
  - unfold next. rewrite Hn by (intros [H _]; contradiction).
    split; [reflexivity |]. split; [reflexivity |].
    intros Es Ev. exfalso. apply H1.
    unfold glide, eulerStretch2, eulerStretch, eulerVelocity, acceleration,
      lengthSq.
    cbn [Physics.currentStretch vx vy]. rewrite Es, Ev. cbn [vx vy]. lra.
Qed.

(** X8: ticks with a gesture other than PINCH never move the anchor and
    leave the hand not dragging; and a spring at rest stays at rest: from a
    stretch and velocity of exactly (0,0) they remain (0,0), for every frame
    time (zero, negative or large) and every parameter value. *)
Theorem idle_keeps_anchor_and_rest (ticks : list (Vec2 * GestureType * R))
    (params : Physics.FluidParams) (p : Physics.HandPhysics) :
  Forall (fun tick => snd (fst tick) <> PINCH) ticks ->
  Physics.anchorPoint (Physics.run ticks params p) = Physics.anchorPoint p
  /\ (ticks <> [] -> Physics.isDragging (Physics.run ticks params p) = false)
  /\ (Physics.currentStretch p = mkVec2 0 0 ->
      Physics.velocity p = mkVec2 0 0 ->
      Physics.currentStretch (Physics.run ticks params p) = mkVec2 0 0
      /\ Physics.velocity (Physics.run ticks params p) = mkVec2 0 0).
Proof.
  intros Hall.
  induction ticks as [| tick ticks IH] using rev_ind.
  - simpl. split; [reflexivity |]. split; [congruence | tauto].
  - apply Forall_app in Hall. destruct Hall as [Hfront Htick].
    apply Forall_inv in Htick. rewrite run_snoc.
    destruct (IH Hfront) as (Ha & _ & Hrest).
    destruct (update_idle_frame (Physics.run ticks params p) (fst (fst tick))
                (snd (fst tick)) params (snd tick) Htick)
      as (Ha' & Hd' & Hrest').
    split; [congruence |]. split; [intros _; exact Hd' |].
    intros Es Ev. destruct (Hrest Es Ev) as [Es' Ev']. now apply Hrest'.
Qed.

Lemma idle_keeps_anchor_and_rest_witness :
  Physics.anchorPoint
    (Physics.run [Samples.frozenTick; (mkVec2 0.2 0.2, PALM, 5)]
       Physics.DEFAULT_PARAMS Physics.initial)
  = Physics.anchorPoint Physics.initial
  /\ ([Samples.frozenTick; (mkVec2 0.2 0.2, PALM, 5)] <> [] ->
      Physics.isDragging
        (Physics.run [Samples.frozenTick; (mkVec2 0.2 0.2, PALM, 5)]
           Physics.DEFAULT_PARAMS Physics.initial) = false)
  /\ (Physics.currentStretch Physics.initial = mkVec2 0 0 ->
      Physics.velocity Physics.initial = mkVec2 0 0 ->
      Physics.currentStretch
        (Physics.run [Samples.frozenTick; (mkVec2 0.2 0.2, PALM, 5)]
           Physics.DEFAULT_PARAMS Physics.initial) = mkVec2 0 0
      /\ Physics.velocity
           (Physics.run [Samples.frozenTick; (mkVec2 0.2 0.2, PALM, 5)]
              Physics.DEFAULT_PARAMS Physics.initial) = mkVec2 0 0).
Proof.
  apply (idle_keeps_anchor_and_rest
           [Samples.frozenTick; (mkVec2 0.2 0.2, PALM, 5)]
           Physics.DEFAULT_PARAMS Physics.initial).
  repeat constructor; discriminate.
Defined.

Lemma springEnergy_rest (p : Physics.HandPhysics) : springEnergy (rest p) = 0.
Proof.
  unfold springEnergy, rest, lengthSq.
  cbn [Physics.currentStretch Physics.velocity vx vy]. lra.
Qed.

Lemma springEnergy_nonneg_any (p : Physics.HandPhysics) : 0 <= springEnergy p.
Proof.
  unfold springEnergy.
  pose proof (lengthSq_nonneg (Physics.currentStretch p)).
  pose proof (lengthSq_nonneg (Physics.velocity p)). lra.
Qed.

Lemma springEnergy_update (p : Physics.HandPhysics) (handPos : Vec2)
    (gesture : GestureType) (params : Physics.FluidParams) (dt : R) :
  0 <= Physics.reboundElasticity params <= 0.9 ->
  gesture <> PINCH -> 0 < dt <= 0.1 ->
  springEnergy (Physics.update p handPos gesture params dt)
  <= (1 - loss dt) * springEnergy p.
Proof.
  intros He Hg Hdt.
  pose proof (loss_range dt Hdt) as Hl.
  pose proof (springEnergy_nonneg_any p) as HE.
  destruct (update_idle_cases p handPos gesture params dt Hg) as [Hr Hn].
  destruct (Rlt_dec (lengthSq (Physics.currentStretch (glide params dt p)))
              0.00001) as [H1 | H1];
    [destruct (Rlt_dec (lengthSq (Physics.velocity (glide params dt p)))
                 0.0001) as [H2 | H2] |].
  - rewrite (Hr (conj H1 H2)), springEnergy_rest. nra.
  - rewrite Hn by (intros [_ H]; contradiction).
    apply (springEnergy_glide params dt He Hdt). lra.
  - rewrite Hn by (intros [H _]; contradiction).
    apply (springEnergy_glide params dt He Hdt). lra.
Qed.

(** X9: with an elasticity of at most 0.9, a released spring never gains
    energy: over ticks with a gesture other than PINCH and frame times in
    (0, 0.1], the quantity 10 |stretch|^2 + |velocity|^2 never exceeds its
    value at release (each tick of frame time dt takes at least the share
    4 dt^3 off it), so the stretch stays within the radius it was released
    with when released at zero velocity. *)
Theorem release_never_gains_energy (ticks : list (Vec2 * GestureType * R))
    (params : Physics.FluidParams) (p : Physics.HandPhysics) :
  0 <= Physics.reboundElasticity params <= 0.9 ->
  Forall releasedTick ticks ->
  springEnergy (Physics.run ticks params p) <= springEnergy p
  /\ (forall (handPos : Vec2) (gesture : GestureType) (dt : R),
        gesture <> PINCH -> 0 < dt <= 0.1 ->
        springEnergy (Physics.update p handPos gesture params dt)
        <= (1 - 4 * (dt * dt * dt)) * springEnergy p)
  /\ (Physics.velocity p = mkVec2 0 0 ->
      lengthSq (Physics.currentStretch (Physics.run ticks params p))
      <= lengthSq (Physics.currentStretch p)).
Proof.
  intros He Hall.
  assert (Hrun : springEnergy (Physics.run ticks params p) <= springEnergy p).
  { induction ticks as [| tick ticks IH] using rev_ind; [simpl; lra |].
    apply Forall_app in Hall. destruct Hall as [Hfront Htick].
    apply Forall_inv in Htick. destruct Htick as [Hg Hdt].
    rewrite run_snoc.
    pose proof (springEnergy_update (Physics.run ticks params p)
                  (fst (fst tick)) (snd (fst tick)) params (snd tick) He Hg
                  Hdt) as Hstep.
    pose proof (loss_range (snd tick) Hdt) as Hl.
    pose proof (springEnergy_nonneg_any (Physics.run ticks params p)) as HE.
    specialize (IH Hfront). nra. }
  split; [exact Hrun |]. split.
  - intros handPos gesture dt Hg Hdt.
    apply (springEnergy_update p handPos gesture params dt He Hg Hdt).
  - intros Ev. revert Hrun. unfold springEnergy. rewrite Ev.
    pose proof (lengthSq_nonneg
                  (Physics.velocity (Physics.run ticks params p))) as Hv.
    unfold lengthSq at 4. cbn [vx vy]. lra.
Qed.

Lemma release_never_gains_energy_witness :
  springEnergy
    (Physics.run [(mkVec2 0.5 0.5, NONE, 0.016)] Physics.DEFAULT_PARAMS
       Samples.stretched)
  <= springEnergy Samples.stretched
  /\ (forall (handPos : Vec2) (gesture : GestureType) (dt : R),
        gesture <> PINCH -> 0 < dt <= 0.1 ->
        springEnergy
          (Physics.update Samples.stretched handPos gesture
             Physics.DEFAULT_PARAMS dt)
        <= (1 - 4 * (dt * dt * dt)) * springEnergy Samples.stretched)
  /\ (Physics.velocity Samples.stretched = mkVec2 0 0 ->
      lengthSq
        (Physics.currentStretch
           (Physics.run [(mkVec2 0.5 0.5, NONE, 0.016)]
              Physics.DEFAULT_PARAMS Samples.stretched))
      <= lengthSq (Physics.currentStretch Samples.stretched)).
Proof.
  apply (release_never_gains_energy [(mkVec2 0.5 0.5, NONE, 0.016)]
           Physics.DEFAULT_PARAMS Samples.stretched).
  - simpl. lra.
  - repeat constructor; simpl; try discriminate; lra.
Defined.

(** ** The field over the frames of a scene *)

Lemma useFrame_current (f : Scene.Frame) (s : Scene.SceneState) :
  pingPong s ->
  forall vUv,
    current (Scene.useFrame f s) vUv
    = Smear.smearFragment (uniformsOf f) vUv (current s vUv).
Proof.
  intros (rd & wr & Hr & Hw & Hne) vUv.
  unfold current, Scene.useFrame. rewrite Hr, Hw.
  cbn [Scene.fboRead Scene.textures]. unfold Scene.render.
  rewrite Target_eqb_refl. reflexivity.
Qed.

Lemma frames_current (fs : list Scene.Frame) (s : Scene.SceneState) :
  pingPong s ->
  forall vUv,
    current (Scene.frames fs s) vUv
    = Smear.runCell (map uniformsOf fs) vUv (current s vUv).
Proof.
  revert s. induction fs as [| f fs IH]; intros s Hs vUv; simpl.
  - reflexivity.
  - rewrite (IH _ (useFrame_pingPong f s Hs)).
    now rewrite (useFrame_current f s Hs).
Qed.

Lemma frames_app (pre fs : list Scene.Frame) (s : Scene.SceneState) :
  Scene.frames (pre ++ fs) s = Scene.frames fs (Scene.frames pre s).
Proof.
  revert s. induction pre as [| f pre IH]; intros s; simpl; [reflexivity |].
  apply IH.
Qed.

(** X10: the field evolves cell by cell.  At every texture coordinate, the
    texel of the generation that is current after a run of frames is the
    texel that was current before the run, passed through the smear update
    of each frame in order; no other cell and no older generation enters. *)
Theorem field_evolves_cellwise (pre fs : list Scene.Frame) (vUv : Vec2) :
  current (Scene.frames (pre ++ fs) Scene.mounted) vUv
  = Smear.runCell (map uniformsOf fs) vUv
      (current (Scene.frames pre Scene.mounted) vUv).
Proof.
  rewrite frames_app. apply frames_current.
  apply frames_pingPong, mounted_pingPong.
Qed.

Lemma quiet_unbrushed (u : Smear.Uniforms) (vUv : Vec2) :
  quiet u -> ~ brushed u vUv.
Proof.
  intros [H0 H1]. unfold brushed, Smear.brushes, Smear.brushHand.
  replace (Rgtb (vlength (fst (Smear.uIndexVel u))) 0.02) with false
    by (symmetry; apply Rltb_false; exact H0).
  replace (Rgtb (vlength (snd (Smear.uIndexVel u))) 0.02) with false
    by (symmetry; apply Rltb_false; exact H1).
  cbn [Smear.totalBrush]. lra.
Qed.

Lemma current_in_range (fs : list Scene.Frame) (vUv : Vec2) :
  Forall (fun f => paramsInRange (Scene.params f)) fs ->
  texelInRange (current (Scene.frames fs Scene.mounted) vUv).
Proof.
  intros Hfs. unfold current.
  destruct (Scene.fboRead _) as [rd |].
  - apply (frames_fieldInRange fs Scene.mounted Hfs mounted_fieldInRange).
  - unfold texelInRange. simpl. lra.
Qed.

(** X11: a field left alone fades out everywhere.  For every decay rate
    d > 0 there is a number N of frames such that, after any frames with
    parameters in range, N or more frames in which neither fingertip is
    faster than 0.02 (as for undetected hands, whose velocity is 0) and whose
    decay rate is at least d leave the current generation with intensity
    exactly 0 at every texture coordinate. *)
Theorem quiet_field_fades (d : R) :
  0 < d ->
  exists N : nat,
    forall (pre fs : list Scene.Frame) (vUv : Vec2),
      Forall (fun f => paramsInRange (Scene.params f)) pre ->
      Forall (fun f => quiet (uniformsOf f)
                       /\ d <= Physics.smearDecayTime (Scene.params f)) fs ->
      (N <= List.length fs)%nat ->
      Smear.a (current (Scene.frames (pre ++ fs) Scene.mounted) vUv) = 0.
Proof.
  intros Hd. destruct (fade_out d Hd) as [N HN].
  exists N. intros pre fs vUv Hpre Hfs Hlen.
  rewrite frames_app, frames_current
    by apply frames_pingPong, mounted_pingPong.
  apply HN.
  - now apply current_in_range.
  - apply Forall_map. eapply Forall_impl; [| exact Hfs].
    intros f [Hq Hdec]. split; [exact Hdec | now apply quiet_unbrushed].
  - rewrite length_map. exact Hlen.
Qed.

Lemma quiet_field_fades_witness :
  exists N : nat,
    forall (pre fs : list Scene.Frame) (vUv : Vec2),
      Forall (fun f => paramsInRange (Scene.params f)) pre ->
      Forall (fun f => quiet (uniformsOf f)
                       /\ 0.05 <= Physics.smearDecayTime (Scene.params f))
        fs ->
      (N <= List.length fs)%nat ->
      Smear.a (current (Scene.frames (pre ++ fs) Scene.mounted) vUv) = 0.
Proof. apply (quiet_field_fades 0.05). lra. Defined.

(** ** Reach of the brush *)

Lemma smoothstep_outside (r p : R) :
  0 < r -> r <= p -> Smear.smoothstep r (r * 0.4) p = 0.
Proof.
  intros Hr Hp. unfold Smear.smoothstep.
  assert (Hq : (p - r) / (r * 0.4 - r) <= 0).
  { unfold Rdiv.
    assert (Hinv : / (r * 0.4 - r) < 0) by (apply Rinv_lt_0_compat; lra).
    nra. }
  assert (Ht : clamp ((p - r) / (r * 0.4 - r)) 0 1 = 0).
  { unfold clamp. rewrite Rmin_right by lra. apply Rmax_left. exact Hq. }
  rewrite Ht. lra.
Qed.

Lemma brushHand_outOfReach (u : Smear.Uniforms) (vUv pos vel : Vec2)
    (acc : Smear.Brush) :
  0 < Smear.uRadius u -> outOfReach u vUv pos vel ->
  Smear.brushHand u vUv pos vel acc = acc.
Proof.
  intros Hr Hout. unfold Smear.brushHand.
  destruct (Rgtb (vlength vel) 0.02) eqn:Hmag; [| reflexivity].
  apply Rltb_true in Hmag. destruct Hout as [Hslow | Hfar]; [lra |].
  replace (mkVec2 (vx pos) (1.0 - vy pos)) with (flipY pos)
    by (unfold flipY; f_equal; lra).
  rewrite (smoothstep_outside _ _ Hr Hfar).
  replace (Rgtb 0 0.0) with false by (symmetry; apply Rltb_false; lra).
  reflexivity.
Qed.

(** X12: the brush has a hard outer edge.  With a positive brush radius, a
    cell that for each hand is a radius or more away from the (y-flipped)
    fingertip, or whose hand is no faster than 0.02, is not drawn on: its
    direction and speed are kept and its intensity is the decayed one. *)
Theorem brush_is_local (u : Smear.Uniforms) (vUv : Vec2) (c : Smear.Texel) :
  0 < Smear.uRadius u ->
  outOfReach u vUv (fst (Smear.uIndexPos u)) (fst (Smear.uIndexVel u)) ->
  outOfReach u vUv (snd (Smear.uIndexPos u)) (snd (Smear.uIndexVel u)) ->
  ~ brushed u vUv
  /\ Smear.smearFragment u vUv c
     = Smear.mkTexel (Smear.rg c) (Smear.b c) (Smear.decayed u c).
Proof.
  intros Hr H0 H1.
  assert (Hn : ~ brushed u vUv).
  { unfold brushed, Smear.brushes.
    rewrite !brushHand_outOfReach by assumption.
    cbn [Smear.totalBrush]. lra. }
  split; [exact Hn | now apply unbrushed_step].
Qed.

Lemma brush_is_local_witness :
  ~ brushed Samples.crossing (mkVec2 0.9 0.9)
  /\ Smear.smearFragment Samples.crossing (mkVec2 0.9 0.9)
       (Smear.mkTexel None 0.5 0.5)
     = Smear.mkTexel (Smear.rg (Smear.mkTexel None 0.5 0.5))
         (Smear.b (Smear.mkTexel None 0.5 0.5))
         (Smear.decayed Samples.crossing (Smear.mkTexel None 0.5 0.5)).
Proof.
  assert (Hfar : Smear.uRadius Samples.crossing
                 <= vlength (vsub (mkVec2 0.9 0.9) (flipY (mkVec2 0.5 0.5)))).
  { unfold Samples.crossing. cbn [Smear.uRadius].
    replace 0.15 with (sqrt (0.15 * 0.15)) by (apply sqrt_square; lra).
    unfold vlength. apply sqrt_le_1_alt.
    unfold lengthSq, vsub, flipY. simpl. lra. }
  apply (brush_is_local Samples.crossing (mkVec2 0.9 0.9)
           (Smear.mkTexel None 0.5 0.5));
    [simpl; lra | right; exact Hfar | right; exact Hfar].
Defined.

(** ** Encoded direction and speed *)

Lemma normalize_unit (v n : Vec2) :
  Smear.normalize v = Some n -> lengthSq n = 1.
Proof.
  unfold Smear.normalize.
  destruct (Req_dec_T (vlength v) 0) as [E | Hne]; [discriminate |].
  intros H. injection H as <-.
  assert (Hsq : vlength v * vlength v = lengthSq v).
  { unfold vlength. apply sqrt_sqrt, lengthSq_nonneg. }
  revert Hne Hsq. generalize (vlength v). intros L Hne Hsq.
  unfold lengthSq in *. unfold vscale. cbn [vx vy].
  replace (vx v * / L * (vx v * / L) + vy v * / L * (vy v * / L))
    with ((vx v * vx v + vy v * vy v) * (/ L * / L)) by lra.
  rewrite <- Hsq. field. exact Hne.
Qed.

Lemma unit_components (n : Vec2) :
  lengthSq n = 1 -> -1 <= vx n <= 1 /\ -1 <= vy n <= 1.
Proof.
  unfold lengthSq. intros H.
  pose proof (Rle_0_sqr (vx n)) as Hx. pose proof (Rle_0_sqr (vy n)) as Hy.
  unfold Rsqr in Hx, Hy. repeat split; nra.
Qed.

Lemma mix_between (p q w : R) :
  0 <= p <= 1 -> 0 <= q <= 1 -> 0 <= w <= 1 -> 0 <= Smear.mix p q w <= 1.
Proof. intros Hp Hq Hw. unfold Smear.mix. nra. Qed.

Lemma smearFragment_encoded (u : Smear.Uniforms) (vUv : Vec2)
    (c : Smear.Texel) :
  encodedInRange c -> encodedInRange (Smear.smearFragment u vUv c).
Proof.
  intros [Hb Hdir].
  destruct (brushes_nonneg u vUv) as [Htb Hms].
  unfold Smear.smearFragment, encodedInRange.
  destruct (Rgtb _ 0.0) eqn:E; cbn [Smear.b Smear.rg];
    [| split; [exact Hb | exact Hdir]].
  apply Rltb_true in E.
  assert (Hw : 0 <= Rmin 1.0 (Smear.totalBrush (Smear.brushes u vUv) * 2.5)
               <= 1).
  { split; [apply Rmin_glb; lra |].
    eapply Rle_trans; [apply Rmin_l | lra]. }
  split.
  - pose proof (clamp_bounds (Smear.maxInputSpeed (Smear.brushes u vUv))
                  0.0 1.0 ltac:(lra)) as Hc.
    apply mix_between; [exact Hb | lra | exact Hw].
  - intros d Hd.
    destruct (Smear.rg c) as [old |]; [| discriminate].
    destruct (Smear.totalVel (Smear.brushes u vUv)) as [tv |];
      [| discriminate].
    cbn [bind] in Hd.
    destruct (Smear.normalize tv) as [n |] eqn:En; [| discriminate].
    cbn [bind] in Hd. injection Hd as <-. cbn [vx vy].
    destruct (Hdir old eq_refl) as [Hox Hoy].
    destruct (unit_components n (normalize_unit tv n En)) as [Hnx Hny].
    split; (apply mix_between; [assumption | lra | exact Hw]).
Qed.

Lemma frames_encoded (fs : list Scene.Frame) (s : Scene.SceneState) :
  (forall t vUv, encodedInRange (Scene.textures s t vUv)) ->
  forall t vUv, encodedInRange (Scene.textures (Scene.frames fs s) t vUv).
Proof.
  revert s. induction fs as [| f fs IH]; intros s Hs; simpl; [exact Hs |].
  apply IH. intros t vUv. unfold Scene.useFrame.
  destruct (Scene.fboRead s) as [rd |]; [| apply Hs].
  destruct (Scene.fboWrite s) as [wr |]; [| apply Hs].
  cbn [Scene.textures]. unfold Scene.render.
  destruct (Scene.Target_eqb t wr); [| apply Hs].
  apply smearFragment_encoded, Hs.
Qed.

(** X13: whatever the hands and the parameters are, every texel of either
    generation of a mounted scene has its encoded speed in [0,1] and, while
    its direction is defined, both encoded direction components in [0,1]. *)
Theorem encoded_channels_in_range (fs : list Scene.Frame) (t : Scene.Target)
    (vUv : Vec2) :
  encodedInRange (Scene.textures (Scene.frames fs Scene.mounted) t vUv).
Proof.
  apply frames_encoded. intros t' vUv'. unfold encodedInRange. simpl.
  split; [lra |]. intros d Hd. injection Hd as <-. simpl. lra.
Qed.

(** ** Momentum *)

Lemma decayed_nonneg (u : Smear.Uniforms) (c : Smear.Texel) :
  0 <= Smear.decayed u c.
Proof.
  destruct (decayed_formula u c) as [Hlo Hhi].
  destruct (Rlt_dec (decayFormula (Smear.uDecay u) c) 0.005) as [H | H].
  - rewrite (Hlo H). lra.
  - rewrite (Hhi ltac:(lra)). lra.
Qed.

(** X14: faster strokes linger longer.  For a non-negative decay rate, of
    two texels the one with at least the intensity and at least the stored
    speed of the other has at least the other's intensity after the decay
    step; and the decay step never yields a negative intensity. *)
Theorem decay_is_monotone (u : Smear.Uniforms) (c1 c2 : Smear.Texel) :
  0 <= Smear.uDecay u ->
  0 <= Smear.a c1 <= Smear.a c2 ->
  0 <= Smear.b c1 <= Smear.b c2 ->
  Smear.decayed u c1 <= Smear.decayed u c2
  /\ 0 <= Smear.decayed u c1.
Proof.
  intros Hd Ha Hb. split; [| apply decayed_nonneg].
  pose proof (decayed_nonneg u c2) as H2.
  destruct (decayed_formula u c1) as [Hlo1 Hhi1].
  destruct (decayed_formula u c2) as [Hlo2 Hhi2].
  unfold decayFormula in *.
  destruct (Rlt_dec (Smear.a c1 * (1 - Smear.uDecay u / (1 + 2 * Smear.b c1)))
              0.005) as [H | H].
  - rewrite (Hlo1 H). exact H2.
  - rewrite (Hhi1 ltac:(lra)).
    assert (Hk : 1 - Smear.uDecay u / (1 + 2 * Smear.b c1)
                 <= 1 - Smear.uDecay u / (1 + 2 * Smear.b c2)).
    { assert (/ (1 + 2 * Smear.b c2) <= / (1 + 2 * Smear.b c1))
        by (apply Rinv_le_contravar; lra).
      unfold Rdiv. nra. }
    revert H Hk Hlo2 Hhi2 H2.
    generalize (1 - Smear.uDecay u / (1 + 2 * Smear.b c1)),
      (1 - Smear.uDecay u / (1 + 2 * Smear.b c2)).
    intros k1 k2 H Hk Hlo2 Hhi2 H2.
    assert (Hk1 : 0 < k1) by nra.
    assert (Hv : Smear.a c1 * k1 <= Smear.a c2 * k2).
    { apply Rmult_le_compat; lra. }
    rewrite Hhi2 by lra. exact Hv.
Qed.

Lemma decay_is_monotone_witness :
  Smear.decayed Samples.crossing (Smear.mkTexel None 0.1 0.5)
  <= Smear.decayed Samples.crossing (Smear.mkTexel None 0.9 0.5)
  /\ 0 <= Smear.decayed Samples.crossing (Smear.mkTexel None 0.1 0.5).
Proof.
  apply (decay_is_monotone Samples.crossing (Smear.mkTexel None 0.1 0.5)
           (Smear.mkTexel None 0.9 0.5));
    simpl; lra.
Defined.

(** ** The two hands in the smear pass *)

Lemma brushes_swap (u : Smear.Uniforms) (vUv : Vec2) :
  Smear.brushes (swapHands u) vUv = Smear.brushes u vUv.
Proof.
  unfold Smear.brushes, swapHands, Smear.brushHand.
  cbn [Smear.uIndexPos Smear.uIndexVel Smear.uRadius fst snd].
  destruct (Smear.uIndexPos u) as [p0 p1], (Smear.uIndexVel u) as [v0 v1].
  cbn [fst snd].
  destruct (Rgtb (vlength v0) 0.02) eqn:M0;
    destruct (Rgtb (vlength v1) 0.02) eqn:M1; try reflexivity;
    try (destruct (Rgtb (Smear.smoothstep _ _ _) 0.0); reflexivity).
  - destruct (Rgtb (Smear.smoothstep (Smear.uRadius u) (Smear.uRadius u * 0.4)
                      (vlength (vsub vUv (mkVec2 (vx p0) (1.0 - vy p0)))))
                0.0) eqn:B0;
      destruct (Rgtb (Smear.smoothstep (Smear.uRadius u)
                        (Smear.uRadius u * 0.4)
                        (vlength (vsub vUv (mkVec2 (vx p1) (1.0 - vy p1)))))
                  0.0) eqn:B1;
      try reflexivity.
    cbn [Smear.totalBrush Smear.totalVel Smear.maxInputSpeed bind].
    rewrite (normalize_moving v0 M0), (normalize_moving v1 M1). cbn [bind].
    f_equal.
    + lra.
    + f_equal. unfold vadd, vscale. cbn [vx vy]. f_equal; lra.
    + rewrite <- !Rmax_assoc. f_equal. apply Rmax_comm.
Qed.

(** X15: the smear pass does not care which slot a hand occupies.
    Exchanging the fingertip positions and velocities of the two hands leaves
    every written texel the same. *)
Theorem smear_ignores_hand_order (u : Smear.Uniforms) (vUv : Vec2)
    (c : Smear.Texel) :
  Smear.smearFragment (swapHands u) vUv c = Smear.smearFragment u vUv c.
Proof.
  unfold Smear.smearFragment. rewrite brushes_swap. reflexivity.
Qed.

(** ** The hands in the frame callback *)

Lemma useFrame_physics (f : Scene.Frame) (s : Scene.SceneState) (i : nat) :
  pingPong s ->
  let s' := Scene.useFrame f s in
  pick i (Scene.physicsRefs s')
  = Physics.update (pick i (Scene.physicsRefs s)) (fst (fst (handTick i f)))
      (snd (fst (handTick i f))) (Scene.params f) (snd (handTick i f))
  /\ pick i (Scene.uStretchVector s')
     = Physics.currentStretch (pick i (Scene.physicsRefs s'))
  /\ pick i (Scene.uStretchAnchor s')
     = Physics.anchorPoint (pick i (Scene.physicsRefs s'))
  /\ pick i (Scene.uHandGesture s')
     = Scene.gestureInt (Classifier.hp_gesture (pick i (Scene.hands f))).
Proof.
  intros (rd & wr & Hr & Hw & _) s'. unfold s', Scene.useFrame.
  rewrite Hr, Hw.
  cbn [Scene.physicsRefs Scene.uStretchVector Scene.uStretchAnchor
       Scene.uHandGesture].
  destruct i; repeat split.
Qed.

Lemma frames_physics (params : Physics.FluidParams) (i : nat)
    (fs : list Scene.Frame) (s : Scene.SceneState) :
  pingPong s ->
  Forall (fun f => Scene.params f = params) fs ->
  pick i (Scene.physicsRefs (Scene.frames fs s))
  = Physics.run (map (handTick i) fs) params (pick i (Scene.physicsRefs s)).
Proof.
  intros Hs Hall. revert s Hs.
  induction Hall as [| f fs Hf _ IH]; intros s Hs; [reflexivity |].
  cbn [Scene.frames map]. rewrite (IH _ (useFrame_pingPong f s Hs)).
  destruct (useFrame_physics f s i Hs) as (E & _). rewrite E, Hf.
  unfold handTick at 4. reflexivity.
Qed.

Lemma frames_stretch_uniform (fs : list Scene.Frame) (i : nat) :
  let s := Scene.frames fs Scene.mounted in
  pick i (Scene.uStretchVector s)
  = Physics.currentStretch (pick i (Scene.physicsRefs s))
  /\ pick i (Scene.uStretchAnchor s)
     = Physics.anchorPoint (pick i (Scene.physicsRefs s)).
Proof.
  induction fs as [| f fs IH] using rev_ind.
  - destruct i; split; reflexivity.
  - cbv zeta. rewrite frames_app. cbn [Scene.frames].
    destruct (useFrame_physics f (Scene.frames fs Scene.mounted) i
                (frames_pingPong fs _ mounted_pingPong)) as (_ & E1 & E2 & _).
    split; assumption.
Qed.

Lemma constant_release (params : Physics.FluidParams) (h : R)
    (p : Physics.HandPhysics) :
  0 <= Physics.reboundElasticity params <= 1 ->
  0 < h <= 0.1 ->
  exists N : nat,
    forall ticks : list (Vec2 * GestureType * R),
      Forall (idleTick h h) ticks ->
      (N <= List.length ticks)%nat ->
      Physics.run ticks params p = rest p.
Proof.
  intros He Hh.
  destruct (constant_settles params h He Hh p) as [N HN].
  exists (S N). intros ticks Hall Hlen.
  destruct (exists_last (l := ticks)) as (front & tick & ->).
  { intros ->. simpl in Hlen. lia. }
  rewrite length_app, Nat.add_1_r in Hlen.
  apply (run_idle_last params h h front tick p Hall).
  apply Forall_app in Hall. destruct Hall as [Hall Htick].
  apply Forall_inv in Htick. destruct Htick as [_ Hd].
  replace (snd tick) with h by lra.
  apply HN; [| rewrite length_map; lia].
  apply Forall_map. eapply Forall_impl; [| exact Hall].
  intros t [_ Ht]. lra.
Qed.

(** X16: a released stretch leaves the picture.  In a mounted scene with an
    elasticity in [0,1], after any frames, once hand i stops pinching and the
    frames keep the same parameters and the same positive frame delta, the
    stretch vector handed to the composite pass for that hand is exactly
    (0,0) from some frame on, so the pass skips its stretch term. *)
Theorem scene_release_clears_stretch (params : Physics.FluidParams) (h : R)
    (i : nat) (pre : list Scene.Frame) :
  0 <= Physics.reboundElasticity params <= 1 ->
  0 < h ->
  exists N : nat,
    forall fs : list Scene.Frame,
      Forall (releasedFrame params h i) fs ->
      (N <= List.length fs)%nat ->
      pick i (Scene.uStretchVector (Scene.frames (pre ++ fs) Scene.mounted))
      = mkVec2 0 0.
Proof.
  intros He Hh.
  assert (Hdt : 0 < Rmin h 0.1 <= 0.1).
  { split; [apply Rmin_glb_lt; lra | apply Rmin_r]. }
  destruct (constant_release params (Rmin h 0.1)
              (pick i (Scene.physicsRefs (Scene.frames pre Scene.mounted)))
              He Hdt) as [N HN].
  exists N. intros fs Hall Hlen.
  destruct (frames_stretch_uniform (pre ++ fs) i) as [E _].
  cbv zeta in E. rewrite E, frames_app.
  assert (Hparams : Forall (fun f => Scene.params f = params) fs).
  { eapply Forall_impl; [| exact Hall]. intros f Hf. apply Hf. }
  rewrite (frames_physics params i fs _
             (frames_pingPong pre _ mounted_pingPong) Hparams).
  rewrite HN; [reflexivity | | rewrite length_map; exact Hlen].
  apply Forall_map. eapply Forall_impl; [| exact Hall].
  intros f (_ & Hdelta & Hg). unfold idleTick, handTick. cbn [fst snd].
  rewrite Hdelta. split; [exact Hg | lra].
Qed.

Lemma scene_release_clears_stretch_witness :
  exists N : nat,
    forall fs : list Scene.Frame,
      Forall (releasedFrame Physics.DEFAULT_PARAMS 0.016 0) fs ->
      (N <= List.length fs)%nat ->
      pick 0
        (Scene.uStretchVector
           (Scene.frames ([Samples.quietFrame] ++ fs) Scene.mounted))
      = mkVec2 0 0.
Proof.
  apply (scene_release_clears_stretch Physics.DEFAULT_PARAMS 0.016 0
           [Samples.quietFrame]);
    simpl; lra.
Defined.

Lemma update_dragging_iff (p : Physics.HandPhysics) (handPos : Vec2)
    (gesture : GestureType) (params : Physics.FluidParams) (dt : R) :
  Physics.isDragging (Physics.update p handPos gesture params dt) = true
  <-> Scene.gestureInt gesture = 2%nat.
Proof.
  destruct gesture.
  - destruct (update_idle_frame p handPos NONE params dt ltac:(discriminate))
      as (_ & Hd & _). rewrite Hd. simpl. split; [discriminate | lia].
  - destruct (update_idle_frame p handPos PALM params dt ltac:(discriminate))
      as (_ & Hd & _). rewrite Hd. simpl. split; [discriminate | lia].
  - destruct (Physics.isDragging p) eqn:E.
    + rewrite (update_pinch_dragging p handPos params dt E). simpl. tauto.
    + rewrite (update_pinch_start p handPos params dt E). simpl. tauto.
Qed.

(** X17: what the composite pass is told about a hand agrees with the
    physics of the same frame.  After every frame of a mounted scene, for
    each hand, the gesture code is 0, 1 or 2, it is 2 exactly when the
    hand's physics is dragging, and the stretch vector and anchor uniforms
    are those of the physics after this frame's update. *)
Theorem composite_inputs_agree (fs : list Scene.Frame) (f : Scene.Frame)
    (i : nat) :
  let s := Scene.frames (fs ++ [f]) Scene.mounted in
  (pick i (Scene.uHandGesture s) <= 2)%nat
  /\ (Physics.isDragging (pick i (Scene.physicsRefs s)) = true
      <-> pick i (Scene.uHandGesture s) = 2%nat)
  /\ pick i (Scene.uStretchVector s)
     = Physics.currentStretch (pick i (Scene.physicsRefs s))
  /\ pick i (Scene.uStretchAnchor s)
     = Physics.anchorPoint (pick i (Scene.physicsRefs s)).
Proof.
  cbv zeta. rewrite frames_app. cbn [Scene.frames].
  destruct (useFrame_physics f (Scene.frames fs Scene.mounted) i
              (frames_pingPong fs _ mounted_pingPong))
    as (Ep & Es & Ea & Eg).
  cbv zeta in Ep, Es, Ea, Eg. rewrite Eg, Es, Ea, Ep.
  split; [destruct (Classifier.hp_gesture _); simpl; lia |].
  split; [apply update_dragging_iff |]. split; reflexivity.
Qed.

(** ** The cover mapping *)

Lemma cover_axis (p r : R) :
  0 <= p <= 1 -> 0 < r <= 1 -> 0 <= p * r + (1.0 - r) * 0.5 <= 1.
Proof. intros Hp Hr. nra. Qed.

Lemma cover_ratio (q : R) : 0 < q -> 0 < Rmin q 1.0 <= 1.
Proof.
  intros Hq. split; [apply Rmin_glb_lt; lra |].
  eapply Rle_trans; [apply Rmin_r | lra].
Qed.

(** X18: for positive screen and video resolutions the cover mapping keeps
    the unit square inside itself (the video is never sampled outside its
    edges), fixes the centre, leaves at least one of the two axes untouched,
    and is the identity when both aspect ratios agree. *)
Theorem cover_mapping (screenUV screenRes texRes : Vec2) :
  0 < vx screenRes -> 0 < vy screenRes -> 0 < vx texRes -> 0 < vy texRes ->
  let out := Composite.getCoverUV screenUV screenRes texRes in
  (0 <= vx screenUV <= 1 -> 0 <= vy screenUV <= 1 ->
   0 <= vx out <= 1 /\ 0 <= vy out <= 1)
  /\ Composite.getCoverUV (mkVec2 0.5 0.5) screenRes texRes = mkVec2 0.5 0.5
  /\ (vx out = vx screenUV \/ vy out = vy screenUV)
  /\ (vx screenRes * vy texRes = vx texRes * vy screenRes ->
      out = screenUV).
Proof.
  intros Hsx Hsy Htx Hty out.
  set (q := (vx screenRes / vy screenRes) / (vx texRes / vy texRes)).
  set (q' := (vy screenRes / vx screenRes) / (vy texRes / vx texRes)).
  assert (Hq : 0 < q).
  { unfold q. repeat apply Rdiv_lt_0_compat; assumption. }
  assert (Hq' : 0 < q').
  { unfold q'. repeat apply Rdiv_lt_0_compat; assumption. }
  assert (Hinv : q * q' = 1) by (unfold q, q'; field; repeat split; lra).
  assert (Hout : out = mkVec2 (vx screenUV * Rmin q 1.0
                               + (1.0 - Rmin q 1.0) * 0.5)
                          (vy screenUV * Rmin q' 1.0
                           + (1.0 - Rmin q' 1.0) * 0.5)) by reflexivity.
  pose proof (cover_ratio q Hq) as Hr. pose proof (cover_ratio q' Hq') as Hr'.
  split; [| split; [| split]].
  - intros Hx Hy. rewrite Hout. cbn [vx vy].
    split; now apply cover_axis.
  - unfold Composite.getCoverUV. cbn [vx vy]. fold q q'.
    f_equal; lra.
  - rewrite Hout. cbn [vx vy].
    destruct (Rle_dec 1 q) as [Hge | Hlt].
    + left. rewrite Rmin_right by lra. lra.
    + right. assert (1 < q') by nra. rewrite Rmin_right by lra. lra.
  - intros Haspect.
    assert (Eq : q = 1).
    { unfold q. field_simplify_eq; [| repeat split; lra]. lra. }
    assert (Eq' : q' = 1) by nra.
    rewrite Hout, Eq, Eq'. rewrite Rmin_right by lra.
    destruct screenUV as [sx sy]. cbn [vx vy]. f_equal; lra.
Qed.

Lemma cover_mapping_witness :
  let out :=
    Composite.getCoverUV (mkVec2 0.25 0.75) (mkVec2 1920 1080)
      (mkVec2 1280 720) in
  (0 <= vx (mkVec2 0.25 0.75) <= 1 -> 0 <= vy (mkVec2 0.25 0.75) <= 1 ->
   0 <= vx out <= 1 /\ 0 <= vy out <= 1)
  /\ Composite.getCoverUV (mkVec2 0.5 0.5) (mkVec2 1920 1080)
       (mkVec2 1280 720) = mkVec2 0.5 0.5
  /\ (vx out = vx (mkVec2 0.25 0.75) \/ vy out = vy (mkVec2 0.25 0.75))
  /\ (vx (mkVec2 1920 1080) * vy (mkVec2 1280 720)
      = vx (mkVec2 1280 720) * vy (mkVec2 1920 1080) ->
      out = mkVec2 0.25 0.75).
Proof.
  apply (cover_mapping (mkVec2 0.25 0.75) (mkVec2 1920 1080)
           (mkVec2 1280 720));
    simpl; lra.
Defined.

(** ** The stretch term *)

Lemma smoothstep_falling (edge0 edge1 p : R) :
  edge1 < edge0 ->
  (edge0 <= p -> Smear.smoothstep edge0 edge1 p = 0)
  /\ (p <= edge1 -> Smear.smoothstep edge0 edge1 p = 1).
Proof.
  intros He. unfold Smear.smoothstep.
  assert (Hinv : / (edge1 - edge0) < 0) by (apply Rinv_lt_0_compat; lra).
  assert (Hone : (edge1 - edge0) * / (edge1 - edge0) = 1)
    by (apply Rinv_r; lra).
  split; intros Hp.
  - assert (Hq : (p - edge0) / (edge1 - edge0) <= 0) by (unfold Rdiv; nra).
    assert (Ht : clamp ((p - edge0) / (edge1 - edge0)) 0 1 = 0).
    { unfold clamp. rewrite Rmin_right by lra. apply Rmax_left. exact Hq. }
    rewrite Ht. lra.
  - assert (Hq : 1 <= (p - edge0) / (edge1 - edge0)) by (unfold Rdiv; nra).
    assert (Ht : clamp ((p - edge0) / (edge1 - edge0)) 0 1 = 1).
    { unfold clamp. rewrite Rmin_left by lra. apply Rmax_right. lra. }
    rewrite Ht. lra.
Qed.

(** X19: the grab of a pinch is local.  With a positive blend softness, the
    stretch term of a hand adds nothing for a stretch no longer than 0.001
    (as for a spring at rest) and nothing at a pixel whose aspect-corrected
    distance from the anchor is at least grab radius plus softness; at a
    pixel within grab radius minus half the softness it adds the whole
    stretch vector times (1 - stiffness / 2) and twice the stretch length to
    the height. *)
Theorem grab_is_local (u : Composite.Grab) (mirrorUV : Vec2) (aspect : R)
    (stretchVec anchor : Vec2) (acc : Vec2 * R) :
  0 < Composite.uBlendSoftness u ->
  let dist := Composite.grabDistance mirrorUV aspect anchor in
  let term := Composite.pinchTerm u mirrorUV aspect stretchVec anchor acc in
  (vlength stretchVec <= 0.001 -> term = acc)
  /\ (Composite.uGrabRadius u + Composite.uBlendSoftness u <= dist ->
      term = acc)
  /\ (0.001 < vlength stretchVec ->
      dist <= Composite.uGrabRadius u - Composite.uBlendSoftness u * 0.5 ->
      term
      = (vadd (fst acc)
           (vscale stretchVec (1 - Composite.uStretchStiffness u / 2)),
         snd acc + 2 * vlength stretchVec)).
Proof.
  intros Hs dist term.
  destruct (smoothstep_falling
              (Composite.uGrabRadius u + Composite.uBlendSoftness u)
              (Composite.uGrabRadius u - Composite.uBlendSoftness u * 0.5)
              dist ltac:(lra)) as [Hout Hin].
  unfold term, Composite.pinchTerm. fold (Composite.grabDistance mirrorUV aspect anchor).
  fold dist. destruct acc as [[ax ay] height].
  split; [| split].
  - intros Hshort.
    replace (Rgtb (vlength stretchVec) 0.001) with false
      by (symmetry; apply Rltb_false; exact Hshort).
    reflexivity.
  - intros Hfar. destruct (Rgtb (vlength stretchVec) 0.001); [| reflexivity].
    rewrite (Hout Hfar). unfold vadd, vscale. cbn [fst snd vx vy].
    f_equal; [f_equal |]; lra.
  - intros Hlong Hnear.
    replace (Rgtb (vlength stretchVec) 0.001) with true
      by (symmetry; apply Rltb_true; exact Hlong).
    rewrite (Hin Hnear). unfold vadd, vscale. cbn [fst snd vx vy].
    f_equal; [f_equal |]; lra.
Qed.

Lemma grab_is_local_witness :
  let u := Composite.mkGrab 0.35 0.4 0.6 in
  let dist := Composite.grabDistance (mkVec2 0.5 0.5) 1 (mkVec2 0.5 0.5) in
  let term :=
    Composite.pinchTerm u (mkVec2 0.5 0.5) 1 (mkVec2 0 0) (mkVec2 0.5 0.5)
      (mkVec2 0 0, 0) in
  (vlength (mkVec2 0 0) <= 0.001 -> term = (mkVec2 0 0, 0))
  /\ (Composite.uGrabRadius u + Composite.uBlendSoftness u <= dist ->
      term = (mkVec2 0 0, 0))
  /\ (0.001 < vlength (mkVec2 0 0) ->
      dist <= Composite.uGrabRadius u - Composite.uBlendSoftness u * 0.5 ->
      term
      = (vadd (fst (mkVec2 0 0, 0))
           (vscale (mkVec2 0 0) (1 - Composite.uStretchStiffness u / 2)),
         snd (mkVec2 0 0, 0) + 2 * vlength (mkVec2 0 0))).
Proof.
  apply (grab_is_local (Composite.mkGrab 0.35 0.4 0.6) (mkVec2 0.5 0.5) 1
           (mkVec2 0 0) (mkVec2 0.5 0.5) (mkVec2 0 0, 0)).
  simpl. lra.
Defined.

(** ** A full brush *)

Lemma vlength_unit (n : Vec2) : lengthSq n = 1 -> vlength n = 1.
Proof. intros H. unfold vlength. rewrite H. apply sqrt_1. Qed.

(** X20: at the heart of a single stroke the cell is overwritten.  With a
    positive brush radius, when one hand is faster than 0.02 with its
    fingertip within 0.4 radius of the cell and the other hand does not
    reach the cell, the written intensity is the decayed one plus the
    intensity gain, capped at 1; the written speed is the hand's speed,
    capped at 1; and a texel with a defined direction gets the encoding of
    the stroke's unit direction, nothing of its old direction and speed
    remaining. *)
Theorem full_brush_overwrites (u : Smear.Uniforms) (vUv : Vec2)
    (c : Smear.Texel) (old : Vec2) :
  0 < Smear.uRadius u ->
  0.02 < vlength (fst (Smear.uIndexVel u)) ->
  vlength (vsub vUv (flipY (fst (Smear.uIndexPos u))))
  <= Smear.uRadius u * 0.4 ->
  outOfReach u vUv (snd (Smear.uIndexPos u)) (snd (Smear.uIndexVel u)) ->
  Smear.rg c = Some old ->
  let vel := fst (Smear.uIndexVel u) in
  let c' := Smear.smearFragment u vUv c in
  Smear.a c' = Rmin 1 (Smear.decayed u c + Smear.uIntensity u)
  /\ Smear.b c' = Rmin 1 (vlength vel)
  /\ Smear.rg c'
     = Some (mkVec2 (vx vel / vlength vel * 0.5 + 0.5)
               (vy vel / vlength vel * 0.5 + 0.5)).
Proof.
  intros Hr Hfast Hnear Hout Hold vel c'.
  assert (Hmag : Rgtb (vlength vel) 0.02 = true) by (apply Rltb_true; exact Hfast).
  destruct (smoothstep_falling (Smear.uRadius u) (Smear.uRadius u * 0.4)
              (vlength (vsub vUv (flipY (fst (Smear.uIndexPos u)))))
              ltac:(lra)) as [_ Hin].
  assert (Hb : Smear.brushes u vUv
               = Smear.mkBrush (0.0 + 1)
                   (Some (vadd (mkVec2 0.0 0.0)
                            (vscale (vscale vel (/ vlength vel)) 1)))
                   (Rmax 0.0 (vlength vel))).
  { unfold Smear.brushes.
    rewrite (brushHand_outOfReach u vUv _ _ _ Hr Hout).
    unfold Smear.brushHand. fold vel. rewrite Hmag.
    replace (mkVec2 (vx (fst (Smear.uIndexPos u)))
               (1.0 - vy (fst (Smear.uIndexPos u))))
      with (flipY (fst (Smear.uIndexPos u)))
      by (unfold flipY; f_equal; lra).
    rewrite (Hin Hnear).
    replace (Rgtb 1 0.0) with true by (symmetry; apply Rltb_true; lra).
    cbn [Smear.totalBrush Smear.totalVel Smear.maxInputSpeed bind].
    rewrite (normalize_moving vel Hmag). reflexivity. }
  pose proof (normalize_unit vel _ (normalize_moving vel Hmag)) as Hunit.
  set (n := vscale vel (/ vlength vel)) in *.
  assert (Hsum : vadd (mkVec2 0.0 0.0) (vscale n 1) = n).
  { unfold vadd, vscale. destruct n as [nx ny]. cbn [vx vy]. f_equal; lra. }
  assert (Hnn : Smear.normalize n = Some (vscale n (/ 1))).
  { unfold Smear.normalize. rewrite (vlength_unit n Hunit).
    destruct (Req_dec_T 1 0); [lra | reflexivity]. }
  unfold c', Smear.smearFragment. rewrite Hb.
  cbn [Smear.totalBrush Smear.totalVel Smear.maxInputSpeed bind].
  replace (Rgtb (0.0 + 1) 0.0) with true by (symmetry; apply Rltb_true; lra).
  rewrite Hsum, Hnn, Hold.
  cbn [bind Smear.a Smear.b Smear.rg].
  assert (Hw : Rmin 1.0 ((0.0 + 1) * 2.5) = 1).
  { rewrite Rmin_left by lra. lra. }
  rewrite Hw. unfold Smear.mix.
  pose proof (vlength_nonneg vel) as Hv.
  split; [| split].
  - f_equal; lra.
  - unfold clamp. rewrite (Rmax_right 0.0 (vlength vel)) by lra.
    assert (Hm : 0 <= Rmin 1.0 (vlength vel)) by (apply Rmin_glb; lra).
    rewrite (Rmax_right 0.0 _) by lra.
    replace 1.0 with 1 by lra. lra.
  - unfold n, vscale. cbn [vx vy]. rewrite Rinv_1. unfold Rdiv.
    f_equal. f_equal; lra.
Qed.

Lemma full_brush_overwrites_witness :
  let u :=
    Smear.mkUniforms (mkVec2 0.5 0.5, mkVec2 0.5 0.5)
      (mkVec2 1 0, mkVec2 0 0) 0.05 0.15 0.8 in
  let c := Smear.mkTexel (Some (mkVec2 0 0)) 0 0 in
  let vel := fst (Smear.uIndexVel u) in
  let c' := Smear.smearFragment u (mkVec2 0.5 0.5) c in
  Smear.a c' = Rmin 1 (Smear.decayed u c + Smear.uIntensity u)
  /\ Smear.b c' = Rmin 1 (vlength vel)
  /\ Smear.rg c'
     = Some (mkVec2 (vx vel / vlength vel * 0.5 + 0.5)
               (vy vel / vlength vel * 0.5 + 0.5)).
Proof.
  assert (H1 : vlength (mkVec2 1 0) = 1)
    by (apply vlength_of; [lra | unfold lengthSq; simpl; lra]).
  assert (H0 : vlength (mkVec2 0 0) = 0)
    by (apply vlength_of; [lra | unfold lengthSq; simpl; lra]).
  apply (full_brush_overwrites
           (Smear.mkUniforms (mkVec2 0.5 0.5, mkVec2 0.5 0.5)
              (mkVec2 1 0, mkVec2 0 0) 0.05 0.15 0.8)
           (mkVec2 0.5 0.5) (Smear.mkTexel (Some (mkVec2 0 0)) 0 0)
           (mkVec2 0 0)).
  - simpl. lra.
  - cbn [Smear.uIndexVel fst]. rewrite H1. lra.
  - cbn [Smear.uIndexPos Smear.uRadius fst].
    replace (vlength (vsub (mkVec2 0.5 0.5) (flipY (mkVec2 0.5 0.5)))) with 0
      by (symmetry; apply vlength_of; [lra |];
          unfold lengthSq, vsub, flipY; simpl; lra).
    lra.
  - left. cbn [Smear.uIndexVel snd]. rewrite H0. lra.
  - reflexivity.
Defined.

(** ** The sound targets *)

Lemma measure_ranges (hand : Classifier.HandPoint) (m : Audio.Metrics) :
  0 <= Audio.maxSmearVelocity m <= 1 ->
  0 <= Audio.maxPinchStretch m <= 1 ->
  0 <= Audio.maxPalmProximity m ->
  let m' := Audio.measure hand m in
  0 <= Audio.maxSmearVelocity m' <= 1
  /\ 0 <= Audio.maxPinchStretch m' <= 1
  /\ 0 <= Audio.maxPalmProximity m'
  /\ (forall top, Audio.maxPalmProximity m <= top ->
        Classifier.hp_z hand <= top -> Audio.maxPalmProximity m' <= top).
Proof.
  intros Hs Hp Hz m'.
  pose proof (hypot_nonneg (Classifier.tip_vx (Classifier.hp_indexTip hand))
                (Classifier.tip_vy (Classifier.hp_indexTip hand))) as Hv.
  assert (Hsm : 0 <= Rmax (Audio.maxSmearVelocity m)
                       (Rmin (hypot (Classifier.tip_vx
                                       (Classifier.hp_indexTip hand))
                                (Classifier.tip_vy
                                   (Classifier.hp_indexTip hand)) / 3.0) 1.0)
                <= 1).
  { split.
    - eapply Rle_trans; [| apply Rmax_l]. lra.
    - apply Rmax_lub; [lra |]. eapply Rle_trans; [apply Rmin_r | lra]. }
  assert (Hpi : 0 <= Rmax (Audio.maxPinchStretch m)
                       (Rmin (hypot (Classifier.tip_vx
                                       (Classifier.hp_indexTip hand))
                                (Classifier.tip_vy
                                   (Classifier.hp_indexTip hand)) / 2.0) 1.0)
                <= 1).
  { split.
    - eapply Rle_trans; [| apply Rmax_l]. lra.
    - apply Rmax_lub; [lra |]. eapply Rle_trans; [apply Rmin_r | lra]. }
  assert (Hpa : 0 <= Rmax (Audio.maxPalmProximity m) (Classifier.hp_z hand))
    by (eapply Rle_trans; [| apply Rmax_l]; lra).
  unfold m', Audio.measure.
  destruct (GestureType_eqb (Classifier.hp_gesture hand) PINCH);
    destruct (GestureType_eqb (Classifier.hp_gesture hand) PALM);
    cbn [Audio.maxSmearVelocity Audio.maxPinchStretch Audio.maxPalmProximity];
    (split; [exact Hsm |]); (split; [first [exact Hpi | exact Hp] |]);
    (split; [first [exact Hpa | exact Hz] |]);
    intros top Ht Hh; first [now apply Rmax_lub | exact Ht].
Qed.

(** X21: the sound targets stay in their bands for every pair of hand
    records and every time: the friction volume in [0, 0.3] and its filter in
    [300, 1200] Hz, the tension volume 0 or 0.2 and its first oscillator in
    [100, 250] Hz with the second 2% above it, the water volume in [0, 1] and
    the water filter at 100 Hz or more, and at 1200 Hz or less when both
    proximities are at most 1. *)
Theorem audio_targets_in_range (hands : Classifier.HandData) (now : R) :
  let t := Audio.updateAudio hands now in
  0 <= Audio.smearVol t <= 0.3
  /\ 300 <= Audio.smearFreq t <= 1200
  /\ (Audio.pinchVol t = 0 \/ Audio.pinchVol t = 0.2)
  /\ 100 <= Audio.pinchFreq1 t <= 250
  /\ Audio.pinchFreq2 t = Audio.pinchFreq1 t * 1.02
  /\ 0 <= Audio.palmVol t <= 1
  /\ 100 <= Audio.waterFreq t
  /\ (Classifier.hp_z (fst hands) <= 1 -> Classifier.hp_z (snd hands) <= 1 ->
      Audio.waterFreq t <= 1200).
Proof.
  cbv zeta.
  destruct (measure_ranges (fst hands) (Audio.mkMetrics 0 0 0 false))
    as (Hs0 & Hp0 & Hz0 & Ht0); try (simpl; lra).
  destruct (measure_ranges (snd hands)
              (Audio.measure (fst hands) (Audio.mkMetrics 0 0 0 false))
              Hs0 Hp0 Hz0) as (Hs & Hp & Hz & Ht).
  fold (Audio.metrics hands) in Hs, Hp, Hz, Ht.
  pose proof (SIN_bound (now * 2.5)) as Hsin.
  unfold Audio.updateAudio.
  cbn [Audio.smearVol Audio.smearFreq Audio.pinchVol Audio.pinchFreq1
       Audio.pinchFreq2 Audio.palmVol Audio.waterFreq].
  split; [destruct (Rgtb _ 0.05); lra |].
  split; [lra |].
  split; [destruct (Audio.activePinch _); [right | left]; reflexivity |].
  split; [lra |]. split; [reflexivity |].
  split.
  { destruct (Rgtb _ 0.01) eqn:E; [| lra].
    split; [apply Rmin_glb; lra |].
    eapply Rle_trans; [apply Rmin_r | lra]. }
  split; [lra |].
  intros H0 H1.
  assert (Audio.maxPalmProximity (Audio.metrics hands) <= 1).
  { apply Ht; [| exact H1]. apply Ht0; [simpl; lra | exact H0]. }
  lra.
Qed.

Lemma hypot_zero : hypot 0 0 = 0.
Proof.
  unfold hypot. replace (0 * 0 + 0 * 0) with 0 by lra. apply sqrt_0.
Qed.

(** X22: no hands, no sound.  On a frame in which the detector finds no
    hand, the pair of records the classifier exports sets the target volume
    of all three voices to exactly 0, whatever the slots held before. *)
Theorem no_hands_no_sound (results : Classifier.Results)
    (st : Classifier.HandsState) (now : R) :
  Classifier.foundHandsCount results = 0%nat ->
  exists st' out,
    Classifier.detect results st = Some (st', out)
    /\ Audio.smearVol (Audio.updateAudio out now) = 0
    /\ Audio.pinchVol (Audio.updateAudio out now) = 0
    /\ Audio.palmVol (Audio.updateAudio out now) = 0.
Proof.
  intros Hnone.
  assert (Hstep : forall i state,
             Classifier.slotStep results i state
             = Some (Classifier.lostHand state)).
  { intros i state. unfold Classifier.slotStep. rewrite Hnone. reflexivity. }
  unfold Classifier.detect. rewrite !Hstep. cbn [bind].
  eexists; eexists. split; [reflexivity |].
  unfold Audio.updateAudio, Audio.metrics, Audio.measure, Classifier.lostHand.
  cbn [fst snd Classifier.hp_gesture Classifier.hp_indexTip Classifier.tip_vx
       Classifier.tip_vy GestureType_eqb Audio.maxSmearVelocity
       Audio.maxPinchStretch Audio.maxPalmProximity Audio.activePinch
       Audio.smearVol Audio.pinchVol Audio.palmVol].
  rewrite hypot_zero.
  assert (Hm : Rmax (Rmax 0 (Rmin (0 / 3.0) 1.0)) (Rmin (0 / 3.0) 1.0) = 0).
  { rewrite (Rmin_left (0 / 3.0) 1.0) by lra.
    rewrite (Rmax_left 0 (0 / 3.0)) by lra. apply Rmax_left. lra. }
  rewrite Hm.
  replace (Rgtb 0 0.05) with false by (symmetry; apply Rltb_false; lra).
  replace (Rgtb 0 0.01) with false by (symmetry; apply Rltb_false; lra).
  repeat split.
Qed.

Lemma no_hands_no_sound_witness :
  exists st' out,
    Classifier.detect Samples.noHands Classifier.initialHands
    = Some (st', out)
    /\ Audio.smearVol (Audio.updateAudio out 1) = 0
    /\ Audio.pinchVol (Audio.updateAudio out 1) = 0
    /\ Audio.palmVol (Audio.updateAudio out 1) = 0.
Proof.
  apply (no_hands_no_sound Samples.noHands Classifier.initialHands 1).
  reflexivity.
Defined.

Lemma Rmax_above (p q r : R) : r < Rmax p q <-> r < p \/ r < q.
Proof. unfold Rmax. destruct (Rle_dec p q); split; intros; lra. Qed.

Lemma measure_fields (hand : Classifier.HandPoint) (m : Audio.Metrics) :
  Audio.maxSmearVelocity (Audio.measure hand m)
  = Rmax (Audio.maxSmearVelocity m) (Rmin (Audio.speed hand / 3.0) 1.0)
  /\ Audio.activePinch (Audio.measure hand m)
     = (GestureType_eqb (Classifier.hp_gesture hand) PINCH
        || Audio.activePinch m)%bool
  /\ Audio.maxPalmProximity (Audio.measure hand m)
     = if GestureType_eqb (Classifier.hp_gesture hand) PALM
       then Rmax (Audio.maxPalmProximity m) (Classifier.hp_z hand)
       else Audio.maxPalmProximity m.
Proof.
  unfold Audio.measure, Audio.speed.
  destruct (GestureType_eqb (Classifier.hp_gesture hand) PINCH);
    repeat split.
Qed.

(** X23: what starts each voice.  The friction volume is positive exactly
    when some fingertip is faster than 0.15; the tension volume is 0.2
    exactly when some hand reports PINCH; and the water volume is positive
    exactly when some hand reports PALM with a proximity above 0.01. *)
Theorem audio_voices_start (hands : Classifier.HandData) (now : R) :
  let t := Audio.updateAudio hands now in
  (0 < Audio.smearVol t
   <-> 0.15 < Audio.speed (fst hands) \/ 0.15 < Audio.speed (snd hands))
  /\ (Audio.pinchVol t = 0.2
      <-> Classifier.hp_gesture (fst hands) = PINCH
          \/ Classifier.hp_gesture (snd hands) = PINCH)
  /\ (0 < Audio.palmVol t
      <-> (Classifier.hp_gesture (fst hands) = PALM
           /\ 0.01 < Classifier.hp_z (fst hands))
          \/ (Classifier.hp_gesture (snd hands) = PALM
              /\ 0.01 < Classifier.hp_z (snd hands))).
Proof.
  cbv zeta. unfold Audio.updateAudio.
  cbn [Audio.smearVol Audio.pinchVol Audio.palmVol].
  unfold Audio.metrics.
  destruct (measure_fields (fst hands) (Audio.mkMetrics 0 0 0 false))
    as (S0 & P0 & Z0).
  destruct (measure_fields (snd hands)
              (Audio.measure (fst hands) (Audio.mkMetrics 0 0 0 false)))
    as (S1 & P1 & Z1).
  rewrite S1, P1, Z1, S0, P0, Z0.
  cbn [Audio.maxSmearVelocity Audio.activePinch Audio.maxPalmProximity].
  assert (Hspeed : forall v, 0.05 < Rmin (v / 3.0) 1.0 <-> 0.15 < v).
  { intros v. unfold Rmin. destruct (Rle_dec (v / 3.0) 1.0); split; intros; lra. }
  split; [| split].
  - set (m := Rmax (Rmax 0 _) _).
    assert (Hm : 0.05 < m
                 <-> 0.15 < Audio.speed (fst hands)
                     \/ 0.15 < Audio.speed (snd hands)).
    { unfold m. rewrite !Rmax_above, !Hspeed. split; intros; lra. }
    unfold Rgtb. destruct (Rltb 0.05 m) eqn:E.
    + apply Rltb_true in E. split; [intros _; now apply Hm | intros _; lra].
    + apply Rltb_false in E. split; [lra |].
      intros H. apply Hm in H. lra.
  - rewrite orb_false_r.
    pose proof (GestureType_eqb_eq (Classifier.hp_gesture (fst hands)) PINCH)
      as H0.
    pose proof (GestureType_eqb_eq (Classifier.hp_gesture (snd hands)) PINCH)
      as H1.
    destruct (GestureType_eqb (Classifier.hp_gesture (snd hands)) PINCH);
      destruct (GestureType_eqb (Classifier.hp_gesture (fst hands)) PINCH);
      cbn [orb]; split; intros H.
    + left. now apply H0.
    + reflexivity.
    + right. now apply H1.
    + reflexivity.
    + left. now apply H0.
    + reflexivity.
    + lra.
    + destruct H as [H | H]; [apply H0 in H | apply H1 in H]; discriminate.
  - set (palm0 := GestureType_eqb (Classifier.hp_gesture (fst hands)) PALM).
    set (palm1 := GestureType_eqb (Classifier.hp_gesture (snd hands)) PALM).
    assert (H0 : palm0 = true <-> Classifier.hp_gesture (fst hands) = PALM)
      by apply GestureType_eqb_eq.
    assert (H1 : palm1 = true <-> Classifier.hp_gesture (snd hands) = PALM)
      by apply GestureType_eqb_eq.
    set (m := if palm1 then _ else _).
    assert (Hm : 0.01 < m
                 <-> (Classifier.hp_gesture (fst hands) = PALM
                      /\ 0.01 < Classifier.hp_z (fst hands))
                     \/ (Classifier.hp_gesture (snd hands) = PALM
                         /\ 0.01 < Classifier.hp_z (snd hands))).
    { unfold m. destruct palm0, palm1; rewrite ?Rmax_above;
        split; intros H;
        repeat match goal with
               | K : _ \/ _ |- _ => destruct K
               | K : _ /\ _ |- _ => destruct K
               end;
        try lra;
        try (left; split; [now apply H0 | assumption]);
        try (right; split; [now apply H1 | assumption]);
        try (exfalso;
             match goal with
             | K : Classifier.hp_gesture (fst hands) = PALM |- _ =>
                 apply H0 in K; discriminate
             | K : Classifier.hp_gesture (snd hands) = PALM |- _ =>
                 apply H1 in K; discriminate
             end);
        auto. }
    unfold Rgtb. destruct (Rltb 0.01 m) eqn:E.
    + apply Rltb_true in E. split; [intros _; now apply Hm |].
      intros _. apply Rmin_glb_lt; lra.
    + apply Rltb_false in E. split; [lra |].
      intros H. apply Hm in H. lra.
Qed.
